(** * Velcro: handler resolution and execution engine

    A shallow embedding of the hook dispatcher of the velcro repository:
    the handler resolver (handlers/resolver.ts), the session and project
    override stores (session/state.ts, config/project-config.ts), the
    handler management of the global configuration (config/index.ts), the
    executor with its matcher and exit-code protocol (handlers/executor.ts),
    the isolated runner (handlers/velcro-runner.ts), the statistics recorder
    (handlers/stats.ts), the result aggregation of the /hooks endpoint
    (server/http-server.ts), the summary of the execution log
    (logging/logger.ts), the two commands that drive the dispatcher
    (cli/commands/handler.ts, cli/commands/execute.ts) and the conversion
    between velcro handlers and Claude Code hooks (config/claude-import.ts).

    Conventions of the embedding.
    - A JavaScript value that may be [undefined] is an [option].
    - Stateful code runs in the monad [M]: explicit state passing with
      exceptions, the state surviving a throw so that [finally] blocks see it.
    - What the code asks of its surroundings (the regular-expression engine,
      [JSON.parse], child processes, the file system, handler-authored code)
      is a field of the record [Runtime]; theorems hold for every runtime.
    - Every observable action is appended to a trace of [Effect]s.
    - The dispatcher is described twice.  The modules named after the
      source files describe it in surroundings that do not fail: the log
      files and the statistics file can be written, a child process takes
      the event and comes to an end, handler code evaluated in the
      dispatcher comes back, the search for the project configuration
      ends, and a function handler returns strings where the result
      declares strings.  The module [Full] describes [execute], the
      resolver and the /hooks endpoint without these assumptions; the
      properties that say that the code returns or answers are stated on
      [Full], with the assumptions they need as hypotheses. *)

From Stdlib Require Import PrimFloat.
From Stdlib Require Uint63.
From Stdlib Require Import ZArith String Ascii List Bool Lia.
From stdpp Require Import base option list gmap strings pretty.
Import ListNotations.

Local Open Scope Z_scope.
Local Open Scope string_scope.
Local Open Scope list_scope.

(** ** JavaScript values *)

Module JS.

(** Values produced by [JSON.parse] (numbers restricted to integers). *)
#[local] Set Warnings "-register-all".
Inductive JSON : Type :=
| JNull
| JBool (b : bool)
| JNum (n : Z)
| JStr (s : string)
| JArr (items : list JSON)
| JObj (fields : list (string * JSON)).

(** Truthiness of a value, as used by [if (v)], [!v] and [v || w]. *)
Definition truthy (v : JSON) : bool :=
  match v with
  | JNull => false
  | JBool b => b
  | JNum n => negb (Z.eqb n 0)
  | JStr s => negb (String.eqb s "")
  | JArr _ => true
  | JObj _ => true
  end.

(** [typeof v === 'object'] (true of [null] as well, as in JavaScript). *)
Definition typeof_object (v : JSON) : bool :=
  match v with
  | JNull | JArr _ | JObj _ => true
  | _ => false
  end.

(** Own property of an object produced by [JSON.parse]: when a key is
    repeated in the text the last occurrence wins. *)
Fixpoint get_field (k : string) (fields : list (string * JSON)) : option JSON :=
  match fields with
  | [] => None
  | (k', v) :: rest =>
      match get_field k rest with
      | Some w => Some w
      | None => if String.eqb k k' then Some v else None
      end
  end.

(** [v.k] for a non-null value [v]; [undefined] is [None]. *)
Definition prop (v : JSON) (k : string) : option JSON :=
  match v with
  | JObj fields => get_field k fields
  | _ => None
  end.

(** [v.k === 'lit'] *)
Definition prop_is_string (v : JSON) (k lit : string) : bool :=
  match prop v k with
  | Some (JStr s) => String.eqb s lit
  | _ => false
  end.

(** [v.k === true] *)
Definition prop_is_true (v : JSON) (k : string) : bool :=
  match prop v k with
  | Some (JBool true) => true
  | _ => false
  end.

(** Truthiness of a possibly undefined value. *)
Definition truthy_opt (v : option JSON) : bool :=
  match v with
  | Some w => truthy w
  | None => false
  end.

(** Truthiness of a possibly undefined string. *)
Definition truthy_str (s : option string) : bool :=
  match s with
  | Some t => negb (String.eqb t "")
  | None => false
  end.

(** [a || b] on possibly undefined values. *)
Definition or_else (a b : option JSON) : option JSON :=
  if truthy_opt a then a else b.

(** [s === v] for a possibly undefined string [s] and a possibly undefined
    parsed value [v]. *)
Definition str_strict_eq (s : option string) (v : option JSON) : bool :=
  match s, v with
  | None, None => true
  | Some a, Some (JStr b) => String.eqb a b
  | _, _ => false
  end.

(** Strings are held as the UTF-8 encoding of the JavaScript string.
    [String.prototype.trim] removes the WhiteSpace and LineTerminator
    characters: the single bytes 9 to 13 and 32, *)
Definition is_space (c : ascii) : bool :=
  let n := nat_of_ascii c in
  ((9 <=? n) && (n <=? 13))%nat || (n =? 32)%nat.

(** the two bytes of U+00A0, *)
Definition is_space2 (a b : ascii) : bool :=
  ((nat_of_ascii a =? 194) && (nat_of_ascii b =? 160))%nat.

(** and the three bytes of U+1680, U+2000 to U+200A, U+2028, U+2029,
    U+202F, U+205F, U+3000 and U+FEFF. *)
Definition is_space3 (a b c : ascii) : bool :=
  let '(a, b, c) := (nat_of_ascii a, nat_of_ascii b, nat_of_ascii c) in
  ((a =? 225) && (b =? 154) && (c =? 128)
   || (a =? 226) && (b =? 128)
      && ((128 <=? c) && (c <=? 138) || (c =? 168) || (c =? 169) || (c =? 175))
   || (a =? 226) && (b =? 129) && (c =? 159)
   || (a =? 227) && (b =? 128) && (c =? 128)
   || (a =? 239) && (b =? 187) && (c =? 191))%nat.

Fixpoint trim_left (s : string) : string :=
  match s with
  | String a rest =>
      if is_space a then trim_left rest
      else
        match rest with
        | String b rest2 =>
            if is_space2 a b then trim_left rest2
            else
              match rest2 with
              | String c rest3 => if is_space3 a b c then trim_left rest3 else s
              | EmptyString => s
              end
        | EmptyString => s
        end
  | EmptyString => EmptyString
  end.

Fixpoint trim_right (s : string) : string :=
  match s with
  | String a rest =>
      match trim_right rest with
      | EmptyString => if is_space a then EmptyString else String a EmptyString
      | String b EmptyString as r =>
          if is_space2 a b then EmptyString else String a r
      | String b (String c EmptyString) as r =>
          if is_space3 a b c then EmptyString else String a r
      | r => String a r
      end
  | EmptyString => EmptyString
  end.

Definition trim (s : string) : string := trim_right (trim_left s).

(** [s.startsWith(c)] for a one-character prefix. *)
Definition starts_with_char (c : ascii) (s : string) : bool :=
  match s with
  | String d _ => Ascii.eqb c d
  | EmptyString => false
  end.

(** The line feed, as a one-character string. *)
Definition newline : string := String (ascii_of_nat 10) EmptyString.

(** [parts.join(sep)] *)
Fixpoint join (sep : string) (parts : list string) : string :=
  match parts with
  | [] => ""
  | [p] => p
  | p :: rest => p +:+ sep +:+ join sep rest
  end.

(** The JavaScript number of an integer: the binary64 value nearest to
    it.  (Exact below 2^53 in absolute value; the integers of this
    development, counts and durations in milliseconds, stay below 2^63.) *)
Definition number (z : Z) : PrimFloat.float :=
  if Z.ltb z 0 then PrimFloat.opp (PrimFloat.of_uint63 (Uint63.of_Z (- z)))
  else PrimFloat.of_uint63 (Uint63.of_Z z).

End JS.

Import JS.

(** ** Data model *)

(** types/hooks.ts: [HookType]. *)
Inductive HookType : Type :=
| PreToolUse | PostToolUse | UserPromptSubmit | Notification
| Stop | SubagentStop | PreCompact.

#[global] Instance HookType_eq_dec : EqDecision HookType.
Proof. solve_decision. Defined.

(** [hooks.includes(t)] *)
Definition includes_hook (t : HookType) (hooks : list HookType) : bool :=
  existsb (fun u => bool_decide (u = t)) hooks.

(** [names.includes(n)] *)
Definition includes_name (n : string) (names : list string) : bool :=
  existsb (String.eqb n) names.

(** The [type] field of a handler: the five variants of the schema, and any
    other string (a definition that did not go through the schema). *)
Inductive HandlerType : Type :=
| TVelcro | TCommand | TScript | TFunction | TExternal
| TOther (name : string).

Definition HandlerType_text (t : HandlerType) : string :=
  match t with
  | TVelcro => "velcro"
  | TCommand => "command"
  | TScript => "script"
  | TFunction => "function"
  | TExternal => "external"
  | TOther name => name
  end.

Inductive HandlerSource : Type := SrcVelcro | SrcClaude.

(** config/index.ts: [Handler], the type inferred from [HandlerSchema]. *)
Record Handler : Type := mkHandler {
  name : string;
  enabled : bool;
  hooks : list HookType;
  type : HandlerType;
  code : option string;
  command : option string;
  script : option string;
  args : option (list string);
  env : option (list (string * string));
  packages : list string;
  matcher : option string;
  source : HandlerSource;
  managed : bool
}.

(** [Partial<Handler>]: [None] is an absent key. *)
Record PartialHandler : Type := mkPartialHandler {
  p_name : option string;
  p_enabled : option bool;
  p_hooks : option (list HookType);
  p_type : option HandlerType;
  p_code : option string;
  p_command : option string;
  p_script : option string;
  p_args : option (list string);
  p_env : option (list (string * string));
  p_packages : option (list string);
  p_matcher : option string;
  p_source : option HandlerSource;
  p_managed : option bool
}.

(** [{ ...handler, ...overrides }] *)
Definition merge_handler (h : Handler) (o : PartialHandler) : Handler :=
  {| name := default (name h) (p_name o);
     enabled := default (enabled h) (p_enabled o);
     hooks := default (hooks h) (p_hooks o);
     type := default (type h) (p_type o);
     code := match p_code o with Some c => Some c | None => code h end;
     command := match p_command o with Some c => Some c | None => command h end;
     script := match p_script o with Some c => Some c | None => script h end;
     args := match p_args o with Some c => Some c | None => args h end;
     env := match p_env o with Some c => Some c | None => env h end;
     packages := default (packages h) (p_packages o);
     matcher := match p_matcher o with Some c => Some c | None => matcher h end;
     source := default (source h) (p_source o);
     managed := default (managed h) (p_managed o) |}.

(** types/hooks.ts: [HookData].  [tool_name] is present on the tool-bearing
    hooks only; [payload] holds the remaining type-specific fields, which the
    dispatcher forwards without reading. *)
Record HookData : Type := mkHookData {
  session_id : string;
  transcript_path : string;
  cwd : string;
  hook_event_name : HookType;
  tool_name : option string;
  payload : list (string * JSON)
}.

(** handlers/executor.ts: [HookExecutionResult]. *)
Record HookExecutionResult : Type := mkResult {
  handler : string;
  success : bool;
  output : option string;
  stderr : option string;
  exitCode : option Z;
  response : option JSON;
  blockExecution : option bool;
  error : option string;
  duration : Z
}.

Definition set_success (b : bool) (r : HookExecutionResult) :=
  mkResult (handler r) b (output r) (stderr r) (exitCode r) (response r)
           (blockExecution r) (error r) (duration r).
Definition set_output (o : option string) (r : HookExecutionResult) :=
  mkResult (handler r) (success r) o (stderr r) (exitCode r) (response r)
           (blockExecution r) (error r) (duration r).
Definition set_stderr (e : option string) (r : HookExecutionResult) :=
  mkResult (handler r) (success r) (output r) e (exitCode r) (response r)
           (blockExecution r) (error r) (duration r).
Definition set_exitCode (c : option Z) (r : HookExecutionResult) :=
  mkResult (handler r) (success r) (output r) (stderr r) c (response r)
           (blockExecution r) (error r) (duration r).
Definition set_response (v : option JSON) (r : HookExecutionResult) :=
  mkResult (handler r) (success r) (output r) (stderr r) (exitCode r) v
           (blockExecution r) (error r) (duration r).
Definition set_blockExecution (b : option bool) (r : HookExecutionResult) :=
  mkResult (handler r) (success r) (output r) (stderr r) (exitCode r) (response r)
           b (error r) (duration r).
Definition set_error (e : option string) (r : HookExecutionResult) :=
  mkResult (handler r) (success r) (output r) (stderr r) (exitCode r) (response r)
           (blockExecution r) e (duration r).
Definition set_duration (d : Z) (r : HookExecutionResult) :=
  mkResult (handler r) (success r) (output r) (stderr r) (exitCode r) (response r)
           (blockExecution r) (error r) d.

(** [if (result.blockExecution)] *)
Definition blocks (r : HookExecutionResult) : bool :=
  match blockExecution r with
  | Some b => b
  | None => false
  end.

(** constants.ts: [EXIT_CODE]. *)
Module EXIT_CODE.
Definition SUCCESS : Z := 0.
Definition ERROR : Z := 1.
Definition BLOCK : Z := 2.
End EXIT_CODE.

(** A thrown JavaScript value, with what the [catch] blocks inspect:
    [err instanceof Error], its message (or [String(err)]), and the
    properties [exitCode], [blockExecution] and [stderr]. *)
Record Thrown : Type := mkThrown {
  thrown_is_Error : bool;
  thrown_text : string;
  thrown_exitCode : option Z;
  thrown_has_blockExecution : bool;
  thrown_stderr : option string
}.

(** [new Error(message)] *)
Definition new_Error (message : string) : Thrown :=
  mkThrown true message None false None.

(** handlers/stats.ts: [HandlerStats].  The two derived ratios are
    JavaScript numbers, that is binary64 floating-point values, computed
    by the floating-point division and multiplication; [lastExecution] is
    the clock reading of the update; [lastError] holds whatever value the
    caller passed as [error]. *)
Record HandlerStats : Type := mkStats {
  executions : nat;
  failures : nat;
  totalDuration : Z;
  avgDuration : PrimFloat.float;
  lastExecution : option Z;
  lastError : option JSON;
  successRate : PrimFloat.float
}.

(** session/state.ts: [SessionHookState]. *)
Record SessionHookState : Type := mkSession {
  sessionId : string;
  enabledHooks : gset string;
  disabledHooks : gset string;
  createdAt : Z;
  lastModified : Z;
  temporary : bool
}.

(** config/project-config.ts: [ProjectHookConfig] and [ProjectConfig]. *)
Record ProjectHookConfig : Type := mkProjectHooks {
  ph_enabled : option (list string);
  ph_disabled : option (list string);
  ph_overrides : option (gmap string PartialHandler)
}.

Record ProjectConfig : Type := mkProjectConfig {
  pc_hooks : option ProjectHookConfig
}.

(** ** Surroundings, state and effects *)

Inductive LogLevel : Type := LvDebug | LvInfo | LvWarn | LvError.

(** A request to [child_process.spawn]: the executable, its arguments, the
    variables added to the inherited environment, and the event written to
    the child's standard input as JSON. *)
Record SpawnRequest : Type := mkSpawn {
  sp_command : string;
  sp_args : list string;
  sp_env : list (string * string);
  sp_stdin : HookData
}.

(** The event that settles the promise of an execution strategy: ['exit']
    with the exit code ([None] is [null]: no explicit code) or ['error']. *)
Inductive ChildEvent : Type :=
| ChildExit (code : option Z)
| ChildError (message : string).

(** A child process that came to its terminal event, with what the
    ['data'] listeners of its standard output and standard error had
    received when that event was emitted. *)
Record ChildOutcome : Type := mkChild {
  child_stdout : string;
  child_stderr : string;
  child_event : ChildEvent
}.

Inductive SpawnOutcome : Type :=
| SpawnThrows (e : Thrown)
| Spawned (c : ChildOutcome).

(** How handler-authored code ends in the isolated runner: it returns, it
    calls the [exit] function of the [process] object it was given, or it
    throws. *)
Inductive Completion : Type :=
| Returned (value : option JSON)
| CalledExit (status : option Z)
| Threw (e : Thrown).

(** A run of handler-authored code inside the isolated runner: what it
    printed, and how it ended ([inl] when the text does not compile, that is
    when [new AsyncFunction] throws). *)
Record IsolatedRun : Type := mkIsolatedRun {
  iso_stdout : string;
  iso_stderr : string;
  iso_end : Thrown + Completion
}.

Inductive PackageScope : Type := ScopeHandler | ScopeGlobal.

(** Everything observable that the dispatcher does. *)
Inductive Effect : Type :=
| ELog (level : LogLevel) (message : string)
| ELogHook (hookData : HookData)
| EConsoleError (message : string)
| ESpawn (request : SpawnRequest)
| EEvalCode (source_text : string)
| EReadFile (path : string)
| ESaveStats (content : gmap string HandlerStats).

(** [true] of the effects that are only diagnostics. *)
Definition is_logging (e : Effect) : bool :=
  match e with
  | ELog _ _ | ELogHook _ | EConsoleError _ => true
  | _ => false
  end.

(** The surroundings of the dispatcher. *)
Record Runtime : Type := mkRuntime {
  (** [new RegExp(pattern)]: [None] when the constructor throws, otherwise
      the [test] method of the compiled expression. *)
  new_RegExp : string -> option (string -> bool);
  (** [JSON.parse(text)]: [None] when it throws. *)
  JSON_parse : string -> option JSON;
  (** the [n]-th reading of the system clock, in milliseconds *)
  clock_reading : nat -> Z;
  (** [child_process.spawn] followed to the child's terminal event *)
  spawn : SpawnRequest -> SpawnOutcome;
  (** [fs/promises.readFile(path, 'utf-8')] *)
  readFile : string -> Thrown + string;
  (** [JSON.stringify(value)] *)
  JSON_stringify : JSON -> string;
  (** in-process evaluation of handler-authored code on an event: [inl]
      when the text does not compile ([new AsyncFunction] throws), otherwise
      the rejection or the value of the awaited call.  An evaluation that
      terminates the dispatcher or never settles yields no result at all
      and is not represented. *)
  eval_async : string -> HookData -> Thrown + (Thrown + option JSON);
  (** handler-authored text evaluated inside the isolated runner, with the
      package paths table it may [require] from *)
  eval_isolated : string -> JSON -> HookData -> IsolatedRun;
  (** the path of velcro-runner.js *)
  runnerPath : string;
  (** [packageManager.list(scope, handlerName)], package names only *)
  pm_list : PackageScope -> option string -> list string;
  (** [packageManager.getPackagePath(name, scope, handlerName)] *)
  pm_getPackagePath : string -> PackageScope -> option string -> option string;
  (** [process.cwd()] *)
  process_cwd : string;
  (** [findProjectConfig(startDir)]: the nearest [.velcro/project.json],
      when the loop over the parent directories ends *)
  find_project_config : string -> option string;
  (** reading and parsing that file; [None] when either step throws *)
  read_project_config : string -> option ProjectConfig
}.

(** The mutable state of the dispatcher process: the singletons
    [configManager], [sessionStateManager], [projectConfigManager] and
    [statsManager], the number of clock readings taken so far, and the
    trace of effects, most recent last.  ([projectRoot], which nothing here
    reads, is left out.) *)
Record State : Type := mkState {
  handlers : list Handler;
  sessions : gmap string SessionHookState;
  projectConfig : option ProjectConfig;
  stats : gmap string HandlerStats;
  ticks : nat;
  trace : list Effect
}.

Definition with_trace (t : list Effect) (s : State) : State :=
  mkState (handlers s) (sessions s) (projectConfig s) (stats s) (ticks s) t.
Definition with_stats (m : gmap string HandlerStats) (s : State) : State :=
  mkState (handlers s) (sessions s) (projectConfig s) m (ticks s) (trace s).
Definition with_ticks (n : nat) (s : State) : State :=
  mkState (handlers s) (sessions s) (projectConfig s) (stats s) n (trace s).
Definition with_project (c : option ProjectConfig) (s : State) : State :=
  mkState (handlers s) (sessions s) c (stats s) (ticks s) (trace s).
Definition with_sessions (m : gmap string SessionHookState) (s : State) : State :=
  mkState (handlers s) m (projectConfig s) (stats s) (ticks s) (trace s).

(** ** The monad of stateful code that may throw *)

Inductive Outcome (A : Type) : Type :=
| Ok (a : A)
| Throw (e : Thrown).
Arguments Ok {A} a.
Arguments Throw {A} e.

Definition M (A : Type) : Type := State -> Outcome A * State.

Definition ret {A} (a : A) : M A := fun s => (Ok a, s).

Definition bind {A B} (c : M A) (k : A -> M B) : M B :=
  fun s =>
    match c s with
    | (Ok a, s') => k a s'
    | (Throw e, s') => (Throw e, s')
    end.

Definition throw {A} (e : Thrown) : M A := fun s => (Throw e, s).

Definition get_state : M State := fun s => (Ok s, s).

Definition modify (f : State -> State) : M unit := fun s => (Ok tt, f s).

Declare Scope m_scope.
Delimit Scope m_scope with M.
Notation "'do' x <- c ; k" := (bind c (fun x => k))
  (at level 10, x name, c at level 100, k at level 200) : m_scope.
Notation "c ;; k" := (bind c (fun _ => k))
  (at level 100, k at level 200, right associativity) : m_scope.
Local Open Scope m_scope.

(** [try { body } catch (err) { handler }] *)
Definition try_catch {A} (body : M A) (handler : Thrown -> M A) : M A :=
  fun s =>
    match body s with
    | (Ok a, s') => (Ok a, s')
    | (Throw e, s') => handler e s'
    end.

(** [emit e] appends an effect to the trace. *)
Definition emit (e : Effect) : M unit :=
  modify (fun s => with_trace (trace s ++ [e]) s).

(** [Logger.log], while the log file can be written. *)
Definition logger (level : LogLevel) (message : string) : M unit :=
  emit (ELog level message).

(** [Date.now()] *)
Definition Date_now (rt : Runtime) : M Z :=
  fun s => (Ok (clock_reading rt (ticks s)), with_ticks (S (ticks s)) s).

Definition HookType_text (t : HookType) : string :=
  match t with
  | PreToolUse => "PreToolUse"
  | PostToolUse => "PostToolUse"
  | UserPromptSubmit => "UserPromptSubmit"
  | Notification => "Notification"
  | Stop => "Stop"
  | SubagentStop => "SubagentStop"
  | PreCompact => "PreCompact"
  end.

Definition bool_text (b : bool) : string := if b then "true" else "false".

(** ** session/state.ts: SessionStateManager *)

Module SessionStateManager.

Definition getOrCreateSession (rt : Runtime) (sid : string) : M SessionHookState :=
  do s <- get_state;
  match sessions s !! sid with
  | Some session => ret session
  | None =>
      do created <- Date_now rt;
      do modified <- Date_now rt;
      let session := mkSession sid ∅ ∅ created modified true in
      modify (fun s => with_sessions (<[sid := session]> (sessions s)) s) ;;
      ret session
  end.

Definition enableHookForSession (rt : Runtime) (sid hookName : string) : M unit :=
  do session <- getOrCreateSession rt sid;
  do now <- Date_now rt;
  let session' :=
    mkSession (sessionId session)
              (enabledHooks session ∪ {[ hookName ]})
              (disabledHooks session ∖ {[ hookName ]})
              (createdAt session) now (temporary session) in
  modify (fun s => with_sessions (<[sid := session']> (sessions s)) s).

Definition disableHookForSession (rt : Runtime) (sid hookName : string) : M unit :=
  do session <- getOrCreateSession rt sid;
  do now <- Date_now rt;
  let session' :=
    mkSession (sessionId session)
              (enabledHooks session ∖ {[ hookName ]})
              (disabledHooks session ∪ {[ hookName ]})
              (createdAt session) now (temporary session) in
  modify (fun s => with_sessions (<[sid := session']> (sessions s)) s).

(** Returns [None] ([undefined]) when no session override exists. *)
Definition isHookEnabledForSession (store : gmap string SessionHookState)
    (sid hookName : string) : option bool :=
  match store !! sid with
  | None => None
  | Some session =>
      if bool_decide (hookName ∈ disabledHooks session) then Some false
      else if bool_decide (hookName ∈ enabledHooks session) then Some true
      else None
  end.

(** Clear session state. *)
Definition clearSession (sid : string) : M unit :=
  modify (fun s => with_sessions (delete sid (sessions s)) s).

(** The default of [maxAgeMs]: [24 * 60 * 60 * 1000]. *)
Definition default_maxAgeMs : Z := 24 * 60 * 60 * 1000.

(** The identifiers collected in [toDelete] at the clock reading [now]. *)
Definition expired_sessions (now maxAgeMs : Z) (store : gmap string SessionHookState)
    : list string :=
  map fst (List.filter (fun kv => Z.ltb maxAgeMs (now - lastModified (snd kv)))
                       (map_to_list store)).

(** Clean up old sessions: the sessions last modified more than [maxAgeMs]
    before now are collected, then deleted one by one. *)
Definition cleanupOldSessions (rt : Runtime) (maxAgeMs : option Z) : M unit :=
  let maxAge := default default_maxAgeMs maxAgeMs in
  do now <- Date_now rt;
  modify (fun s =>
    with_sessions (fold_left (fun m sid => delete sid m)
                             (expired_sessions now maxAge (sessions s)) (sessions s)) s).

End SessionStateManager.

(** ** config/project-config.ts: ProjectConfigManager *)

Module ProjectConfigManager.

Definition loadProjectConfig (rt : Runtime) (startDir : string)
    : M (option ProjectConfig) :=
  match find_project_config rt startDir with
  | None => ret None
  | Some configPath =>
      match read_project_config rt configPath with
      | Some parsed =>
          modify (with_project (Some parsed)) ;;
          ret (Some parsed)
      | None =>
          emit (EConsoleError ("Failed to load project config from " +:+ configPath +:+ ":")) ;;
          ret None
      end
  end.

(** [list?.includes(n)], [undefined] counting as false. *)
Definition opt_includes (n : string) (names : option (list string)) : bool :=
  match names with
  | Some l => includes_name n l
  | None => false
  end.

Definition isHandlerEnabled (pc : option ProjectConfig) (handlerName : string)
    (globalEnabled : bool) : bool :=
  match pc ≫= pc_hooks with
  | None => globalEnabled
  | Some h =>
      (* Explicit disable takes precedence *)
      if opt_includes handlerName (ph_disabled h) then false
      (* Explicit enable *)
      else if opt_includes handlerName (ph_enabled h) then true
      (* Fall back to global setting *)
      else globalEnabled
  end.

Definition getHandlerOverrides (pc : option ProjectConfig) (handlerName : string)
    : option PartialHandler :=
  h ← pc ≫= pc_hooks; o ← ph_overrides h; o !! handlerName.

(** Clear loaded project config. *)
Definition clear : M unit := modify (with_project None).

End ProjectConfigManager.

(** ** handlers/stats.ts: StatsManager *)

Module StatsManager.

Definition fresh_stats : HandlerStats :=
  mkStats 0 0 0 (number 0) None None (number 0).

(** [recordExecution] up to the call of [saveStats], for any value of
    [error]: the entry is updated in the map. *)
Definition record (rt : Runtime) (handlerName : string) (duration : Z)
    (success : bool) (error : option JSON) : M unit :=
  do s <- get_state;
  let stats0 := default fresh_stats (stats s !! handlerName) in
  let executions1 := S (executions stats0) in
  let totalDuration1 := totalDuration stats0 + duration in
  let avgDuration1 :=
    PrimFloat.div (number totalDuration1) (number (Z.of_nat executions1)) in
  do now <- Date_now rt;
  let failures1 := if success then failures stats0 else S (failures stats0) in
  let lastError1 :=
    if success then lastError stats0
    else Some (if truthy_opt error then default JNull error else JStr "Unknown error") in
  let successRate1 :=
    PrimFloat.mul
      (PrimFloat.div (number (Z.of_nat executions1 - Z.of_nat failures1))
                     (number (Z.of_nat executions1)))
      (number 100) in
  let stats1 :=
    mkStats executions1 failures1 totalDuration1 avgDuration1 (Some now)
            lastError1 successRate1 in
  modify (fun s => with_stats (<[handlerName := stats1]> (stats s)) s).

(** [recordExecution] with an [error] that is a string, as its signature
    declares, and a statistics file that can be written: [saveStats]
    writes the whole map. *)
Definition recordExecution (rt : Runtime) (handlerName : string) (duration : Z)
    (success : bool) (error : option string) : M unit :=
  record rt handlerName duration success (JStr <$> error) ;;
  do s <- get_state;
  emit (ESaveStats (stats s)).

Definition getStats (handlerName : string) : M (option HandlerStats) :=
  do s <- get_state; ret (stats s !! handlerName).

(** [resetStats(handlerName?)]: one entry is deleted when a (non-empty)
    name is given, the whole map is cleared otherwise; the map is saved. *)
Definition resetStats (handlerName : option string) : M unit :=
  (if truthy_str handlerName
   then modify (fun s => with_stats (delete (default "" handlerName) (stats s)) s)
   else modify (with_stats ∅)) ;;
  do s <- get_state;
  emit (ESaveStats (stats s)).

End StatsManager.

(** ** config/index.ts: ConfigManager, handler management *)

Module ConfigManager.

(** The outcome of an operation on the configuration: its return value, the
    handlers afterwards, and the handlers handed to [saveConfig] when the
    operation saves. *)
Record Change (A : Type) : Type := mkChange {
  returned : A;
  handlers_after : list Handler;
  saved : option (list Handler)
}.
Arguments mkChange {A} _ _ _.
Arguments returned {A} _.
Arguments handlers_after {A} _.
Arguments saved {A} _.

Definition addHandler (h : Handler) (hs : list Handler) : Change unit :=
  mkChange tt (hs ++ [h]) (Some (hs ++ [h])).

(** [handlers.findIndex(h => h.name === name)], [None] for [-1]. *)
Fixpoint findIndex (n : string) (hs : list Handler) : option nat :=
  match hs with
  | [] => None
  | h :: rest =>
      if String.eqb (name h) n then Some O
      else match findIndex n rest with
           | Some i => Some (S i)
           | None => None
           end
  end.

(** [handlers.splice(index, 1)] *)
Fixpoint splice_one (index : nat) (hs : list Handler) : list Handler :=
  match index, hs with
  | _, [] => []
  | O, _ :: rest => rest
  | S i, h :: rest => h :: splice_one i rest
  end.

Definition removeHandler (n : string) (hs : list Handler) : Change bool :=
  match findIndex n hs with
  | Some index =>
      let hs' := splice_one index hs in
      mkChange true hs' (Some hs')
  | None => mkChange false hs None
  end.

Definition getHandler (n : string) (hs : list Handler) : option Handler :=
  List.find (fun h => String.eqb (name h) n) hs.

Definition listHandlers (hs : list Handler) : list Handler := hs.

Definition set_enabled (b : bool) (h : Handler) : Handler :=
  mkHandler (name h) b (hooks h) (type h) (code h) (command h) (script h) (args h)
            (env h) (packages h) (matcher h) (source h) (managed h).

(** [handler.enabled = b] on the handler that [find] returns: the first one
    of that name, updated in place. *)
Fixpoint set_first_enabled (n : string) (b : bool) (hs : list Handler) : list Handler :=
  match hs with
  | [] => []
  | h :: rest =>
      if String.eqb (name h) n then set_enabled b h :: rest
      else h :: set_first_enabled n b rest
  end.

Definition enableHandler (n : string) (hs : list Handler) : Change bool :=
  match getHandler n hs with
  | Some _ =>
      let hs' := set_first_enabled n true hs in
      mkChange true hs' (Some hs')
  | None => mkChange false hs None
  end.

Definition disableHandler (n : string) (hs : list Handler) : Change bool :=
  match getHandler n hs with
  | Some _ =>
      let hs' := set_first_enabled n false hs in
      mkChange true hs' (Some hs')
  | None => mkChange false hs None
  end.

Definition getHandlersForHook (hookType : HookType) (hs : list Handler) : list Handler :=
  List.filter (fun h => enabled h && includes_hook hookType (hooks h)) hs.

End ConfigManager.

(** ** handlers/resolver.ts: HandlerResolver *)

Module HandlerResolver.

(** Determine if a handler should run based on configuration hierarchy. *)
Definition shouldRunHandler (h : Handler) (hookData : HookData) : M bool :=
  do s <- get_state;
  (* 1. Check session-level override (highest priority) *)
  let sessionOverride :=
    SessionStateManager.isHookEnabledForSession (sessions s) (session_id hookData) (name h) in
  match sessionOverride with
  | Some b =>
      logger LvDebug ("Session override for " +:+ name h +:+ ": " +:+ bool_text b) ;;
      ret b
  | None =>
      (* 2. Check project-level configuration *)
      let projectEnabled :=
        ProjectConfigManager.isHandlerEnabled (projectConfig s) (name h) (enabled h) in
      (* 3. Check if handler matches the hook type *)
      if negb (includes_hook (hook_event_name hookData) (hooks h)) then ret false
      else ret projectEnabled
  end.

(** The body of the [for (const handler of allHandlers)] loop, with the
    array [resolvedHandlers] threaded through. *)
Fixpoint resolve_loop (hookData : HookData) (allHandlers resolved : list Handler)
    : M (list Handler) :=
  match allHandlers with
  | [] => ret resolved
  | h :: rest =>
      do run <- shouldRunHandler h hookData;
      if run then
        do s <- get_state;
        match ProjectConfigManager.getHandlerOverrides (projectConfig s) (name h) with
        | Some overrides =>
            resolve_loop hookData rest (resolved ++ [merge_handler h overrides])
        | None =>
            resolve_loop hookData rest (resolved ++ [h])
        end
      else resolve_loop hookData rest resolved
  end.

(** Resolve which handlers should run for a given hook event. *)
Definition resolveHandlers (rt : Runtime) (hookData : HookData) : M (list Handler) :=
  do s <- get_state;
  let allHandlers := handlers s in
  (if negb (String.eqb (cwd hookData) "")
   then ProjectConfigManager.loadProjectConfig rt (cwd hookData) ;; ret tt
   else ret tt) ;;
  do resolvedHandlers <- resolve_loop hookData allHandlers [];
  logger LvDebug ("Resolved " +:+ pretty (length resolvedHandlers) +:+ " handlers for "
                  +:+ HookType_text (hook_event_name hookData)) ;;
  ret resolvedHandlers.

Definition enableHandlerForSession (rt : Runtime) (sid handlerName : string) : M bool :=
  do s <- get_state;
  match find (fun h => String.eqb (name h) handlerName) (handlers s) with
  | None => ret false
  | Some _ =>
      SessionStateManager.enableHookForSession rt sid handlerName ;;
      logger LvInfo ("Enabled handler " +:+ handlerName +:+ " for session " +:+ sid) ;;
      ret true
  end.

Definition disableHandlerForSession (rt : Runtime) (sid handlerName : string) : M bool :=
  do s <- get_state;
  match find (fun h => String.eqb (name h) handlerName) (handlers s) with
  | None => ret false
  | Some _ =>
      SessionStateManager.disableHookForSession rt sid handlerName ;;
      logger LvInfo ("Disabled handler " +:+ handlerName +:+ " for session " +:+ sid) ;;
      ret true
  end.

(** An element of the array returned by [getHandlerStatus]. *)
Record HandlerStatus : Type := mkStatus {
  st_name : string;
  st_globalEnabled : bool;
  st_projectEnabled : bool;
  st_sessionOverride : option bool;
  st_effectiveEnabled : bool
}.

(** Get current handler status for a session. *)
Definition getHandlerStatus (sid : string) : M (list HandlerStatus) :=
  do s <- get_state;
  ret (map (fun h =>
              let sessionOverride :=
                SessionStateManager.isHookEnabledForSession (sessions s) sid (name h) in
              let projectEnabled :=
                ProjectConfigManager.isHandlerEnabled (projectConfig s) (name h) (enabled h) in
              let effectiveEnabled :=
                match sessionOverride with
                | Some b => b
                | None => projectEnabled
                end in
              mkStatus (name h) (enabled h) projectEnabled sessionOverride effectiveEnabled)
           (handlers s)).

End HandlerResolver.

(** ** handlers/executor.ts: HandlerExecutor *)

Module HandlerExecutor.

(** [String(v)] *)
Fixpoint to_String (v : JSON) : string :=
  match v with
  | JNull => "null"
  | JBool b => bool_text b
  | JNum n => pretty n
  | JStr s => s
  | JArr items =>
      join "," (map (fun i => match i with JNull => "" | _ => to_String i end) items)
  | JObj _ => "[object Object]"
  end.

(** The value of a possibly undefined [||] chain ending in [''], read as
    the string that the field it is stored in declares: a string is itself,
    any other truthy value is its string conversion.  (The code stores the
    value as it is; [Full.executeFunctionHandler] does so too.) *)
Definition as_text (v : option JSON) : string :=
  match v with
  | Some w => if truthy w then to_String w else ""
  | None => ""
  end.

(** ['tool_name' in hookData && hookData.tool_name] *)
Definition carries_tool_name (hookData : HookData) : bool :=
  truthy_str (tool_name hookData).

(** [matchesFilter(matcher, hookData)]; the tests call it with an absent
    matcher too, hence the [option]. *)
Definition matchesFilter (rt : Runtime) (matcher : option string)
    (hookData : HookData) : M bool :=
  (* For tool-related hooks, match against tool name *)
  match tool_name hookData with
  | Some tool =>
      if negb (String.eqb tool "") then
        match matcher with
        | Some pattern =>
            (* Handle wildcard *)
            if String.eqb pattern "*" || String.eqb pattern "" then ret true
            else
              match new_RegExp rt pattern with
              | Some test => ret (test tool)
              | None =>
                  emit (EConsoleError ("Invalid matcher regex: " +:+ pattern)) ;;
                  ret true (* Default to running if regex is invalid *)
              end
        | None => ret true
        end
      else
        (* For non-tool hooks, matcher of "*" or empty matches all *)
        ret (negb (truthy_str matcher) || bool_decide (matcher = Some "*"))
  | None =>
      ret (negb (truthy_str matcher) || bool_decide (matcher = Some "*"))
  end.

(** The ['exit'] listener of [executeVelcroHandler] and of the shell branch
    of [executeScriptHandler]. *)
Definition onExit_plain (code : option Z) (stdout stderr_text : string)
    (result : HookExecutionResult) : HookExecutionResult :=
  let result := set_exitCode (Some (default 0 code)) result in
  let result := set_output (Some (trim stdout)) result in
  let result := set_stderr (Some (trim stderr_text)) result in
  if bool_decide (code = Some EXIT_CODE.SUCCESS) || bool_decide (code = None) then
    set_success true result
  else if bool_decide (code = Some EXIT_CODE.BLOCK) then
    set_success false (set_blockExecution (Some true) result)
  else
    set_success false result.

(** The handling of a ccguard-style response inside the ['exit'] listener of
    [executeCommandHandler] and [executeExternalHandler]. *)
Definition handle_ccguard (v : JSON) (result : HookExecutionResult)
    : HookExecutionResult :=
  if truthy v && typeof_object v then
    if prop_is_string v "decision" "block" then
      let result := set_blockExecution (Some true) result in
      let result := set_success false result in
      let reason := prop v "reason" in
      let result :=
        if negb (truthy_opt reason) && truthy_str (stderr result) then
          result (* Keep existing stderr if no reason in response *)
        else if truthy_str (stderr result)
                && negb (str_strict_eq (stderr result) reason) then
          result (* Keep stderr if it's different from reason *)
        else set_stderr (Some "") result (* Clear to avoid duplication *) in
      set_output (Some "") result
    else if prop_is_string v "decision" "approve" then
      let result := set_success true result in
      set_output (Some "") result
    else result
  else result.

(** The ['exit'] listener of [executeCommandHandler]; the listener of
    [executeExternalHandler] has the same text. *)
Definition onExit_json (rt : Runtime) (code : option Z) (stdout stderr_text : string)
    (result : HookExecutionResult) : HookExecutionResult :=
  let result := set_exitCode (Some (default 0 code)) result in
  let result := set_output (Some (trim stdout)) result in
  let result := set_stderr (Some (trim stderr_text)) result in
  (* Try to parse JSON response *)
  let result :=
    if truthy_str (output result)
       && starts_with_char "{"%char (default "" (output result)) then
      match JSON_parse rt (default "" (output result)) with
      | Some v => handle_ccguard v (set_response (Some v) result)
      | None => result (* Not JSON, treat as plain text *)
      end
    else result in
  (* Exit code handling (can override JSON response) *)
  if bool_decide (code = Some EXIT_CODE.BLOCK) then
    set_success false (set_blockExecution (Some true) result)
  else if negb (bool_decide (code = Some 0)) && negb (bool_decide (code = None)) then
    set_success false result
  else if negb (truthy_opt (response result)) then
    (* Only set success true if not already set by JSON response *)
    set_success true result
  else result.

(** The ['error'] listener, the same in every strategy. *)
Definition onError (message : string) (result : HookExecutionResult)
    : HookExecutionResult :=
  set_success false (set_error (Some message) result).

(** [spawn(...)], the listeners installed, the event written to standard
    input, and the promise awaited, for a child that takes the event and
    comes to its terminal event. *)
Definition spawn_and_wait (rt : Runtime) (request : SpawnRequest)
    (onExit : option Z -> string -> string -> HookExecutionResult -> HookExecutionResult)
    (result : HookExecutionResult) : M HookExecutionResult :=
  emit (ESpawn request) ;;
  match spawn rt request with
  | SpawnThrows e => throw e
  | Spawned child =>
      match child_event child with
      | ChildExit code =>
          ret (onExit code (child_stdout child) (child_stderr child) result)
      | ChildError message => ret (onError message result)
      end
  end.

Fixpoint has_dot (s : string) : bool :=
  match s with
  | String c rest => Ascii.eqb c "."%char || has_dot rest
  | EmptyString => false
  end.

(** [s.split('.').pop()] *)
Fixpoint last_segment (s : string) : string :=
  match s with
  | String c rest =>
      if has_dot rest then last_segment rest
      else if Ascii.eqb c "."%char then rest else s
  | EmptyString => EmptyString
  end.

Definition lower_char (c : ascii) : ascii :=
  let n := nat_of_ascii c in
  if ((65 <=? n) && (n <=? 90))%nat then ascii_of_nat (n + 32) else c.

(** [s.toLowerCase()], on the ASCII range *)
Fixpoint toLowerCase (s : string) : string :=
  match s with
  | String c rest => String (lower_char c) (toLowerCase rest)
  | EmptyString => EmptyString
  end.

Fixpoint startsWith (prefix s : string) : bool :=
  match prefix, s with
  | EmptyString, _ => true
  | String a p, String b t => Ascii.eqb a b && startsWith p t
  | String _ _, EmptyString => false
  end.

(** The package paths map built by [executeVelcroHandler]: handler-specific
    packages first, then the global packages not already present. *)
Definition build_packagePaths (rt : Runtime) (handlerName : string)
    : list (string * string) :=
  let add_handler paths pkg :=
    match pm_getPackagePath rt pkg ScopeHandler (Some handlerName) with
    | Some path => paths ++ [(pkg, path)]
    | None => paths
    end in
  let add_global paths pkg :=
    if truthy_str (snd <$> List.find (fun kv => String.eqb (fst kv) pkg) paths)
    then paths
    else match pm_getPackagePath rt pkg ScopeGlobal None with
         | Some path => paths ++ [(pkg, path)]
         | None => paths
         end in
  let paths := fold_left add_handler (pm_list rt ScopeHandler (Some handlerName)) [] in
  fold_left add_global (pm_list rt ScopeGlobal None) paths.

(** The [spawn] call of [executeVelcroHandler]: the runner, in an
    environment that carries the handler and its package paths. *)
Definition velcro_request (rt : Runtime) (h : Handler) (hookData : HookData)
    : SpawnRequest :=
  let packagePaths := build_packagePaths rt (name h) in
  let env :=
    [ ("HANDLER_NAME", name h);
      ("HANDLER_CODE", default "" (code h));
      ("PACKAGE_PATHS",
       JSON_stringify rt (JObj (map (fun kv => (fst kv, JStr (snd kv))) packagePaths))) ] in
  mkSpawn "node" [runnerPath rt] env hookData.

Definition executeVelcroHandler (rt : Runtime) (h : Handler) (hookData : HookData)
    (result : HookExecutionResult) : M HookExecutionResult :=
  if negb (truthy_str (code h)) then
    throw (new_Error ("Velcro handler " +:+ name h +:+ " has no code"))
  else
    (* Run handler in isolated process *)
    spawn_and_wait rt (velcro_request rt h hookData) onExit_plain result.

(** The [spawn] call of [executeCommandHandler]: a shell running the
    command, with the Claude-compatible environment variable added. *)
Definition command_request (rt : Runtime) (h : Handler) (hookData : HookData)
    : SpawnRequest :=
  let env := [ ("CLAUDE_PROJECT_DIR", process_cwd rt) ] in
  mkSpawn "sh" ["-c"; default "" (command h)] env hookData.

Definition executeCommandHandler (rt : Runtime) (h : Handler) (hookData : HookData)
    (result : HookExecutionResult) : M HookExecutionResult :=
  if negb (truthy_str (command h)) then
    throw (new_Error ("Command handler " +:+ name h +:+ " has no command"))
  else
    spawn_and_wait rt (command_request rt h hookData) (onExit_json rt) result.

Definition executeScriptHandler (rt : Runtime) (h : Handler) (hookData : HookData)
    (result : HookExecutionResult) : M HookExecutionResult :=
  if negb (truthy_str (script h)) then
    throw (new_Error ("Script handler " +:+ name h +:+ " has no script path"))
  else
    let path := default "" (script h) in
    (* Read script content *)
    emit (EReadFile path) ;;
    match readFile rt path with
    | inl e => throw e
    | inr scriptContent =>
        (* Determine script type from extension or shebang *)
        let ext := toLowerCase (last_segment path) in
        if String.eqb ext "js" || String.eqb ext "mjs"
           || startsWith "#!/usr/bin/env node" scriptContent then
          (* Execute as JavaScript *)
          emit (EEvalCode scriptContent) ;;
          match eval_async rt scriptContent hookData with
          | inl e => throw e
          | inr (inr value) =>
              let result := set_success true result in
              ret (set_output (Some (if truthy_opt value
                                     then to_String (default JNull value) else ""))
                              result)
          | inr (inl err) =>
              let result := set_success false result in
              ret (set_error (Some (thrown_text err)) result)
          end
        else
          (* Execute as shell script *)
          let env := [ ("CLAUDE_PROJECT_DIR", process_cwd rt) ] in
          spawn_and_wait rt (mkSpawn path [] env hookData) onExit_plain result
    end.

(** The text handed to [new AsyncFunction] by [executeFunctionHandler]. *)
Definition function_wrapper (code_text : string) : string :=
  "const handler = async (hookData) => { " +:+ code_text
  +:+ " }; return await handler(hookData);".

Definition executeFunctionHandler (rt : Runtime) (h : Handler) (hookData : HookData)
    (result : HookExecutionResult) : M HookExecutionResult :=
  if negb (truthy_str (code h)) then
    throw (new_Error ("Function handler " +:+ name h +:+ " has no code"))
  else
    let text := function_wrapper (default "" (code h)) in
    emit (EEvalCode text) ;;
    match eval_async rt text hookData with
    | inr (inr functionResult) =>
        let result := set_response functionResult result in
        let result := set_success true result in
        (* Handle the result based on CC's hook API *)
        match functionResult with
        | Some v =>
            if truthy v && typeof_object v then
              let text_of := as_text (or_else (prop v "message") (prop v "reason")) in
              (* Check for blocking response *)
              let result :=
                if prop_is_string v "status" "blocked" || prop_is_true v "blocked" then
                  set_stderr (Some text_of)
                    (set_success false (set_blockExecution (Some true) result))
                else result in
              (* Check for error response *)
              let result :=
                if prop_is_string v "status" "error" || prop_is_true v "error" then
                  set_error (Some text_of) (set_success false result)
                else result in
              (* Capture any output *)
              let result :=
                if truthy_opt (prop v "message") || truthy_opt (prop v "output") then
                  set_output (Some (as_text (or_else (prop v "message") (prop v "output"))))
                             result
                else result in
              ret result
            else ret result
        | None => ret result
        end
    | inr (inl err) | inl err =>
        ret (set_success false (set_error (Some (thrown_text err)) result))
    end.

(** The [spawn] call of [executeExternalHandler]: the executable with the
    handler's arguments; CC-compatible variables first, the handler-specific
    variables assigned last. *)
Definition external_request (rt : Runtime) (h : Handler) (hookData : HookData)
    : SpawnRequest :=
  let env :=
    [ ("CLAUDE_PROJECT_DIR", process_cwd rt);
      ("CLAUDE_SESSION_ID", session_id hookData);
      ("CLAUDE_TRANSCRIPT_PATH", transcript_path hookData);
      ("CLAUDE_CWD", if String.eqb (cwd hookData) "" then process_cwd rt
                     else cwd hookData);
      ("HOOK_EVENT_NAME", HookType_text (hook_event_name hookData)) ]
    ++ default [] (env h) in
  mkSpawn (default "" (command h)) (default [] (args h)) env hookData.

Definition executeExternalHandler (rt : Runtime) (h : Handler) (hookData : HookData)
    (result : HookExecutionResult) : M HookExecutionResult :=
  if negb (truthy_str (command h)) then
    throw (new_Error ("External handler " +:+ name h +:+ " has no command"))
  else
    spawn_and_wait rt (external_request rt h hookData) (onExit_json rt) result.

(** The object [result] as [execute] creates it. *)
Definition initial_result (h : Handler) : HookExecutionResult :=
  mkResult (name h) false None None None None None None 0.

(** The [catch] block of [execute]. *)
Definition execute_catch (h : Handler) (result : HookExecutionResult) (err : Thrown)
    : M HookExecutionResult :=
  let result := set_error (Some (thrown_text err)) result in
  let result := set_success false result in
  logger LvError ("Handler " +:+ name h +:+ " execution failed") ;;
  (* Preserve blockExecution flag *)
  if thrown_is_Error err && thrown_has_blockExecution err then
    let result := set_blockExecution (Some true) result in
    ret (set_stderr (Some (if truthy_str (thrown_stderr err)
                           then default "" (thrown_stderr err)
                           else thrown_text err)) result)
  else ret result.

(** The [try] block of [execute].  Every strategy returns the object
    [result] it was given; the paths that throw do so before writing to it. *)
Definition execute_try (rt : Runtime) (h : Handler) (hookData : HookData)
    (result : HookExecutionResult) : M HookExecutionResult :=
  (* Check if handler should run based on matcher *)
  do skip <-
    (if truthy_str (matcher h)
     then do m <- matchesFilter rt (matcher h) hookData; ret (negb m)
     else ret false);
  if (skip : bool) then
    logger LvDebug ("Handler " +:+ name h +:+ " skipped due to matcher") ;;
    ret (set_success true result)
  else
    logger LvDebug ("Executing " +:+ HandlerType_text (type h) +:+ " handler: " +:+ name h) ;;
    match type h with
    | TVelcro => executeVelcroHandler rt h hookData result
    | TCommand => executeCommandHandler rt h hookData result
    | TScript => executeScriptHandler rt h hookData result
    | TFunction => executeFunctionHandler rt h hookData result
    | TExternal => executeExternalHandler rt h hookData result
    | TOther t => throw (new_Error ("Unknown handler type: " +:+ t))
    end.

(** The [finally] block of [execute]: it writes [duration] into the object
    being returned and records the execution. *)
Definition execute_finally (rt : Runtime) (h : Handler) (startTime : Z)
    (result : HookExecutionResult) : M HookExecutionResult :=
  do endTime <- Date_now rt;
  let result := set_duration (endTime - startTime) result in
  (* Record execution stats *)
  StatsManager.recordExecution rt (name h) (duration result) (success result)
                               (error result) ;;
  ret result.

(** [execute(handler, hookData)].  While the log can be written the
    [catch] block does not throw, so the [finally] block always follows a
    normal completion of [try] or [catch], both of which return the object
    [result]. *)
Definition execute (rt : Runtime) (h : Handler) (hookData : HookData)
    : M HookExecutionResult :=
  do startTime <- Date_now rt;
  let result := initial_result h in
  do result <- try_catch (execute_try rt h hookData result) (execute_catch h result);
  execute_finally rt h startTime result.

End HandlerExecutor.

(** ** handlers/velcro-runner.ts: the isolated runner

    The program that [executeVelcroHandler] spawns, followed from its
    start to the call of the real [process.exit]. *)

Module VelcroRunner.

(** [process.env[k]] in the child: the variables the parent added. *)
Definition getenv (k : string) (env : list (string * string)) : option string :=
  snd <$> List.find (fun kv => String.eqb (fst kv) k) (rev env).

(** The real [process.exit(status)], as the parent observes it: an ['exit']
    event whose code is the low eight bits of the status. *)
Definition process_exit (status : Z) : ChildEvent :=
  ChildExit (Some (status mod 256)).

(** [wrappedProcess.exit(code)]: instead of exiting the process, throw an
    error with the exit code. *)
Definition wrappedProcess_exit (code : option Z) : Thrown :=
  mkThrown true
    ("Handler exited with code "
     +:+ match code with Some n => pretty n | None => "undefined" end)
    code false None.

(** What reaches the [catch] block of the ['end'] listener, if anything. *)
Definition caught (ending : Thrown + Completion) : option Thrown :=
  match ending with
  | inl e => Some e
  | inr (Returned _) => None
  | inr (CalledExit status) => Some (wrappedProcess_exit status)
  | inr (Threw e) => Some e
  end.

(** [process.env.HANDLER_CODE || ''] *)
Definition handlerCode (env : list (string * string)) : string :=
  if truthy_str (getenv "HANDLER_CODE" env)
  then default "" (getenv "HANDLER_CODE" env) else "".

(** [process.env.PACKAGE_PATHS || '{}'] *)
Definition packagePathsText (env : list (string * string)) : string :=
  if truthy_str (getenv "PACKAGE_PATHS" env)
  then default "" (getenv "PACKAGE_PATHS" env) else "{}".

(** The [catch] block of the ['end'] listener, given what the handler code
    printed. *)
Definition on_caught (r : IsolatedRun) (error : Thrown) : ChildOutcome :=
  (* Check if this is an exit call *)
  match thrown_is_Error error, thrown_exitCode error with
  | true, Some exitCode =>
      mkChild (iso_stdout r) (iso_stderr r)
              (process_exit (if Z.eqb exitCode 0 then EXIT_CODE.ERROR else exitCode))
  | _, _ =>
      (* Other errors *)
      mkChild (iso_stdout r)
              (iso_stderr r +:+ "Handler error: " +:+ thrown_text error +:+ newline)
              (process_exit EXIT_CODE.ERROR)
  end.

Definition run (rt : Runtime) (request : SpawnRequest) : ChildOutcome :=
  let env := sp_env request in
  match JSON_parse rt (packagePathsText env) with
  | None =>
      (* uncaught exception while the module loads *)
      mkChild "" "Uncaught SyntaxError" (process_exit 1)
  | Some packagePaths =>
      (* stdin 'end': the event the parent wrote is parsed back *)
      let hookData := sp_stdin request in
      let r := eval_isolated rt (handlerCode env) packagePaths hookData in
      match caught (iso_end r) with
      | None =>
          (* Success *)
          mkChild (iso_stdout r) (iso_stderr r) (process_exit EXIT_CODE.SUCCESS)
      | Some error => on_caught r error
      end
  end.

End VelcroRunner.

(** ** server/http-server.ts: the /hooks endpoint *)

Module HttpServer.

(** An element of the array returned by [Promise.allSettled]. *)
Inductive PromiseSettledResult : Type :=
| Fulfilled (value : HookExecutionResult)
| Rejected (reason : Thrown).

(** The variables of the result-processing loop. *)
Record Tracking : Type := mkTracking {
  results : list HookExecutionResult;
  blocked : bool;
  blockingResult : option HookExecutionResult
}.

(** [handlers.map(handler => handlerExecutor.execute(handler, hookData))]
    awaited with [Promise.allSettled]: every execution is started and
    followed to its settlement, a rejection being kept as an element of the
    array.  The executions are laid out here one after the other, in
    resolution order. *)
Fixpoint dispatch (rt : Runtime) (hookData : HookData) (hs : list Handler)
    : M (list PromiseSettledResult) :=
  match hs with
  | [] => ret []
  | h :: rest =>
      do settled <-
        try_catch (do r <- HandlerExecutor.execute rt h hookData; ret (Fulfilled r))
                  (fun e => ret (Rejected e));
      do others <- dispatch rt hookData rest;
      ret (settled :: others)
  end.

(** One iteration of [for (let i = 0; i < executionResults.length; i++)],
    on [handlers[i]] and [executionResults[i]]. *)
Definition process_one (h : Handler) (promiseResult : PromiseSettledResult)
    (t : Tracking) : M Tracking :=
  match promiseResult with
  | Fulfilled result =>
      let t := mkTracking (results t ++ [result]) (blocked t) (blockingResult t) in
      (* Log successful output *)
      (if success result && truthy_str (output result)
       then logger LvInfo ("Handler output from " +:+ name h)
       else ret tt) ;;
      (* Check for blocking *)
      if blocks result then
        let t := mkTracking (results t) true (Some result) in
        (if truthy_str (stderr result)
         then logger LvWarn ("Handler " +:+ name h +:+ " blocked execution")
         else ret tt) ;;
        ret t
      else if negb (success result) && truthy_str (stderr result) then
        (* Log non-blocking errors *)
        logger LvError ("Handler " +:+ name h +:+ " failed") ;;
        ret t
      else ret t
  | Rejected error =>
      (* Promise rejected - handler threw an exception *)
      logger LvError ("Handler " +:+ name h +:+ " execution failed") ;;
      let entry :=
        mkResult (name h) false None None None None None
                 (if thrown_is_Error error then Some (thrown_text error) else None) 0 in
      ret (mkTracking (results t ++ [entry]) (blocked t) (blockingResult t))
  end.

(** The loop over the settled executions, paired with their handlers. *)
Fixpoint process_results (entries : list (Handler * PromiseSettledResult))
    (t : Tracking) : M Tracking :=
  match entries with
  | [] => ret t
  | (h, promiseResult) :: rest =>
      do t' <- process_one h promiseResult t;
      process_results rest t'
  end.

Record HookResponse : Type := mkResponse {
  r_success : bool;
  r_handlers : nat;
  r_blocked : option bool;
  r_blockingHandler : option string;
  r_decision : option JSON;
  r_reason : option JSON;
  r_blockingMessage : option string;
  r_output : option string;
  r_responses : option (list JSON)
}.

(** [value || 'Operation blocked'] *)
Definition or_operation_blocked (s : option string) : string :=
  if truthy_str s then default "" s else "Operation blocked".

(** [r.response && typeof r.response === 'object'] *)
Definition has_object_response (r : HookExecutionResult) : bool :=
  match response r with
  | Some v => truthy v && typeof_object v
  | None => false
  end.

(** The response object built after the loop. *)
Definition build_response (t : Tracking) : HookResponse :=
  let successfulOutputs :=
    map (fun r => trim (default "" (output r)))
        (List.filter (fun r => success r && truthy_str (output r)
                          && negb (String.eqb (trim (default "" (output r))) ""))
                (results t)) in
  let r_out := if (0 <? length successfulOutputs)%nat
               then Some (join (newline +:+ newline) successfulOutputs) else None in
  let jsonResponses :=
    omap response (List.filter has_object_response (results t)) in
  let r_resp := if (0 <? length jsonResponses)%nat then Some jsonResponses else None in
  match blocked t, blockingResult t with
  | true, Some blocking =>
      if has_object_response blocking then
        let v := default JNull (response blocking) in
        (* Don't duplicate the reason in blockingMessage *)
        let message :=
          if negb (truthy_opt (prop v "reason"))
             || negb (str_strict_eq (stderr blocking) (prop v "reason"))
          then Some (or_operation_blocked (stderr blocking)) else None in
        mkResponse (negb (blocked t)) (length (results t)) (Some true)
                   (Some (handler blocking)) (prop v "decision") (prop v "reason")
                   message r_out r_resp
      else
        (* Non-JSON blocking response *)
        mkResponse (negb (blocked t)) (length (results t)) (Some true)
                   (Some (handler blocking)) None None
                   (Some (or_operation_blocked (stderr blocking))) r_out r_resp
  | _, _ =>
      mkResponse (negb (blocked t)) (length (results t)) None None None None None
                 r_out r_resp
  end.

Inductive HttpReply : Type :=
| Status200 (body : HookResponse)
| Status500.

(** The handler of [POST /hooks], on results whose [output] is a string. *)
Definition post_hooks (rt : Runtime) (hookData : HookData) : M HttpReply :=
  try_catch
    (emit (ELogHook hookData) ;;
     logger LvInfo ("Processing " +:+ HookType_text (hook_event_name hookData) +:+ " hook") ;;
     (* Execute handlers for this hook using resolver *)
     do handlers <- HandlerResolver.resolveHandlers rt hookData;
     logger LvDebug ("Found " +:+ pretty (length handlers) +:+ " handlers for "
                     +:+ HookType_text (hook_event_name hookData)) ;;
     (* Execute handlers in parallel (like Claude Code does) *)
     do executionResults <- dispatch rt hookData handlers;
     (* Process results *)
     do t <- process_results (combine handlers executionResults)
                             (mkTracking [] false None);
     ret (Status200 (build_response t)))
    (fun error =>
       logger LvError "Hook processing error" ;;
       ret Status500).

End HttpServer.

(** ** logging/logger.ts: the execution log *)

Module Logger.

(** The [summary] of a [HookExecutionLogEntry]. *)
Record Summary : Type := mkSummary {
  total_handlers : nat;
  successful : nat;
  failed : nat;
  sum_blocked : bool;
  blocking_handler : option string
}.

Record HookExecutionLogEntry : Type := mkLogEntry {
  le_timestamp : Z;
  le_hook_event_name : HookType;
  le_session_id : string;
  le_execution_results : list HookExecutionResult;
  le_summary : Summary
}.

(** [logHookExecution(hookData, results)]; the value returned here is the
    entry that the function appends to the hook-executions log. *)
Definition logHookExecution (rt : Runtime) (hookData : HookData)
    (results : list HookExecutionResult) : M HookExecutionLogEntry :=
  let successful := length (List.filter success results) in
  let failed := length (List.filter (fun r => negb (success r)) results) in
  let blocked := existsb blocks results in
  let blockingHandler := handler <$> List.find blocks results in
  do now <- Date_now rt;
  let entry :=
    mkLogEntry now (hook_event_name hookData) (session_id hookData) results
               (mkSummary (length results) successful failed blocked blockingHandler) in
  logger LvDebug ("Hook execution logged: " +:+ HookType_text (hook_event_name hookData)) ;;
  ret entry.

End Logger.

(** ** cli/commands/handler.ts: the command that submits a hook *)

Module HandlerCommand.

Record Options : Type := mkOptions {
  opt_server : string;
  opt_timeout : string;
  opt_async : bool;
  opt_debug : bool
}.

(** [await response.json()]: it rejects when the body is not JSON, it
    resolves to the parsed body, or it stays pending when the body never
    arrives (the timeout is cleared as soon as [fetch] has resolved). *)
Inductive Body : Type :=
| BodyThrows (e : Thrown)
| BodyValue (v : JSON)
| BodyNeverArrives.

(** [await fetch(...)]: it rejects (network failure, or the abort of the
    timeout), or it resolves to a response with its [ok] flag, its status
    and its body. *)
Inductive FetchOutcome : Type :=
| FetchRejects (e : Thrown)
| FetchResolves (ok : bool) (status : Z) (body : Body).

(** The surroundings of the command. *)
Record Client : Type := mkClient {
  (** [JSON.parse(inputData)]; [None] when it throws.  The value is used as
      hook data whatever it is. *)
  parse_hook_data : string -> option JSON;
  (** [logger.logHook(hookData)]: the exception of [appendFileSync] when
      the hook log cannot be written *)
  logHook_fault : JSON -> option Thrown;
  (** the POST of [JSON.stringify(hookData)] to [server + "/hooks"] *)
  fetch_hooks : string -> JSON -> FetchOutcome;
  (** [logger.getLogDirectory()] *)
  log_directory : string
}.

(** A run of the command: the values it wrote with [console.log] and with
    [console.error], the hook it logged, and the status it exits with
    ([None] when it never exits). *)
Record Run : Type := mkRun {
  printed : list JSON;
  complained : list JSON;
  logged : option JSON;
  exit_status : option Z
}.

(** [`${v}`] for a possibly undefined value *)
Definition template (v : option JSON) : string :=
  match v with
  | Some w => HandlerExecutor.to_String w
  | None => "undefined"
  end.

(** The blocking message built from the answer; it is a string unless the
    first truthy part of it is [blockingMessage] or [reason] itself. *)
Definition blocking_message (results : JSON) : JSON :=
  let blockingMsg := JStr "" in
  let blockingMsg :=
    if truthy_opt (prop results "blockingHandler")
    then JStr ("Handler " +:+ template (prop results "blockingHandler")
               +:+ " blocked execution")
    else blockingMsg in
  let blockingMsg :=
    if truthy_opt (prop results "blockingMessage")
    then (if truthy blockingMsg
          then JStr (template (Some blockingMsg) +:+ newline
                     +:+ template (prop results "blockingMessage"))
          else default JNull (prop results "blockingMessage"))
    else blockingMsg in
  if truthy_opt (prop results "reason")
  then (if truthy blockingMsg
        then JStr (template (Some blockingMsg) +:+ newline
                   +:+ template (prop results "reason"))
        else default JNull (prop results "reason"))
  else blockingMsg.

(** The [catch] block of the inner [try]: the command goes on to
    [process.exit(0)]. *)
Definition send_failed (options : Options) (err : list JSON) (hookData : JSON)
    (e : Thrown) : Run :=
  let err :=
    if opt_debug options
    then err ++ [JStr ("[Velcro] Failed to send to server: " +:+ thrown_text e)]
    else err in
  mkRun [] err (Some hookData) (Some 0).

(** The [catch] block of the outer [try]. *)
Definition processing_failed (logged : option JSON) : Run :=
  mkRun [] [JStr "Error processing hook:"] logged (Some 1).

(** The lines that [--debug] writes once the hook is logged; reading
    [hookData.hook_event_name] throws when the hook data is [null]. *)
Definition debug_lines (c : Client) (hookData : JSON) : option (list JSON) :=
  match hookData with
  | JNull => None
  | _ =>
      Some [ JStr ("[Velcro] " +:+ template (prop hookData "hook_event_name")
                   +:+ " hook logged");
             JStr ("[Velcro] Log directory: " +:+ log_directory c) ]
  end.

(** The command from the request on: the inner [try], and
    [process.exit(0)] after it.  [err] is what has been written with
    [console.error] so far. *)
Definition send (c : Client) (options : Options) (err : list JSON) (hookData : JSON)
    : Run :=
  (* Try to send to server if configured *)
  if negb (String.eqb (opt_server options) "disabled") then
    match fetch_hooks c (opt_server options) hookData with
    | FetchRejects e => send_failed options err hookData e
    | FetchResolves ok status body =>
        let err :=
          if negb ok && opt_debug options
          then err ++ [JStr ("[Velcro] Server returned " +:+ pretty status)]
          else err in
        if negb (opt_async options) && ok then
          match body with
          | BodyThrows e => send_failed options err hookData e
          | BodyNeverArrives => mkRun [] err (Some hookData) None
          | BodyValue JNull =>
              (* results.output throws *)
              send_failed options err hookData
                (new_Error "Cannot read properties of null (reading 'output')")
          | BodyValue results =>
              (* Output any successful handler outputs to stdout *)
              let out :=
                if truthy_opt (prop results "output")
                then [default JNull (prop results "output")] else [] in
              (* If any handler blocked, exit with code 2 *)
              if truthy_opt (prop results "blocked") then
                let blockingMsg := blocking_message results in
                let err :=
                  if truthy blockingMsg then err ++ [blockingMsg] else err in
                mkRun out err (Some hookData) (Some 2)
              else mkRun out err (Some hookData) (Some 0)
          end
        else mkRun [] err (Some hookData) (Some 0)
    end
  else mkRun [] err (Some hookData) (Some 0).

(** The action of the command on the text read from standard input. *)
Definition action (c : Client) (options : Options) (inputData : string) : Run :=
  if String.eqb (trim inputData) "" then
    mkRun [] [JStr "No hook data received from stdin"] None (Some 1)
  else
    match parse_hook_data c inputData with
    | None => mkRun [] [JStr "Failed to parse hook data as JSON:"] None (Some 1)
    | Some hookData =>
        (* Log the hook data *)
        match logHook_fault c hookData with
        | Some e => processing_failed None
        | None =>
            if opt_debug options then
              match debug_lines c hookData with
              | None => processing_failed (Some hookData)
              | Some err => send c options err hookData
              end
            else send c options [] hookData
        end
    end.

(** [JSON.stringify] of hook data, parsed again: the value that the
    command reads from a well-formed event, and that the endpoint reads as
    [req.body].  ([payload] holds the fields of the event other than the
    five named ones.) *)
Definition HookData_json (hookData : HookData) : JSON :=
  JObj ([ ("session_id", JStr (session_id hookData));
          ("transcript_path", JStr (transcript_path hookData));
          ("cwd", JStr (cwd hookData));
          ("hook_event_name", JStr (HookType_text (hook_event_name hookData))) ]
        ++ match tool_name hookData with
           | Some tool => [("tool_name", JStr tool)]
           | None => []
           end
        ++ payload hookData).

End HandlerCommand.

(** ** cli/commands/execute.ts: the command that executes one handler *)

Module ExecuteCommand.

(** The options of the command; [opt_stats] is false under [--no-stats]. *)
Record Options : Type := mkOptions {
  opt_event : option string;
  opt_timeout : option string;
  opt_stats : bool
}.

(** The surroundings of the command. *)
Record Shell : Type := mkShell {
  (** [JSON.parse(text)] read as hook data; [inl] when it throws *)
  parse_event : string -> Thrown + HookData;
  (** [JSON.parse(readFileSync(path, 'utf-8'))]; [inl] when either throws *)
  read_event_file : string -> Thrown + HookData;
  (** [JSON.stringify(eventData, null, 2)] *)
  show_event : HookData -> string
}.

(** A run of the command: what it wrote with [console.log], what it wrote
    with [console.warn] and [console.error], and the status the process
    ends with. *)
Record Run : Type := mkRun {
  printed : list string;
  complained : list string;
  exit_status : Z
}.

(** [s.slice(1)] *)
Definition slice_1 (s : string) : string :=
  match s with
  | String _ rest => rest
  | EmptyString => EmptyString
  end.

(** The default event for manual execution. *)
Definition default_event (rt : Runtime) : HookData :=
  mkHookData "manual-execution" "/tmp/manual-execution.log" (process_cwd rt)
             PreToolUse (Some "manual-execution")
             [("tool_input", JObj [("manual", JBool true)])].

(** Parse event data. *)
Definition event_data (rt : Runtime) (sh : Shell) (options : Options)
    : Thrown + HookData :=
  if truthy_str (opt_event options) then
    let event := default "" (opt_event options) in
    if starts_with_char "@"%char event then read_event_file sh (slice_1 event)
    else parse_event sh event
  else inr (default_event rt).

(** The lines that announce the execution. *)
Definition announcement (sh : Shell) (handlerName : string) (eventData : HookData)
    : list string :=
  [ "Executing handler '" +:+ handlerName +:+ "'";
    "Event data:";
    show_event sh eventData;
    newline +:+ "--- Handler Output ---" +:+ newline ].

Definition action (rt : Runtime) (sh : Shell) (handlerName : string)
    (options : Options) : M Run :=
  do s <- get_state;
  match ConfigManager.getHandler handlerName (handlers s) with
  | None => ret (mkRun [] ["Handler '" +:+ handlerName +:+ "' not found"] 1)
  | Some handler =>
      let warned :=
        if negb (enabled handler)
        then ["Warning: Handler '" +:+ handlerName +:+ "' is disabled"] else [] in
      match event_data rt sh options with
      | inl error => ret (mkRun [] (warned ++ ["Error: " +:+ thrown_text error]) 1)
      | inr eventData =>
          (* Show what we're executing *)
          let out := announcement sh handlerName eventData in
          (* Execute the handler *)
          do startTime <- Date_now rt;
          try_catch
            (HandlerExecutor.execute rt handler eventData ;;
             do now <- Date_now rt;
             ret (mkRun (out ++ [ newline +:+ "--- Execution Complete ---";
                                  "Duration: " +:+ pretty (now - startTime) +:+ "ms";
                                  "Status: Success" ])
                        warned 0))
            (fun error =>
               do now <- Date_now rt;
               let err :=
                 warned ++ [ newline +:+ "--- Execution Failed ---";
                             "Duration: " +:+ pretty (now - startTime) +:+ "ms";
                             "Error: " +:+ thrown_text error ] in
               let err :=
                 match thrown_is_Error error, thrown_stderr error with
                 | true, Some text => err ++ [newline +:+ "Stderr output:"; text]
                 | _, _ => err
                 end in
               let err :=
                 if thrown_is_Error error && thrown_has_blockExecution error
                 then err ++ [newline +:+ "This error would block tool execution in Claude Code."]
                 else err in
               ret (mkRun out err 1))
      end
  end.

End ExecuteCommand.

(** ** config/claude-import.ts: ClaudeHandlerImporter *)

Module ClaudeHandlerImporter.

(** types/claude-handlers.ts: [ClaudeHook], [ClaudeHandlerEntry] and
    [ClaudeHandlerConfig].  The configuration is an object keyed by hook
    type; it is kept as the list of its entries in insertion order, which
    is the order in which [Object.entries] enumerates them. *)
Inductive ClaudeHookType : Type := CCommand | CScript.

#[global] Instance ClaudeHookType_eq_dec : EqDecision ClaudeHookType.
Proof. solve_decision. Defined.

Record ClaudeHook : Type := mkClaudeHook {
  ch_type : ClaudeHookType;
  ch_command : option string;
  ch_script : option string;
  ch_enabled : option bool
}.

Record ClaudeHandlerEntry : Type := mkEntry {
  ce_matcher : option string;
  ce_hooks : list ClaudeHook
}.

Definition ClaudeHandlerConfig : Type := list (HookType * list ClaudeHandlerEntry).

(** [h.type === 'command' && h.command === 'velcro hook'] *)
Definition is_velcro_hook (h : ClaudeHook) : bool :=
  bool_decide (ch_type h = CCommand) && bool_decide (ch_command h = Some "velcro hook").

(** [entry.hooks.filter(h => h.type === 'command' && h.command !== 'velcro hook')] *)
Definition nonVelcroHooks (entry : ClaudeHandlerEntry) : list ClaudeHook :=
  List.filter (fun h => bool_decide (ch_type h = CCommand)
                        && negb (bool_decide (ch_command h = Some "velcro hook")))
              (ce_hooks entry).

(** [hook.enabled !== false] *)
Definition unless_false (e : option bool) : bool :=
  match e with
  | Some false => false
  | _ => true
  end.

(** The body of [for (const hook of nonVelcroHooks)], with the array
    [handlers] and the counter [handlerIndex] threaded through. *)
Definition convert_hook (hookType : HookType) (entry : ClaudeHandlerEntry)
    (acc : list Handler * nat) (hook : ClaudeHook) : list Handler * nat :=
  let (handlers, handlerIndex) := acc in
  if bool_decide (ch_type hook = CCommand) && truthy_str (ch_command hook) then
    let handlerIndex := S handlerIndex in
    (handlers ++ [mkHandler ("claude-import-" +:+ pretty handlerIndex)
                            (unless_false (ch_enabled hook)) [hookType] TCommand
                            None (ch_command hook) None None None []
                            (ce_matcher entry) SrcClaude true],
     handlerIndex)
  else if bool_decide (ch_type hook = CScript) && truthy_str (ch_script hook) then
    let handlerIndex := S handlerIndex in
    (handlers ++ [mkHandler ("claude-script-" +:+ pretty handlerIndex)
                            (unless_false (ch_enabled hook)) [hookType] TScript
                            None None (ch_script hook) None None []
                            (ce_matcher entry) SrcClaude true],
     handlerIndex)
  else acc.

(** The body of [for (const entry of entries)]. *)
Definition convert_entry (hookType : HookType) (acc : list Handler * nat)
    (entry : ClaudeHandlerEntry) : list Handler * nat :=
  (* Skip entries that only have velcro hooks *)
  if (length (nonVelcroHooks entry) =? 0)%nat then acc
  else fold_left (convert_hook hookType entry) (nonVelcroHooks entry) acc.

(** Convert Claude handler format to Velcro format. *)
Definition convertClaudeHandlers (claudeHooks : ClaudeHandlerConfig) : list Handler :=
  fst (fold_left (fun acc kv => fold_left (convert_entry (fst kv)) (snd kv) acc)
                 claudeHooks ([], O)).

(** [claudeConfig[hookType]] *)
Definition entries_of (hookType : HookType) (config : ClaudeHandlerConfig)
    : option (list ClaudeHandlerEntry) :=
  snd <$> List.find (fun kv => bool_decide (fst kv = hookType)) config.

(** [if (!claudeConfig[hookType]) claudeConfig[hookType] = [];] followed by
    [claudeConfig[hookType].push(entry)]: a new key goes last. *)
Fixpoint push_entry (hookType : HookType) (entry : ClaudeHandlerEntry)
    (config : ClaudeHandlerConfig) : ClaudeHandlerConfig :=
  match config with
  | [] => [(hookType, [entry])]
  | (k, entries) :: rest =>
      if bool_decide (k = hookType) then (k, entries ++ [entry]) :: rest
      else (k, entries) :: push_entry hookType entry rest
  end.

Definition dquote_text : string := String (ascii_of_nat 34) EmptyString.

(** The hooks of the entry that [exportToClaudeFormat] builds for a handler. *)
Definition export_hooks (h : Handler) : list ClaudeHook :=
  match type h with
  | TCommand =>
      if truthy_str (command h)
      then [mkClaudeHook CCommand (command h) None (Some (enabled h))] else []
  | TScript =>
      if truthy_str (script h)
      then [mkClaudeHook CScript None (script h) (Some (enabled h))] else []
  | TVelcro =>
      (* Velcro handlers can't be directly exported to Claude format:
         a command that calls velcro with the handler name *)
      [mkClaudeHook CCommand
                    (Some ("velcro run-handler " +:+ dquote_text +:+ name h +:+ dquote_text))
                    None (Some (enabled h))]
  | _ => []
  end.

Definition export_entry (h : Handler) : ClaudeHandlerEntry :=
  mkEntry (Some (if truthy_str (matcher h) then default "" (matcher h) else ".*"))
          (export_hooks h).

(** The body of [for (const handler of handlers)]. *)
Definition export_handler (config : ClaudeHandlerConfig) (h : Handler)
    : ClaudeHandlerConfig :=
  (* Skip disabled handlers *)
  if negb (enabled h) then config
  else fold_left (fun c hookType => push_entry hookType (export_entry h) c)
                 (hooks h) config.

Definition hookTypes : list HookType :=
  [PreToolUse; PostToolUse; UserPromptSubmit; Stop; SubagentStop; Notification;
   PreCompact].

Definition hasVelcroHook (entries : list ClaudeHandlerEntry) : bool :=
  existsb (fun entry => existsb is_velcro_hook (ce_hooks entry)) entries.

Definition velcro_entry : ClaudeHandlerEntry :=
  mkEntry None [mkClaudeHook CCommand (Some "velcro hook") None None].

(** Add velcro hook to a type if not already present. *)
Fixpoint ensure_velcro_hook (hookType : HookType) (config : ClaudeHandlerConfig)
    : ClaudeHandlerConfig :=
  match config with
  | [] => [(hookType, [velcro_entry])]
  | (k, entries) :: rest =>
      if bool_decide (k = hookType)
      then (k, if hasVelcroHook entries then entries else velcro_entry :: entries) :: rest
      else (k, entries) :: ensure_velcro_hook hookType rest
  end.

(** Export Velcro handlers to Claude Code format. *)
Definition exportToClaudeFormat (handlers : list Handler) : ClaudeHandlerConfig :=
  fold_left (fun c hookType => ensure_velcro_hook hookType c) hookTypes
            (fold_left export_handler handlers []).

End ClaudeHandlerImporter.

(** ** The dispatcher in surroundings that fail

    The modules above describe the dispatcher while its log files and its
    statistics file can be written, while every child process takes the
    event and comes to an end, while handler code evaluated in the
    dispatcher's own process comes back, while the search for the project
    configuration ends, and while a function handler returns strings where
    [HookExecutionResult] declares strings.  The code checks none of this.
    The module [Full] has [execute], the resolver and the /hooks endpoint
    without these assumptions: [Faults] says what goes wrong, a computation
    may end the process or never settle, and the result of a function
    handler holds the values that the handler returned. *)

Module Full.

(** What becomes of the event written to a child's standard input and of
    the promise of its strategy. *)
Inductive ChildFate : Type :=
| Finishes      (* the event is written; ['exit'] or ['error'] is emitted *)
| StdinBreaks   (* the write fails: [child.stdin] emits ['error'], for which
                   no listener is installed, and the dispatcher ends *)
| NeverExits.   (* neither ['exit'] nor ['error'] is ever emitted *)

(** What becomes of handler code evaluated in the dispatcher's process. *)
Inductive CodeFate : Type :=
| Completes     (* the awaited call returns or throws *)
| ExitsProcess  (* the code ends the dispatcher, as with [process.exit] *)
| Hangs.        (* the awaited call never settles *)

(** What goes wrong around the dispatcher.  The writes are given the trace
    so far, so that the same write can succeed at one time and fail at
    another. *)
Record Faults : Type := mkFaults {
  (** [Logger.log(level, message)]: the exception of [appendFileSync] when
      the level is logged and the write fails *)
  log_fault : list Effect -> LogLevel -> string -> option Thrown;
  (** [Logger.logHook(hookData)]: the exception of [appendFileSync] *)
  logHook_fault : list Effect -> HookData -> option Thrown;
  (** [saveStats()]: the exception of [writeFileSync] *)
  saveStats_fault : list Effect -> gmap string HandlerStats -> option Thrown;
  child_fate : SpawnRequest -> ChildFate;
  code_fate : string -> HookData -> CodeFate;
  (** whether [readFile(path)] settles; it does not on a pipe that nobody
      writes to *)
  read_ends : string -> bool;
  (** whether the loop of [findProjectConfig] ends from this directory; it
      does not from a relative path above which no configuration exists,
      since the parent of such a path never becomes ["/"] *)
  search_ends : string -> bool
}.

(** How a computation of the dispatcher ends: it returns or throws, it
    ends the dispatcher process, or it never settles. *)
Inductive Fate (A : Type) : Type :=
| Settles (o : Outcome A)
| ProcessEnds
| NeverSettles.
Arguments Settles {A} o.
Arguments ProcessEnds {A}.
Arguments NeverSettles {A}.

Definition IO (A : Type) : Type := State -> Fate A * State.

Definition ret {A} (a : A) : IO A := fun s => (Settles (Ok a), s).

Definition throw {A} (e : Thrown) : IO A := fun s => (Settles (Throw e), s).

Definition ends_process {A} : IO A := fun s => (ProcessEnds, s).

Definition never_settles {A} : IO A := fun s => (NeverSettles, s).

Definition bind {A B} (c : IO A) (k : A -> IO B) : IO B :=
  fun s =>
    match c s with
    | (Settles (Ok a), s') => k a s'
    | (Settles (Throw e), s') => (Settles (Throw e), s')
    | (ProcessEnds, s') => (ProcessEnds, s')
    | (NeverSettles, s') => (NeverSettles, s')
    end.

(** A computation of the modules above, which returns or throws. *)
Definition lift {A} (c : M A) : IO A :=
  fun s => (Settles (fst (c s)), snd (c s)).

Declare Scope io_scope.
Delimit Scope io_scope with IO.
Notation "'do' x <- c ; k" := (bind c (fun x => k))
  (at level 10, x name, c at level 100, k at level 200) : io_scope.
Notation "c ;; k" := (bind c (fun _ => k))
  (at level 100, k at level 200, right associativity) : io_scope.
Local Open Scope io_scope.

(** [try { body } catch (err) { handler }] *)
Definition try_catch {A} (body : IO A) (handler : Thrown -> IO A) : IO A :=
  fun s =>
    match body s with
    | (Settles (Throw e), s') => handler e s'
    | other => other
    end.

(** [Logger.log]: the call is recorded, and the write may throw. *)
Definition logger (f : Faults) (level : LogLevel) (message : string) : IO unit :=
  do s <- lift get_state;
  lift (emit (ELog level message)) ;;
  match log_fault f (trace s) level message with
  | Some e => throw e
  | None => ret tt
  end.

(** [Logger.logHook] *)
Definition logHook (f : Faults) (hookData : HookData) : IO unit :=
  do s <- lift get_state;
  lift (emit (ELogHook hookData)) ;;
  match logHook_fault f (trace s) hookData with
  | Some e => throw e
  | None => ret tt
  end.

(** [StatsManager.recordExecution], called with the value of
    [result.error]: the entry is set in the map before [saveStats] writes,
    and possibly throws. *)
Definition recordExecution (f : Faults) (rt : Runtime) (handlerName : string)
    (duration : Z) (success : bool) (error : option JSON) : IO unit :=
  lift (StatsManager.record rt handlerName duration success error) ;;
  do s <- lift get_state;
  lift (emit (ESaveStats (stats s))) ;;
  match saveStats_fault f (trace s) (stats s) with
  | Some e => throw e
  | None => ret tt
  end.

(** *** The strategies that store strings *)

(** [spawn(...)], the listeners installed, the event written to standard
    input, and the promise awaited.  [spawn rt request] is the child if it
    comes to its terminal event. *)
Definition spawn_and_wait (f : Faults) (rt : Runtime) (request : SpawnRequest)
    (onExit : option Z -> string -> string -> HookExecutionResult -> HookExecutionResult)
    (result : HookExecutionResult) : IO HookExecutionResult :=
  lift (emit (ESpawn request)) ;;
  match spawn rt request with
  | SpawnThrows e => throw e
  | Spawned child =>
      (* child.stdin.write(JSON.stringify(hookData)); child.stdin.end() *)
      match child_fate f request with
      | StdinBreaks => ends_process
      | NeverExits => never_settles
      | Finishes =>
          match child_event child with
          | ChildExit code =>
              ret (onExit code (child_stdout child) (child_stderr child) result)
          | ChildError message => ret (HandlerExecutor.onError message result)
          end
      end
  end.

Definition executeVelcroHandler (f : Faults) (rt : Runtime) (h : Handler)
    (hookData : HookData) (result : HookExecutionResult) : IO HookExecutionResult :=
  if negb (truthy_str (code h)) then
    throw (new_Error ("Velcro handler " +:+ name h +:+ " has no code"))
  else
    spawn_and_wait f rt (HandlerExecutor.velcro_request rt h hookData)
                   HandlerExecutor.onExit_plain result.

Definition executeCommandHandler (f : Faults) (rt : Runtime) (h : Handler)
    (hookData : HookData) (result : HookExecutionResult) : IO HookExecutionResult :=
  if negb (truthy_str (command h)) then
    throw (new_Error ("Command handler " +:+ name h +:+ " has no command"))
  else
    spawn_and_wait f rt (HandlerExecutor.command_request rt h hookData)
                   (HandlerExecutor.onExit_json rt) result.

Definition executeScriptHandler (f : Faults) (rt : Runtime) (h : Handler)
    (hookData : HookData) (result : HookExecutionResult) : IO HookExecutionResult :=
  if negb (truthy_str (script h)) then
    throw (new_Error ("Script handler " +:+ name h +:+ " has no script path"))
  else
    let path := default "" (script h) in
    (* Read script content *)
    lift (emit (EReadFile path)) ;;
    if read_ends f path then
      match readFile rt path with
      | inl e => throw e
      | inr scriptContent =>
          (* Determine script type from extension or shebang *)
          let ext := HandlerExecutor.toLowerCase (HandlerExecutor.last_segment path) in
          if String.eqb ext "js" || String.eqb ext "mjs"
             || HandlerExecutor.startsWith "#!/usr/bin/env node" scriptContent then
            (* Execute as JavaScript *)
            lift (emit (EEvalCode scriptContent)) ;;
            match code_fate f scriptContent hookData with
            | ExitsProcess => ends_process
            | Hangs => never_settles
            | Completes =>
                match eval_async rt scriptContent hookData with
                | inl e => throw e
                | inr (inr value) =>
                    let result := set_success true result in
                    ret (set_output
                           (Some (if truthy_opt value
                                  then HandlerExecutor.to_String (default JNull value)
                                  else ""))
                           result)
                | inr (inl err) =>
                    let result := set_success false result in
                    ret (set_error (Some (thrown_text err)) result)
                end
            end
          else
            (* Execute as shell script *)
            let env := [ ("CLAUDE_PROJECT_DIR", process_cwd rt) ] in
            spawn_and_wait f rt (mkSpawn path [] env hookData)
                           HandlerExecutor.onExit_plain result
      end
    else never_settles.

Definition executeExternalHandler (f : Faults) (rt : Runtime) (h : Handler)
    (hookData : HookData) (result : HookExecutionResult) : IO HookExecutionResult :=
  if negb (truthy_str (command h)) then
    throw (new_Error ("External handler " +:+ name h +:+ " has no command"))
  else
    spawn_and_wait f rt (HandlerExecutor.external_request rt h hookData)
                   (HandlerExecutor.onExit_json rt) result.

(** *** The result object, with the values it holds *)

(** [HookExecutionResult] as the object is at run time: [output], [stderr]
    and [error] hold whatever was assigned to them. *)
Record Result : Type := mkFull {
  handler : string;
  success : bool;
  output : option JSON;
  stderr : option JSON;
  exitCode : option Z;
  response : option JSON;
  blockExecution : option bool;
  error : option JSON;
  duration : Z
}.

(** A result whose three fields hold strings. *)
Definition of_typed (r : HookExecutionResult) : Result :=
  match r with
  | mkResult h s o e c v b err d =>
      mkFull h s (JStr <$> o) (JStr <$> e) c v b (JStr <$> err) d
  end.

Definition set_success (b : bool) (r : Result) :=
  mkFull (handler r) b (output r) (stderr r) (exitCode r) (response r)
         (blockExecution r) (error r) (duration r).
Definition set_output (o : option JSON) (r : Result) :=
  mkFull (handler r) (success r) o (stderr r) (exitCode r) (response r)
         (blockExecution r) (error r) (duration r).
Definition set_stderr (e : option JSON) (r : Result) :=
  mkFull (handler r) (success r) (output r) e (exitCode r) (response r)
         (blockExecution r) (error r) (duration r).
Definition set_response (v : option JSON) (r : Result) :=
  mkFull (handler r) (success r) (output r) (stderr r) (exitCode r) v
         (blockExecution r) (error r) (duration r).
Definition set_blockExecution (b : option bool) (r : Result) :=
  mkFull (handler r) (success r) (output r) (stderr r) (exitCode r) (response r)
         b (error r) (duration r).
Definition set_error (e : option JSON) (r : Result) :=
  mkFull (handler r) (success r) (output r) (stderr r) (exitCode r) (response r)
         (blockExecution r) e (duration r).
Definition set_duration (d : Z) (r : Result) :=
  mkFull (handler r) (success r) (output r) (stderr r) (exitCode r) (response r)
         (blockExecution r) (error r) d.

(** [if (result.blockExecution)] *)
Definition blocks (r : Result) : bool :=
  match blockExecution r with
  | Some b => b
  | None => false
  end.

(** [a || b || ''] *)
Definition or_empty (a b : option JSON) : option JSON :=
  or_else (or_else a b) (Some (JStr "")).

Definition executeFunctionHandler (f : Faults) (rt : Runtime) (h : Handler)
    (hookData : HookData) (result : Result) : IO Result :=
  if negb (truthy_str (code h)) then
    throw (new_Error ("Function handler " +:+ name h +:+ " has no code"))
  else
    let text := HandlerExecutor.function_wrapper (default "" (code h)) in
    lift (emit (EEvalCode text)) ;;
    match code_fate f text hookData with
    | ExitsProcess => ends_process
    | Hangs => never_settles
    | Completes =>
        match eval_async rt text hookData with
        | inr (inr functionResult) =>
            let result := set_response functionResult result in
            let result := set_success true result in
            (* Handle the result based on CC's hook API *)
            match functionResult with
            | Some v =>
                if truthy v && typeof_object v then
                  (* Check for blocking response *)
                  let result :=
                    if prop_is_string v "status" "blocked" || prop_is_true v "blocked" then
                      set_stderr (or_empty (prop v "message") (prop v "reason"))
                        (set_success false (set_blockExecution (Some true) result))
                    else result in
                  (* Check for error response *)
                  let result :=
                    if prop_is_string v "status" "error" || prop_is_true v "error" then
                      set_error (or_empty (prop v "message") (prop v "reason"))
                                (set_success false result)
                    else result in
                  (* Capture any output *)
                  let result :=
                    if truthy_opt (prop v "message") || truthy_opt (prop v "output") then
                      set_output (or_else (prop v "message") (prop v "output")) result
                    else result in
                  ret result
                else ret result
            | None => ret result
            end
        | inr (inl err) | inl err =>
            ret (set_success false (set_error (Some (JStr (thrown_text err))) result))
        end
    end.

(** *** [execute] *)

(** The object [result] as [execute] creates it. *)
Definition initial_result (h : Handler) : Result :=
  mkFull (name h) false None None None None None None 0.

(** The [try] block of [execute]. *)
Definition execute_try (f : Faults) (rt : Runtime) (h : Handler)
    (hookData : HookData) : IO Result :=
  (* Check if handler should run based on matcher *)
  do skip <-
    (if truthy_str (matcher h)
     then do m <- lift (HandlerExecutor.matchesFilter rt (matcher h) hookData);
          ret (negb m)
     else ret false);
  if (skip : bool) then
    logger f LvDebug ("Handler " +:+ name h +:+ " skipped due to matcher") ;;
    ret (set_success true (initial_result h))
  else
    logger f LvDebug ("Executing " +:+ HandlerType_text (type h) +:+ " handler: " +:+ name h) ;;
    let typed := HandlerExecutor.initial_result h in
    match type h with
    | TVelcro => do r <- executeVelcroHandler f rt h hookData typed; ret (of_typed r)
    | TCommand => do r <- executeCommandHandler f rt h hookData typed; ret (of_typed r)
    | TScript => do r <- executeScriptHandler f rt h hookData typed; ret (of_typed r)
    | TFunction => executeFunctionHandler f rt h hookData (initial_result h)
    | TExternal => do r <- executeExternalHandler f rt h hookData typed; ret (of_typed r)
    | TOther t => throw (new_Error ("Unknown handler type: " +:+ t))
    end.

(** The [catch] block of [execute], entered with [result] as it was
    created: the object as the block leaves it, and the exception of
    [logger.error] if the block is left by it. *)
Definition execute_catch (f : Faults) (h : Handler) (err : Thrown)
    : IO (Result * option Thrown) :=
  let result := set_error (Some (JStr (thrown_text err))) (initial_result h) in
  let result := set_success false result in
  try_catch
    (logger f LvError ("Handler " +:+ name h +:+ " execution failed") ;;
     (* Preserve blockExecution flag *)
     if thrown_is_Error err && thrown_has_blockExecution err then
       let result := set_blockExecution (Some true) result in
       ret (set_stderr (Some (JStr (if truthy_str (thrown_stderr err)
                                    then default "" (thrown_stderr err)
                                    else thrown_text err))) result,
            None)
     else ret (result, None))
    (fun e => ret (result, Some e)).

(** The [finally] block of [execute], on the object [result] as the [try]
    or the [catch] block left it: it writes [duration], records the
    execution, and, unless the recording throws, completes as the block
    before it did. *)
Definition execute_finally (f : Faults) (rt : Runtime) (h : Handler) (startTime : Z)
    (result : Result) (pending : option Thrown) : IO Result :=
  do endTime <- lift (Date_now rt);
  let result := set_duration (endTime - startTime) result in
  (* Record execution stats *)
  recordExecution f rt (name h) (duration result) (success result) (error result) ;;
  match pending with
  | Some e => throw e
  | None => ret result
  end.

(** [execute(handler, hookData)] *)
Definition execute (f : Faults) (rt : Runtime) (h : Handler) (hookData : HookData)
    : IO Result :=
  do startTime <- lift (Date_now rt);
  do left <- try_catch (do r <- execute_try f rt h hookData; ret (r, None))
                       (execute_catch f h);
  execute_finally f rt h startTime (fst left) (snd left).

(** *** The resolver *)

Definition loadProjectConfig (f : Faults) (rt : Runtime) (startDir : string)
    : IO (option ProjectConfig) :=
  if search_ends f startDir
  then lift (ProjectConfigManager.loadProjectConfig rt startDir)
  else never_settles.

Definition shouldRunHandler (f : Faults) (h : Handler) (hookData : HookData)
    : IO bool :=
  do s <- lift get_state;
  (* 1. Check session-level override (highest priority) *)
  let sessionOverride :=
    SessionStateManager.isHookEnabledForSession (sessions s) (session_id hookData) (name h) in
  match sessionOverride with
  | Some b =>
      logger f LvDebug ("Session override for " +:+ name h +:+ ": " +:+ bool_text b) ;;
      ret b
  | None =>
      (* 2. Check project-level configuration *)
      let projectEnabled :=
        ProjectConfigManager.isHandlerEnabled (projectConfig s) (name h) (enabled h) in
      (* 3. Check if handler matches the hook type *)
      if negb (includes_hook (hook_event_name hookData) (hooks h)) then ret false
      else ret projectEnabled
  end.

Fixpoint resolve_loop (f : Faults) (hookData : HookData)
    (allHandlers resolved : list Handler) : IO (list Handler) :=
  match allHandlers with
  | [] => ret resolved
  | h :: rest =>
      do run <- shouldRunHandler f h hookData;
      if run then
        do s <- lift get_state;
        match ProjectConfigManager.getHandlerOverrides (projectConfig s) (name h) with
        | Some overrides =>
            resolve_loop f hookData rest (resolved ++ [merge_handler h overrides])
        | None =>
            resolve_loop f hookData rest (resolved ++ [h])
        end
      else resolve_loop f hookData rest resolved
  end.

Definition resolveHandlers (f : Faults) (rt : Runtime) (hookData : HookData)
    : IO (list Handler) :=
  do s <- lift get_state;
  let allHandlers := handlers s in
  (if negb (String.eqb (cwd hookData) "")
   then loadProjectConfig f rt (cwd hookData) ;; ret tt
   else ret tt) ;;
  do resolvedHandlers <- resolve_loop f hookData allHandlers [];
  logger f LvDebug ("Resolved " +:+ pretty (length resolvedHandlers) +:+ " handlers for "
                    +:+ HookType_text (hook_event_name hookData)) ;;
  ret resolvedHandlers.

(** *** The /hooks endpoint *)

Inductive PromiseSettledResult : Type :=
| Fulfilled (value : Result)
| Rejected (reason : Thrown).

Record Tracking : Type := mkTracking {
  results : list Result;
  blocked : bool;
  blockingResult : option Result
}.

(** The executions awaited with [Promise.allSettled], laid out one after
    the other in resolution order.  The array is delivered when all have
    settled; an execution that ends the process or never settles leaves it
    undelivered, and the executions laid out after it are not followed. *)
Fixpoint dispatch (f : Faults) (rt : Runtime) (hookData : HookData) (hs : list Handler)
    : IO (list PromiseSettledResult) :=
  match hs with
  | [] => ret []
  | h :: rest =>
      do settled <-
        try_catch (do r <- execute f rt h hookData; ret (Fulfilled r))
                  (fun e => ret (Rejected e));
      do others <- dispatch f rt hookData rest;
      ret (settled :: others)
  end.

Definition process_one (f : Faults) (h : Handler) (promiseResult : PromiseSettledResult)
    (t : Tracking) : IO Tracking :=
  match promiseResult with
  | Fulfilled result =>
      let t := mkTracking (results t ++ [result]) (blocked t) (blockingResult t) in
      (* Log successful output *)
      (if success result && truthy_opt (output result)
       then logger f LvInfo ("Handler output from " +:+ name h)
       else ret tt) ;;
      (* Check for blocking *)
      if blocks result then
        let t := mkTracking (results t) true (Some result) in
        (if truthy_opt (stderr result)
         then logger f LvWarn ("Handler " +:+ name h +:+ " blocked execution")
         else ret tt) ;;
        ret t
      else if negb (success result) && truthy_opt (stderr result) then
        (* Log non-blocking errors *)
        logger f LvError ("Handler " +:+ name h +:+ " failed") ;;
        ret t
      else ret t
  | Rejected error =>
      (* Promise rejected - handler threw an exception *)
      logger f LvError ("Handler " +:+ name h +:+ " execution failed") ;;
      let entry :=
        mkFull (name h) false None None None None None
               (if thrown_is_Error error then Some (JStr (thrown_text error)) else None) 0 in
      ret (mkTracking (results t ++ [entry]) (blocked t) (blockingResult t))
  end.

Fixpoint process_results (f : Faults) (entries : list (Handler * PromiseSettledResult))
    (t : Tracking) : IO Tracking :=
  match entries with
  | [] => ret t
  | (h, promiseResult) :: rest =>
      do t' <- process_one f h promiseResult t;
      process_results f rest t'
  end.

Record HookResponse : Type := mkResponse {
  r_success : bool;
  r_handlers : nat;
  r_blocked : option bool;
  r_blockingHandler : option string;
  r_decision : option JSON;
  r_reason : option JSON;
  r_blockingMessage : option JSON;
  r_output : option string;
  r_responses : option (list JSON)
}.

(** [a === b] on the values of a result: strings, numbers, booleans and
    [null] are compared by value.  Arrays and objects are compared as
    trees; two occurrences of the same tree are taken to be one object, as
    they are when [stderr] was assigned the [reason] of the response. *)
Fixpoint same_value (a b : JSON) {struct a} : bool :=
  match a, b with
  | JNull, JNull => true
  | JBool x, JBool y => Bool.eqb x y
  | JNum x, JNum y => Z.eqb x y
  | JStr x, JStr y => String.eqb x y
  | JArr xs, JArr ys =>
      (fix all2 (xs ys : list JSON) {struct xs} : bool :=
         match xs, ys with
         | [], [] => true
         | x :: xs', y :: ys' => same_value x y && all2 xs' ys'
         | _, _ => false
         end) xs ys
  | JObj xs, JObj ys =>
      (fix all2 (xs ys : list (string * JSON)) {struct xs} : bool :=
         match xs, ys with
         | [], [] => true
         | (k, x) :: xs', (l, y) :: ys' => String.eqb k l && same_value x y && all2 xs' ys'
         | _, _ => false
         end) xs ys
  | _, _ => false
  end.

Definition strict_eq (a b : option JSON) : bool :=
  match a, b with
  | None, None => true
  | Some x, Some y => same_value x y
  | _, _ => false
  end.

(** [value || 'Operation blocked'] *)
Definition or_operation_blocked (v : option JSON) : JSON :=
  if truthy_opt v then default JNull v else JStr "Operation blocked".

(** [r.response && typeof r.response === 'object'] *)
Definition has_object_response (r : Result) : bool :=
  match response r with
  | Some v => truthy v && typeof_object v
  | None => false
  end.

(** [r.success && r.output && r.output.trim()] and then [r.output.trim()]
    for one result: the text it contributes, if any.  A truthy value that
    is not a string has no [trim] method, and the call throws. *)
Definition trimmed_output (r : Result) : Thrown + option string :=
  if success r && truthy_opt (output r) then
    match output r with
    | Some (JStr text) =>
        inr (if negb (String.eqb (trim text) "") then Some (trim text) else None)
    | _ => inl (new_Error "r.output.trim is not a function")
    end
  else inr None.

Fixpoint successful_outputs (rs : list Result) : Thrown + list string :=
  match rs with
  | [] => inr []
  | r :: rest =>
      match trimmed_output r with
      | inl e => inl e
      | inr o =>
          match successful_outputs rest with
          | inl e => inl e
          | inr l => inr (match o with Some text => text :: l | None => l end)
          end
      end
  end.

(** The response object built after the loop, or the exception thrown
    while it is built. *)
Definition build_response (t : Tracking) : Thrown + HookResponse :=
  match successful_outputs (results t) with
  | inl e => inl e
  | inr successfulOutputs =>
      let r_out := if (0 <? length successfulOutputs)%nat
                   then Some (join (newline +:+ newline) successfulOutputs) else None in
      let jsonResponses :=
        omap response (List.filter has_object_response (results t)) in
      let r_resp := if (0 <? length jsonResponses)%nat then Some jsonResponses else None in
      inr
        match blocked t, blockingResult t with
        | true, Some blocking =>
            if has_object_response blocking then
              let v := default JNull (response blocking) in
              (* Don't duplicate the reason in blockingMessage *)
              let message :=
                if negb (truthy_opt (prop v "reason"))
                   || negb (strict_eq (stderr blocking) (prop v "reason"))
                then Some (or_operation_blocked (stderr blocking)) else None in
              mkResponse (negb (blocked t)) (length (results t)) (Some true)
                         (Some (handler blocking)) (prop v "decision") (prop v "reason")
                         message r_out r_resp
            else
              (* Non-JSON blocking response *)
              mkResponse (negb (blocked t)) (length (results t)) (Some true)
                         (Some (handler blocking)) None None
                         (Some (or_operation_blocked (stderr blocking))) r_out r_resp
        | _, _ =>
            mkResponse (negb (blocked t)) (length (results t)) None None None None None
                       r_out r_resp
        end
  end.

Inductive HttpReply : Type :=
| Status200 (body : HookResponse)
| Status500.

(** The handler of [POST /hooks].  When the [catch] block itself throws,
    the request is left without an answer. *)
Definition post_hooks (f : Faults) (rt : Runtime) (hookData : HookData) : IO HttpReply :=
  try_catch
    (logHook f hookData ;;
     logger f LvInfo ("Processing " +:+ HookType_text (hook_event_name hookData) +:+ " hook") ;;
     (* Execute handlers for this hook using resolver *)
     do handlers <- resolveHandlers f rt hookData;
     logger f LvDebug ("Found " +:+ pretty (length handlers) +:+ " handlers for "
                       +:+ HookType_text (hook_event_name hookData)) ;;
     (* Execute handlers in parallel (like Claude Code does) *)
     do executionResults <- dispatch f rt hookData handlers;
     (* Process results *)
     do t <- process_results f (combine handlers executionResults)
                             (mkTracking [] false None);
     match build_response t with
     | inl e => throw e
     | inr response => ret (Status200 response)
     end)
    (fun error =>
       logger f LvError "Hook processing error" ;;
       ret Status500).

End Full.

(** ** A reference runtime

    The theorems below hold for every [Runtime].  To run the model on
    concrete events this section provides one: a parser for the JSON texts
    with integer numbers and without [\u] escapes, and a regular-expression
    engine for literal patterns. *)

Module Reference.

Definition dquote : ascii := ascii_of_nat 34.
Definition backslash : ascii := ascii_of_nat 92.

(** A one-character string holding the double quote. *)
Definition q : string := String dquote EmptyString.

Fixpoint skip_ws (s : string) : string :=
  match s with
  | String c rest => if is_space c then skip_ws rest else s
  | EmptyString => EmptyString
  end.

Definition is_digit (c : ascii) : bool :=
  let n := nat_of_ascii c in ((48 <=? n) && (n <=? 57))%nat.

Definition digit_value (c : ascii) : Z := Z.of_nat (nat_of_ascii c - 48).

(** The digits at the head of [s], accumulated in base ten. *)
Fixpoint parse_digits (s : string) (acc : Z) : Z * string :=
  match s with
  | String c rest =>
      if is_digit c then parse_digits rest (acc * 10 + digit_value c) else (acc, s)
  | EmptyString => (acc, s)
  end.

(** An integer literal: no leading zero, an optional minus sign. *)
Definition parse_int (s : string) : option (Z * string) :=
  let unsigned t :=
    match t with
    | String c rest =>
        if Ascii.eqb c "0"%char then
          match rest with
          | String d _ => if is_digit d then None else Some (0, rest)
          | EmptyString => Some (0, rest)
          end
        else if is_digit c then Some (parse_digits t 0)
        else None
    | EmptyString => None
    end in
  match s with
  | String c rest =>
      if Ascii.eqb c "-"%char then
        match unsigned rest with
        | Some (n, r) => Some (- n, r)
        | None => None
        end
      else unsigned s
  | EmptyString => None
  end.

Definition unescape (c : ascii) : option ascii :=
  if Ascii.eqb c dquote then Some dquote
  else if Ascii.eqb c backslash then Some backslash
  else if Ascii.eqb c "/"%char then Some "/"%char
  else if Ascii.eqb c "b"%char then Some (ascii_of_nat 8)
  else if Ascii.eqb c "f"%char then Some (ascii_of_nat 12)
  else if Ascii.eqb c "n"%char then Some (ascii_of_nat 10)
  else if Ascii.eqb c "r"%char then Some (ascii_of_nat 13)
  else if Ascii.eqb c "t"%char then Some (ascii_of_nat 9)
  else None.

(** The characters of a string literal after its opening quote, up to and
    including the closing quote. *)
Fixpoint parse_chars (s : string) : option (string * string) :=
  match s with
  | String c rest =>
      if Ascii.eqb c dquote then Some (EmptyString, rest)
      else if Ascii.eqb c backslash then
        match rest with
        | String e rest' =>
            match unescape e, parse_chars rest' with
            | Some u, Some (body, r) => Some (String u body, r)
            | _, _ => None
            end
        | EmptyString => None
        end
      else if (nat_of_ascii c <? 32)%nat then None
      else
        match parse_chars rest with
        | Some (body, r) => Some (String c body, r)
        | None => None
        end
  | EmptyString => None
  end.

(** [s.startsWith(lit)] and [s.slice(n)] *)
Definition startsWith_lit (lit s : string) : bool := HandlerExecutor.startsWith lit s.

Fixpoint drop_chars (n : nat) (s : string) : string :=
  match n, s with
  | S m, String _ rest => drop_chars m rest
  | _, _ => s
  end.

Fixpoint parse_value (fuel : nat) (s : string) : option (JSON * string) :=
  match fuel with
  | O => None
  | S fuel' =>
      match skip_ws s with
      | String c rest =>
          if Ascii.eqb c "{"%char then
            match skip_ws rest with
            | String d rest' =>
                if Ascii.eqb d "}"%char then Some (JObj [], rest')
                else parse_members fuel' rest []
            | EmptyString => None
            end
          else if Ascii.eqb c "["%char then
            match skip_ws rest with
            | String d rest' =>
                if Ascii.eqb d "]"%char then Some (JArr [], rest')
                else parse_elements fuel' rest []
            | EmptyString => None
            end
          else if Ascii.eqb c dquote then
            match parse_chars rest with
            | Some (body, r) => Some (JStr body, r)
            | None => None
            end
          else if startsWith_lit "true" (String c rest) then
            Some (JBool true, drop_chars 4 (String c rest))
          else if startsWith_lit "false" (String c rest) then
            Some (JBool false, drop_chars 5 (String c rest))
          else if startsWith_lit "null" (String c rest) then
            Some (JNull, drop_chars 4 (String c rest))
          else
            match parse_int (String c rest) with
            | Some (n, r) => Some (JNum n, r)
            | None => None
            end
      | EmptyString => None
      end
  end
with parse_members (fuel : nat) (s : string) (acc : list (string * JSON))
    : option (JSON * string) :=
  match fuel with
  | O => None
  | S fuel' =>
      match skip_ws s with
      | String c rest =>
          if Ascii.eqb c dquote then
            match parse_chars rest with
            | Some (key, r) =>
                match skip_ws r with
                | String colon r' =>
                    if Ascii.eqb colon ":"%char then
                      match parse_value fuel' r' with
                      | Some (v, r'') =>
                          match skip_ws r'' with
                          | String d r3 =>
                              if Ascii.eqb d ","%char then
                                parse_members fuel' r3 (acc ++ [(key, v)])
                              else if Ascii.eqb d "}"%char then
                                Some (JObj (acc ++ [(key, v)]), r3)
                              else None
                          | EmptyString => None
                          end
                      | None => None
                      end
                    else None
                | EmptyString => None
                end
            | None => None
            end
          else None
      | EmptyString => None
      end
  end
with parse_elements (fuel : nat) (s : string) (acc : list JSON)
    : option (JSON * string) :=
  match fuel with
  | O => None
  | S fuel' =>
      match parse_value fuel' s with
      | Some (v, r) =>
          match skip_ws r with
          | String d r' =>
              if Ascii.eqb d ","%char then parse_elements fuel' r' (acc ++ [v])
              else if Ascii.eqb d "]"%char then Some (JArr (acc ++ [v]), r')
              else None
          | EmptyString => None
          end
      | None => None
      end
  end.

(** [JSON.parse(text)] on that fragment. *)
Definition parse_json (text : string) : option JSON :=
  match parse_value (S (String.length text)) text with
  | Some (v, rest) =>
      match skip_ws rest with
      | EmptyString => Some v
      | _ => None
      end
  | None => None
  end.

Fixpoint escape (s : string) : string :=
  match s with
  | String c rest =>
      if Ascii.eqb c dquote || Ascii.eqb c backslash
      then String backslash (String c (escape rest))
      else if Ascii.eqb c (ascii_of_nat 10)
      then String backslash (String "n"%char (escape rest))
      else String c (escape rest)
  | EmptyString => EmptyString
  end.

(** [JSON.stringify(value)] *)
Fixpoint stringify (v : JSON) : string :=
  match v with
  | JNull => "null"
  | JBool b => bool_text b
  | JNum n => pretty n
  | JStr s => q +:+ escape s +:+ q
  | JArr items => "[" +:+ join "," (map stringify items) +:+ "]"
  | JObj fields =>
      "{" +:+ join "," (map (fun kv => match kv with
                                       | (k, w) => q +:+ escape k +:+ q +:+ ":"
                                                   +:+ stringify w
                                       end) fields) +:+ "}"
  end.

(** Characters with a special meaning in a regular expression. *)
Definition is_meta (c : ascii) : bool :=
  existsb (Ascii.eqb c)
    [ backslash; "^"; "$"; "."; "?"; "*"; "+"; "("; ")"; "["; "]"; "{"; "}" ]%char.

Fixpoint has_meta (s : string) : bool :=
  match s with
  | String c rest => is_meta c || has_meta rest
  | EmptyString => false
  end.

(** [s] contains [pat] as a substring. *)
Fixpoint contains (pat s : string) : bool :=
  HandlerExecutor.startsWith pat s
  || match s with
     | String _ rest => contains pat rest
     | EmptyString => false
     end.

(** The alternatives of a pattern, separated by [|]. *)
Fixpoint alternatives (s current : string) : list string :=
  match s with
  | String c rest =>
      if Ascii.eqb c "|"%char then current :: alternatives rest ""
      else alternatives rest (current +:+ String c EmptyString)
  | EmptyString => [current]
  end.

(** [new RegExp(pattern)] for an alternation of literal strings; any other
    pattern is refused, as the constructor refuses a malformed one. *)
Definition compile_pattern (pattern : string) : option (string -> bool) :=
  if has_meta pattern then None
  else Some (fun s => existsb (fun alt => contains alt s) (alternatives pattern "")).

(** A runtime over the reference parser and engine; the child processes and
    the evaluation of handler code are given by the caller. *)
Definition runtime (children : SpawnRequest -> SpawnOutcome)
    (in_process : string -> HookData -> Thrown + (Thrown + option JSON))
    (isolated : string -> JSON -> HookData -> IsolatedRun) : Runtime :=
  {| new_RegExp := compile_pattern;
     JSON_parse := parse_json;
     JSON_stringify := stringify;
     clock_reading := fun n => 1000 + 5 * Z.of_nat n;
     spawn := children;
     readFile := fun path => inl (new_Error ("ENOENT: no such file or directory, open " +:+ path));
     eval_async := in_process;
     eval_isolated := isolated;
     runnerPath := "/opt/velcro/dist/handlers/velcro-runner.js";
     pm_list := fun _ _ => [];
     pm_getPackagePath := fun _ _ _ => None;
     process_cwd := "/work";
     find_project_config := fun _ => None;
     read_project_config := fun _ => None |}.

(** Handler code that returns nothing, in process and isolated. *)
Definition returns_nothing : string -> HookData -> Thrown + (Thrown + option JSON) :=
  fun _ _ => inr (inr None).
Definition isolated_returns_nothing : string -> JSON -> HookData -> IsolatedRun :=
  fun _ _ _ => mkIsolatedRun "" "" (inr (Returned None)).

(** A runtime in which every spawned child ends as [child]. *)
Definition runtime_with_child (child : ChildOutcome) : Runtime :=
  runtime (fun _ => Spawned child) returns_nothing isolated_returns_nothing.

(** A runtime in which the spawned child is the isolated runner, the handler
    code ending as [ending]. *)
Definition runtime_with_runner (ending : Thrown + Completion) : Runtime :=
  let isolated := fun (_ : string) (_ : JSON) (_ : HookData) => mkIsolatedRun "" "" ending in
  let inner := runtime (fun _ => SpawnThrows (new_Error "spawn")) returns_nothing isolated in
  runtime (fun request => Spawned (VelcroRunner.run inner request)) returns_nothing isolated.

(** A dispatcher that has just started: no sessions, no project
    configuration, no statistics. *)
Definition initial_state (hs : list Handler) : State :=
  mkState hs ∅ None ∅ 0 [].

Definition command_handler (n : string) (cmd : string) (m : option string) : Handler :=
  mkHandler n true [PreToolUse] TCommand None (Some cmd) None None None [] m SrcVelcro true.

Definition tool_event (tool : string) : HookData :=
  mkHookData "test-session" "/tmp/transcript" "/test/dir" PreToolUse (Some tool) [].

Definition prompt_event : HookData :=
  mkHookData "test-session" "/tmp/transcript" "/test/dir" UserPromptSubmit None
             [("prompt", JStr "Test prompt")].

End Reference.

(** * Vocabulary of the properties *)

Import HandlerExecutor HandlerResolver HttpServer.

(** [c] leaves the state as it is, apart from appending effects. *)
Definition extends_trace_only {A} (c : M A) : Prop :=
  forall s, exists evs, snd (c s) = with_trace (trace s ++ evs) s.

(** The patterns that match everything: [""], ["*"], or no matcher. *)
Definition is_wildcard (m : option string) : bool :=
  match m with
  | None => true
  | Some p => String.eqb p "" || String.eqb p "*"
  end.

(** The value [matchesFilter] returns, as a function of its arguments. *)
Definition would_match (rt : Runtime) (m : option string) (hookData : HookData)
    : bool :=
  if carries_tool_name hookData then
    match m with
    | Some p =>
        if is_wildcard m then true
        else match new_RegExp rt p with
             | Some test => test (default "" (tool_name hookData))
             | None => true
             end
    | None => true
    end
  else is_wildcard m.

(** [handler.matcher && !this.matchesFilter(handler.matcher, hookData)] *)
Definition skips (rt : Runtime) (h : Handler) (hookData : HookData) : bool :=
  truthy_str (matcher h) && negb (would_match rt (matcher h) hookData).

(** The state after [Date.now()]. *)
Definition tick (s : State) : State := with_ticks (S (ticks s)) s.

(** The state after [statsManager.recordExecution]. *)
Definition recorded (rt : Runtime) (handlerName : string) (duration : Z)
    (success : bool) (error : option string) (s : State) : State :=
  snd (StatsManager.recordExecution rt handlerName duration success error s).

(** The state in which a strategy starts: after the matcher, if any, has
    been consulted. *)
Definition after_matcher (rt : Runtime) (h : Handler) (hookData : HookData)
    (s : State) : State :=
  if truthy_str (matcher h) then snd (matchesFilter rt (matcher h) hookData s) else s.

(** The strategy selected by the [switch] of [execute]. *)
Definition strategy (rt : Runtime) (h : Handler) (hookData : HookData)
    (result : HookExecutionResult) : M HookExecutionResult :=
  match type h with
  | TVelcro => executeVelcroHandler rt h hookData result
  | TCommand => executeCommandHandler rt h hookData result
  | TScript => executeScriptHandler rt h hookData result
  | TFunction => executeFunctionHandler rt h hookData result
  | TExternal => executeExternalHandler rt h hookData result
  | TOther t => throw (new_Error ("Unknown handler type: " +:+ t))
  end.

(** The invocation spawns a child for a command or an external handler,
    and the child runs to the terminal event recorded in [child]. *)
Definition spawns_json_child (rt : Runtime) (h : Handler) (hookData : HookData)
    (child : ChildOutcome) : Prop :=
  (type h = TCommand /\ spawn rt (command_request rt h hookData) = Spawned child)
  \/ (type h = TExternal /\ spawn rt (external_request rt h hookData) = Spawned child).

(** The parent spawns the runner, and the runner behaves as its source. *)
Definition spawns_runner (rt : Runtime) (h : Handler) (hookData : HookData) : Prop :=
  type h = TVelcro
  /\ spawn rt (velcro_request rt h hookData)
     = Spawned (VelcroRunner.run rt (velcro_request rt h hookData)).

(** The handler code, evaluated inside the runner, ends as [ending]. *)
Definition handler_code_ends (rt : Runtime) (h : Handler) (hookData : HookData)
    (ending : Thrown + Completion) : Prop :=
  exists paths,
    JSON_parse rt (VelcroRunner.packagePathsText (sp_env (velcro_request rt h hookData)))
    = Some paths
    /\ iso_end (eval_isolated rt (default "" (code h)) paths hookData) = ending.

(** The session override for a handler on an event, if any. *)
Definition session_override (s : State) (hookData : HookData) (h : Handler)
    : option bool :=
  SessionStateManager.isHookEnabledForSession (sessions s) (session_id hookData) (name h).

(** The project layer's verdict on a handler. *)
Definition project_enabled (pc : option ProjectConfig) (h : Handler) : bool :=
  ProjectConfigManager.isHandlerEnabled pc (name h) (enabled h).

(** The value [shouldRunHandler] returns. *)
Definition should_run (s : State) (pc : option ProjectConfig) (hookData : HookData)
    (h : Handler) : bool :=
  match session_override s hookData h with
  | Some b => b
  | None => includes_hook (hook_event_name hookData) (hooks h) && project_enabled pc h
  end.

(** The handler as it enters the resolved list. *)
Definition with_overrides (pc : option ProjectConfig) (h : Handler) : Handler :=
  match ProjectConfigManager.getHandlerOverrides pc (name h) with
  | Some overrides => merge_handler h overrides
  | None => h
  end.

(** What one iteration of the loop of [resolveHandlers] contributes. *)
Definition resolve_one (s : State) (pc : option ProjectConfig) (hookData : HookData)
    (h : Handler) : option Handler :=
  if should_run s pc hookData h then Some (with_overrides pc h) else None.

(** The project configuration in force once [resolveHandlers] has tried to
    load the one of the event's directory: a configuration found and read
    replaces the previous one, otherwise the previous one stays. *)
Definition loaded_config (rt : Runtime) (hookData : HookData) (s : State)
    : option ProjectConfig :=
  if negb (String.eqb (cwd hookData) "") then
    match find_project_config rt (cwd hookData) with
    | Some configPath =>
        match read_project_config rt configPath with
        | Some parsed => Some parsed
        | None => projectConfig s
        end
    | None => projectConfig s
    end
  else projectConfig s.

(** The entry that a settled execution contributes to [results]. *)
Definition entry_of (entry : Handler * PromiseSettledResult) : HookExecutionResult :=
  match entry with
  | (_, Fulfilled result) => result
  | (h, Rejected error) =>
      mkResult (name h) false None None None None None
               (if thrown_is_Error error then Some (thrown_text error) else None) 0
  end.

(** The values of the fulfilled executions, in order. *)
Definition fulfilled_values (settled : list PromiseSettledResult)
    : list HookExecutionResult :=
  omap (fun p => match p with Fulfilled r => Some r | Rejected _ => None end) settled.

(** The loop variables after one iteration. *)
Definition track_one (entry : Handler * PromiseSettledResult) (t : Tracking) : Tracking :=
  match snd entry with
  | Fulfilled result =>
      if blocks result
      then mkTracking (results t ++ [result]) true (Some result)
      else mkTracking (results t ++ [result]) (blocked t) (blockingResult t)
  | Rejected _ =>
      mkTracking (results t ++ [entry_of entry]) (blocked t) (blockingResult t)
  end.

(** The duration written by the [finally] block: the difference of the two
    clock readings that [execute] takes. *)
Definition measured_duration (rt : Runtime) (s : State) : Z :=
  clock_reading rt (S (ticks s)) - clock_reading rt (ticks s).

(** The message of the configuration fault of a handler, if it has one:
    the payload that its type requires is missing, or its type is unknown. *)
Definition configuration_fault (h : Handler) : option string :=
  match type h with
  | TVelcro =>
      if truthy_str (code h) then None
      else Some ("Velcro handler " +:+ name h +:+ " has no code")
  | TCommand =>
      if truthy_str (command h) then None
      else Some ("Command handler " +:+ name h +:+ " has no command")
  | TScript =>
      if truthy_str (script h) then None
      else Some ("Script handler " +:+ name h +:+ " has no script path")
  | TFunction =>
      if truthy_str (code h) then None
      else Some ("Function handler " +:+ name h +:+ " has no code")
  | TExternal =>
      if truthy_str (command h) then None
      else Some ("External handler " +:+ name h +:+ " has no command")
  | TOther t => Some ("Unknown handler type: " +:+ t)
  end.

(** The statistics of a handler after one more execution. *)
Definition updated_stats (old : HandlerStats) (duration : Z) (success : bool)
    (error : option string) (now : Z) : HandlerStats :=
  let executions1 := S (executions old) in
  let failures1 := if success then failures old else S (failures old) in
  mkStats executions1 failures1 (totalDuration old + duration)
          (PrimFloat.div (number (totalDuration old + duration))
                         (number (Z.of_nat executions1)))
          (Some now)
          (if success then lastError old
           else Some (JStr (if truthy_str error then default "" error
                            else "Unknown error")))
          (PrimFloat.mul
             (PrimFloat.div (number (Z.of_nat executions1 - Z.of_nat failures1))
                            (number (Z.of_nat executions1)))
             (number 100)).

(** C9 as the specification states it: an invocation that the matcher
    rejects resolves with [success = true], appends nothing but diagnostics
    to the trace, and leaves the statistics as they were. *)
Definition skip_has_no_side_effects : Prop :=
  forall (rt : Runtime) (h : Handler) (hookData : HookData) (s : State),
    skips rt h hookData = true ->
    exists r s' evs,
      execute rt h hookData s = (Ok r, s')
      /\ success r = true
      /\ trace s' = trace s ++ evs
      /\ forallb is_logging evs = true
      /\ stats s' = stats s.

(** C10 as the specification states it, for the handlers with a
    configuration fault: whatever the event and the surroundings,
    [execute] resolves to a result with [success = false] and the message
    of the fault. *)
Definition faults_always_reported : Prop :=
  forall (f : Full.Faults) (rt : Runtime) (h : Handler) (hookData : HookData)
         (s : State) message,
    configuration_fault h = Some message ->
    exists r s',
      Full.execute f rt h hookData s = (Full.Settles (Ok r), s')
      /\ Full.success r = false
      /\ Full.error r = Some (JStr message).

(** The settlement of the execution of [h]: fulfilled, with a result that
    carries the name of [h]. *)
Definition settles_for (h : Handler) (p : PromiseSettledResult) : Prop :=
  exists r, p = Fulfilled r /\ handler r = name h.

(** * Scenarios *)

(** Scenario A: the command prints an approval and exits with code 2. *)
Definition scenario_A_stdout : string :=
  "{" +:+ Reference.q +:+ "decision" +:+ Reference.q +:+ ": "
  +:+ Reference.q +:+ "approve" +:+ Reference.q +:+ "}".

Definition scenario_A_runtime : Runtime :=
  Reference.runtime_with_child (mkChild scenario_A_stdout "" (ChildExit (Some 2))).

Definition scenario_A_handler : Handler :=
  Reference.command_handler "exit-override-handler" "echo approve; exit 2" None.

Definition exit_0_handler : Handler :=
  mkHandler "allow-all" true [PreToolUse] TVelcro (Some "process.exit(0);")
            None None None None [] None SrcVelcro true.

Definition exit_0_runtime : Runtime :=
  Reference.runtime_with_runner (inr (CalledExit (Some 0))).

(** A handler attached to [PreToolUse] only, and a [Stop] event. *)
Definition pre_only_handler : Handler :=
  mkHandler "pre-only" true [PreToolUse] TCommand None (Some "echo checked")
            None None None [] None SrcVelcro true.

Definition stop_event : HookData :=
  mkHookData "session-1" "/tmp/transcript" "/test/dir" Stop None
             [("stop_hook_active", JBool true)].

Definition quiet_runtime : Runtime :=
  Reference.runtime_with_child (mkChild "" "" (ChildExit (Some 0))).

(** The dispatcher after [enableHandlerForSession("session-1", "pre-only")]. *)
Definition session_enabled_state : State :=
  snd (enableHandlerForSession quiet_runtime "session-1" "pre-only"
         (Reference.initial_state [pre_only_handler])).

(** The precedence scenario: globally disabled, enabled by the project. *)
Definition off_handler : Handler :=
  mkHandler "security-check" false [PreToolUse] TCommand None (Some "check")
            None None None [] None SrcVelcro true.

Definition project_enabling : ProjectConfig :=
  mkProjectConfig (Some (mkProjectHooks (Some ["logger"; "security-check"])
                                        (Some ["debug-hook"]) None)).

Definition project_state : State :=
  mkState [off_handler] ∅ (Some project_enabling) ∅ 0 [].

Definition session_disabled_state : State :=
  snd (disableHandlerForSession quiet_runtime "test-session" "security-check"
         project_state).

(** A command handler for another tool, on a [Bash] event. *)
Definition other_tool_handler : Handler :=
  Reference.command_handler "test-handler" "echo test" (Some "OtherTool").

(** Scenario C: a handler of unknown type. *)
Definition unknown_type_handler : Handler :=
  mkHandler "test-handler" true [PreToolUse] (TOther "unknown") None None None None None
            [] None SrcVelcro true.

(** A command handler without a command whose matcher rejects the event:
    the invocation is skipped before the fault is met. *)
Definition skipped_faulty_handler : Handler :=
  mkHandler "test-command" true [PreToolUse] TCommand None None None None None
            [] (Some "OtherTool") SrcVelcro true.

(** Two handlers that both block, each with its own reason. *)
Definition two_guards : list Handler :=
  [ Reference.command_handler "first-guard" "exit 2" None;
    Reference.command_handler "second-guard" "exit 2" None ].

Definition blocking (n reason : string) : HookExecutionResult :=
  mkResult n false (Some "") (Some reason) (Some 2) None (Some true) None 3.

Definition two_blocked : list PromiseSettledResult :=
  [ Fulfilled (blocking "first-guard" "first reason");
    Fulfilled (blocking "second-guard" "second reason") ].

(** The event, the command runs and the matcher calls of the unit tests. *)
Definition mockHookData : HookData := Reference.tool_event "TestTool".

Definition run_command (child : ChildOutcome) (cmd : string)
    : Outcome HookExecutionResult :=
  fst (execute (Reference.runtime_with_child child)
               (Reference.command_handler "test-command" cmd None)
               mockHookData (Reference.initial_state [])).

Definition block_text : string :=
  Reference.stringify (JObj [("decision", JStr "block"); ("reason", JStr "Policy violation")]).

Definition matches (m : option string) (hookData : HookData)
    : Outcome bool * list Effect :=
  let '(o, s) := matchesFilter quiet_runtime m hookData (Reference.initial_state []) in
  (o, trace s).

(** ** Vocabulary and scenarios of the further properties *)

(** The invariant of the session store: in every session the set of
    force-enabled names and the set of force-disabled names are disjoint. *)
Definition sessions_disjoint (store : gmap string SessionHookState) : Prop :=
  forall sid session, store !! sid = Some session ->
    enabledHooks session ## disabledHooks session.

(** The session store after an operation. *)
Definition store_after {A} (c : M A) (s : State) : gmap string SessionHookState :=
  sessions (snd (c s)).

(** The override recorded in a session, if any. *)
Definition override_in (session : SessionHookState) (n : string) : option bool :=
  if bool_decide (n ∈ disabledHooks session) then Some false
  else if bool_decide (n ∈ enabledHooks session) then Some true
  else None.

(** One call of [recordExecution], as its arguments after the name. *)
Record Recording : Type := mkRecording {
  rec_duration : Z;
  rec_success : bool;
  rec_error : option string
}.

(** A sequence of calls of [recordExecution] for one handler. *)
Fixpoint record_all (rt : Runtime) (handlerName : string) (runs : list Recording)
    : M unit :=
  match runs with
  | [] => ret tt
  | r :: rest =>
      bind (StatsManager.recordExecution rt handlerName (rec_duration r)
                                         (rec_success r) (rec_error r))
           (fun _ => record_all rt handlerName rest)
  end.

(** The entry of a handler, or the zero entry that [recordExecution]
    starts from when there is none. *)
Definition entry_or_fresh (s : State) (handlerName : string) : HandlerStats :=
  default StatsManager.fresh_stats (stats s !! handlerName).

Definition total_of (runs : list Recording) : Z :=
  fold_right (fun r acc => rec_duration r + acc) 0 runs.

Definition failures_of (runs : list Recording) : nat :=
  length (List.filter (fun r => negb (rec_success r)) runs).

(** No handler of the list has the name [n]. *)
Definition unnamed_in (n : string) (hs : list Handler) : Prop :=
  Forall (fun g => name g <> n) hs.

(** The state in which [c] leaves the dispatcher. *)
Definition state_after {A} (c : M A) (s : State) : State := snd (c s).

(** The handlers that [resolveHandlers] returns, [[]] if it throws. *)
Definition resolved_for (rt : Runtime) (hookData : HookData) (s : State)
    : list Handler :=
  match fst (resolveHandlers rt hookData s) with
  | Ok resolved => resolved
  | Throw _ => []
  end.

(** An event of the project directory [dir]. *)
Definition event_in (dir : string) : HookData :=
  mkHookData "session-1" "/tmp/transcript" dir PreToolUse (Some "Bash") [].

(** A file system with one project, below ["/work/app"], whose
    configuration enables ["security-check"]. *)
Definition one_project_runtime : Runtime :=
  mkRuntime (new_RegExp quiet_runtime) (JSON_parse quiet_runtime)
            (clock_reading quiet_runtime) (spawn quiet_runtime)
            (readFile quiet_runtime) (JSON_stringify quiet_runtime)
            (eval_async quiet_runtime) (eval_isolated quiet_runtime)
            (runnerPath quiet_runtime) (pm_list quiet_runtime)
            (pm_getPackagePath quiet_runtime) (process_cwd quiet_runtime)
            (fun dir => if String.eqb dir "/work/app"
                        then Some "/work/app/.velcro/project.json" else None)
            (fun _ => Some project_enabling).

(** A result whose fields agree with each other: a blocking result is a
    failure, and a success carries no error. *)
Definition coherent (r : HookExecutionResult) : Prop :=
  (blocks r = true -> success r = false) /\ (success r = true -> error r = None).

(** The status that the runner passes to [process.exit], from the way the
    handler code ended. *)
Definition runner_status (ending : Thrown + Completion) : Z :=
  match VelcroRunner.caught ending with
  | None => EXIT_CODE.SUCCESS
  | Some e =>
      match thrown_is_Error e, thrown_exitCode e with
      | true, Some n => if Z.eqb n 0 then EXIT_CODE.ERROR else n
      | _, _ => EXIT_CODE.ERROR
      end
  end.

(** [value.status === k || value[k] === true] on the object returned by a
    function handler; false when it returned no object. *)
Definition flagged (k : string) (value : option JSON) : bool :=
  match value with
  | Some v => truthy v && typeof_object v
              && (prop_is_string v "status" k || prop_is_true v k)
  | None => false
  end.

(** A velcro handler whose code throws an error that is not an exit. *)
Definition throwing_handler : Handler :=
  mkHandler "thrower" true [PreToolUse] TVelcro (Some "throw new Error('boom');")
            None None None None [] None SrcVelcro true.

(** A function handler. *)
Definition function_handler (n body : string) : Handler :=
  mkHandler n true [PreToolUse] TFunction (Some body) None None None None []
            None SrcVelcro true.

(** A runtime in which handler code evaluated in process ends as [outcome]. *)
Definition runtime_evaluating (outcome : Thrown + (Thrown + option JSON)) : Runtime :=
  Reference.runtime (fun _ => SpawnThrows (new_Error "spawn")) (fun _ _ => outcome)
                    Reference.isolated_returns_nothing.

(** The state in which the endpoint starts the executions: [s] with the
    project configuration of the event loaded, up to the trace. *)
Definition ready_for (rt : Runtime) (hookData : HookData) (s s1 : State) : Prop :=
  handlers s1 = handlers s /\ sessions s1 = sessions s /\ stats s1 = stats s
  /\ ticks s1 = ticks s /\ projectConfig s1 = loaded_config rt hookData s.

Definition default_options : HandlerCommand.Options :=
  HandlerCommand.mkOptions "http://localhost:3010" "5000" false false.

(** A shell whose event arguments all parse to [hookData]. *)
Definition shell_reading (hookData : HookData) : ExecuteCommand.Shell :=
  ExecuteCommand.mkShell (fun _ => inr hookData) (fun _ => inr hookData)
                         (fun _ => "{...}").

(** The name given to the [i]-th imported handler. *)
Definition imported_name (i : nat) : string := "claude-import-" +:+ pretty i.

(** What an imported handler looks like. *)
Definition imported_shape (h : Handler) : Prop :=
  type h = TCommand /\ truthy_str (command h) = true
  /\ command h <> Some "velcro hook" /\ script h = None /\ code h = None
  /\ source h = SrcClaude /\ managed h = true /\ packages h = []
  /\ exists t, hooks h = [t].

(** The invariant of the two loops of [convertClaudeHandlers]. *)
Definition numbered (acc : list Handler * nat) : Prop :=
  length (fst acc) = snd acc
  /\ map name (fst acc) = map imported_name (seq 1 (snd acc))
  /\ Forall imported_shape (fst acc).

(** The command under which a handler comes back from an export followed
    by an import, if it comes back at all. *)
Definition command_after_round_trip (h : Handler) : option string :=
  if negb (enabled h) then None
  else match type h with
       | TCommand =>
           if truthy_str (command h) && negb (bool_decide (command h = Some "velcro hook"))
           then command h else None
       | TVelcro =>
           Some ("velcro run-handler " +:+ ClaudeHandlerImporter.dquote_text
                 +:+ name h +:+ ClaudeHandlerImporter.dquote_text)
       | _ => None
       end.

(** The handler that comes back, before it is given its new name. *)
Definition round_trip_image (t : HookType) (h : Handler) : option Handler :=
  match command_after_round_trip h with
  | Some cmd =>
      Some (mkHandler "" true [t] TCommand None (Some cmd) None None None []
                      (Some (if truthy_str (matcher h) then default "" (matcher h)
                             else ".*"))
                      SrcClaude true)
  | None => None
  end.

Definition set_name (n : string) (h : Handler) : Handler :=
  mkHandler n (enabled h) (hooks h) (type h) (code h) (command h) (script h) (args h)
            (env h) (packages h) (matcher h) (source h) (managed h).

(** The handlers named [claude-import-(n+1)], [claude-import-(n+2)], ... *)
Fixpoint renumber (n : nat) (hs : list Handler) : list Handler :=
  match hs with
  | [] => []
  | h :: rest => set_name (imported_name (S n)) h :: renumber (S n) rest
  end.

(** The exported configuration while only the hook type [t] has entries. *)
Definition single (t : HookType) (entries : list ClaudeHandlerImporter.ClaudeHandlerEntry)
    : ClaudeHandlerImporter.ClaudeHandlerConfig :=
  match entries with
  | [] => []
  | _ => [(t, entries)]
  end.

(** A command handler without a matcher, attached to [UserPromptSubmit]. *)
Definition prompt_logger : Handler :=
  mkHandler "prompt-logger" true [UserPromptSubmit] TCommand None (Some "log-prompt")
            None None None [] None SrcVelcro true.

(** The effects that start a program: a child process, or handler code
    evaluated in the dispatcher. *)
Definition starts (e : Effect) : bool :=
  match e with
  | ESpawn _ | EEvalCode _ => true
  | _ => false
  end.

(** The number of programs started in a stretch of the trace. *)
Definition launches (evs : list Effect) : nat := length (List.filter starts evs).

(** [c] changes the trace only, and starts at most [n] programs. *)
Definition launches_at_most (n : nat) {A} (c : M A) : Prop :=
  forall s, exists evs, snd (c s) = with_trace (trace s ++ evs) s /\ (launches evs <= n)%nat.

(** Three recorded executions: successes of 3 ms and 4 ms around a failure
    of 3 ms. *)
Definition three_runs : list Recording :=
  [mkRecording 3 true None; mkRecording 3 false (Some "boom");
   mkRecording 4 true None].

(** The number of handlers of a list that have the name [n]. *)
Definition count_named (n : string) (hs : list Handler) : nat :=
  length (List.filter (fun h => String.eqb (name h) n) hs).

(** Whether, by its entry in the report of [getHandlerStatus], a handler
    runs for an event of hook type [t]: it is effectively enabled, and
    either the session has an override for it or [t] is among its hooks. *)
Definition runs_by_report (t : HookType) (h : Handler) (st : HandlerStatus) : bool :=
  st_effectiveEnabled st
  && match st_sessionOverride st with
     | Some _ => true
     | None => includes_hook t (hooks h)
     end.

(** The surroundings in which nothing goes wrong, one kind of fault at a
    time: the log file can be written, *)
Definition log_is_written (f : Full.Faults) : Prop :=
  forall t level message, Full.log_fault f t level message = None.

(** the hook log can be written, *)
Definition hooks_are_logged (f : Full.Faults) : Prop :=
  forall t hookData, Full.logHook_fault f t hookData = None.

(** the statistics file can be written, *)
Definition statistics_are_saved (f : Full.Faults) : Prop :=
  forall t m, Full.saveStats_fault f t m = None.

(** every child takes the event and comes to its terminal event, handler
    code evaluated in the dispatcher comes back, and so does the reading
    of a script, *)
Definition handlers_come_back (f : Full.Faults) : Prop :=
  (forall request, Full.child_fate f request = Full.Finishes)
  /\ (forall text hookData, Full.code_fate f text hookData = Full.Completes)
  /\ (forall path, Full.read_ends f path = true).

(** and the search for the project configuration ends. *)
Definition searches_end (f : Full.Faults) : Prop :=
  forall dir, Full.search_ends f dir = true.

Definition no_faults : Full.Faults :=
  Full.mkFaults (fun _ _ _ => None) (fun _ _ => None) (fun _ _ => None)
                (fun _ => Full.Finishes) (fun _ _ => Full.Completes) (fun _ => true)
                (fun _ => true).

(** A computation that returns or throws, and only extends the trace. *)
Definition settles_on_the_trace {A} (c : Full.IO A) : Prop :=
  forall s, exists o evs, c s = (Full.Settles o, with_trace (trace s ++ evs) s).

(** The result with which the [catch] block of [execute] ends. *)
Definition caught_result (h : Handler) (err : Thrown) : Full.Result :=
  let result :=
    Full.set_success false
      (Full.set_error (Some (JStr (thrown_text err))) (Full.initial_result h)) in
  if thrown_is_Error err && thrown_has_blockExecution err then
    Full.set_stderr (Some (JStr (if truthy_str (thrown_stderr err)
                                 then default "" (thrown_stderr err)
                                 else thrown_text err)))
                    (Full.set_blockExecution (Some true) result)
  else result.

(** The statistics file cannot be written. *)
Definition statistics_are_lost (f : Full.Faults) (e : Thrown) : Prop :=
  forall t m, Full.saveStats_fault f t m = Some e.

(** Faults in which only the statistics file cannot be written
    ([EISDIR], say). *)
Definition unwritable_statistics : Full.Faults :=
  Full.mkFaults (fun _ _ _ => None) (fun _ _ => None)
                (fun _ _ => Some (new_Error "EISDIR: illegal operation on a directory, open"))
                (fun _ => Full.Finishes) (fun _ _ => Full.Completes) (fun _ => true)
                (fun _ => true).

(** The state after [recordExecution] has set the entry in the map and
    [saveStats] has been called, whether or not the write succeeds. *)
Definition recorded_value (rt : Runtime) (handlerName : string) (duration : Z)
    (success : bool) (error : option JSON) (s : State) : State :=
  let s1 := snd (StatsManager.record rt handlerName duration success error s) in
  with_trace (trace s1 ++ [ESaveStats (stats s1)]) s1.

(** The result with which the [try] and [catch] blocks of [execute] leave
    the object [result], from the way the [try] block ended. *)
Definition result_of_try (h : Handler) (o : Outcome Full.Result) : Full.Result :=
  match o with
  | Ok r => r
  | Throw e => caught_result h e
  end.

(** A runtime in which every child prints ["ok"] and exits with 0, and in
    which the code of a function handler returns the object it is written
    to return. *)
Definition counting_runtime : Runtime :=
  Reference.runtime
    (fun _ => Spawned (mkChild "ok" "" (ChildExit (Some 0))))
    (fun text _ =>
       if String.eqb text (function_wrapper "return { message: 42 };")
       then inr (inr (Some (JObj [("message", JNum 42)])))
       else if String.eqb text (function_wrapper "return { message: '42' };")
       then inr (inr (Some (JObj [("message", JStr "42")])))
       else inr (inr None))
    Reference.isolated_returns_nothing.

(** A command handler that succeeds, and a function handler with the code
    [body]. *)
Definition two_handlers (body : string) : list Handler :=
  [ Reference.command_handler "first" "echo ok" None;
    function_handler "count" body ].

(** The dispatcher that has just started with the two handlers, the
    function handler returning the number 42 as its message. *)
Definition counting_state : State :=
  Reference.initial_state (two_handlers "return { message: 42 };").

(** A computation of [Full] that is a computation of the modules above. *)
Definition is_lift {A} (c : Full.IO A) (c0 : M A) : Prop :=
  forall s, c s = Full.lift c0 s.

(** The entry that a settled execution contributes to [results]. *)
Definition settled_entry (entry : Handler * Full.PromiseSettledResult) : Full.Result :=
  match entry with
  | (_, Full.Fulfilled result) => result
  | (h, Full.Rejected error) =>
      Full.mkFull (name h) false None None None None None
                  (if thrown_is_Error error then Some (JStr (thrown_text error)) else None) 0
  end.

(** The values of the fulfilled executions, in order. *)
Definition settled_values (settled : list Full.PromiseSettledResult)
    : list Full.Result :=
  omap (fun p => match p with
                 | Full.Fulfilled r => Some r
                 | Full.Rejected _ => None
                 end) settled.

(** What one iteration of the loop does to its variables. *)
Definition settled_track (entry : Handler * Full.PromiseSettledResult)
    (t : Full.Tracking) : Full.Tracking :=
  match snd entry with
  | Full.Fulfilled result =>
      if Full.blocks result
      then Full.mkTracking (Full.results t ++ [result]) true (Some result)
      else Full.mkTracking (Full.results t ++ [result]) (Full.blocked t)
                           (Full.blockingResult t)
  | Full.Rejected _ =>
      Full.mkTracking (Full.results t ++ [settled_entry entry]) (Full.blocked t)
                      (Full.blockingResult t)
  end.

(** A result that says [success] with an [output] that is truthy and not a
    string. *)
Definition non_text_output (r : Full.Result) : bool :=
  Full.success r && truthy_opt (Full.output r)
  && match Full.output r with
     | Some (JStr _) => false
     | _ => true
     end.

(** The answer of the endpoint, from the variables of the loop. *)
Definition reply_of (t : Full.Tracking) : Full.HttpReply :=
  match Full.build_response t with
  | inl _ => Full.Status500
  | inr body => Full.Status200 body
  end.

(** [p] is the settlement of an execution of [h] that fulfilled. *)
Definition executed_as (f : Full.Faults) (rt : Runtime) (hookData : HookData)
    (h : Handler) (p : Full.PromiseSettledResult) : Prop :=
  exists s0 r,
    fst (Full.execute f rt h hookData s0) = Full.Settles (Ok r)
    /\ p = Full.Fulfilled r.

(** An optional field of an object: [JSON.stringify] leaves out the
    fields that are [undefined]. *)
Definition field {A} (k : string) (to_json : A -> JSON) (v : option A)
    : list (string * JSON) :=
  match v with
  | Some a => [(k, to_json a)]
  | None => []
  end.

(** [res.status(200).json(response)], parsed by the command. *)
Definition response_json (r : Full.HookResponse) : JSON :=
  JObj ([ ("success", JBool (Full.r_success r));
          ("handlers", JNum (Z.of_nat (Full.r_handlers r))) ]
        ++ field "blocked" JBool (Full.r_blocked r)
        ++ field "blockingHandler" JStr (Full.r_blockingHandler r)
        ++ field "decision" id (Full.r_decision r)
        ++ field "reason" id (Full.r_reason r)
        ++ field "blockingMessage" id (Full.r_blockingMessage r)
        ++ field "output" JStr (Full.r_output r)
        ++ field "responses" JArr (Full.r_responses r)).

(** The answer to the command's POST when the dispatcher, in the state
    [s], is the server and reads the event [hookData] from the request:
    status 200 with the response as its body, status 500 with a body that
    is not JSON, or no answer, in which case the timeout aborts the
    request. *)
Definition answered_by (f : Full.Faults) (rt : Runtime) (s : State)
    (hookData : HookData) : HandlerCommand.FetchOutcome :=
  match fst (Full.post_hooks f rt hookData s) with
  | Full.Settles (Ok (Full.Status200 resp)) =>
      HandlerCommand.FetchResolves true 200 (HandlerCommand.BodyValue (response_json resp))
  | Full.Settles (Ok Full.Status500) =>
      HandlerCommand.FetchResolves false 500
        (HandlerCommand.BodyThrows (new_Error "Unexpected token I in JSON at position 0"))
  | _ => HandlerCommand.FetchRejects (new_Error "This operation was aborted")
  end.

(** The command run against the dispatcher [rt] in the state [s], on an
    input that is the JSON of [hookData]. *)
Definition local_client (f : Full.Faults) (rt : Runtime) (s : State)
    (hookData : HookData) : HandlerCommand.Client :=
  HandlerCommand.mkClient (fun _ => Some (HandlerCommand.HookData_json hookData))
                          (fun _ => None)
                          (fun _ _ => answered_by f rt s hookData)
                          "/home/user/.velcro/logs".

(** The command gets as far as the request with the hook data [v]: the
    input is JSON, the hook is logged, the lines of [--debug] can be
    written, and a server is configured. *)
Definition sends (c : HandlerCommand.Client) (options : HandlerCommand.Options)
    (inputData : string) (v : JSON) : Prop :=
  trim inputData <> ""
  /\ HandlerCommand.parse_hook_data c inputData = Some v
  /\ HandlerCommand.logHook_fault c v = None
  /\ (HandlerCommand.opt_debug options = true -> v <> JNull)
  /\ HandlerCommand.opt_server options <> "disabled".

(** A client whose hook log cannot be written. *)
Definition client_without_log : HandlerCommand.Client :=
  HandlerCommand.mkClient Reference.parse_json
                          (fun _ => Some (new_Error "EACCES: permission denied, open"))
                          (fun _ _ => HandlerCommand.FetchRejects (new_Error "fetch failed"))
                          "/home/user/.velcro/logs".

(** * Properties *)

(** ** Frame lemmas: code that only writes to the trace *)

Section Frame.

Lemma with_trace_nil s : with_trace (trace s ++ []) s = s.
Proof. destruct s; unfold with_trace; simpl. now rewrite app_nil_r. Qed.

Lemma with_trace_app s evs evs' :
  with_trace (trace (with_trace (trace s ++ evs) s) ++ evs') (with_trace (trace s ++ evs) s)
  = with_trace (trace s ++ (evs ++ evs')) s.
Proof. destruct s; unfold with_trace; simpl. now rewrite app_assoc. Qed.

Lemma eto_ret {A} (a : A) : extends_trace_only (ret a).
Proof. intros s. exists []. simpl. now rewrite with_trace_nil. Qed.

Lemma eto_throw {A} e : extends_trace_only (@throw A e).
Proof. intros s. exists []. simpl. now rewrite with_trace_nil. Qed.

Lemma eto_get_state : extends_trace_only get_state.
Proof. intros s. exists []. simpl. now rewrite with_trace_nil. Qed.

Lemma eto_emit e : extends_trace_only (emit e).
Proof. intros s. now exists [e]. Qed.

Lemma eto_logger level message : extends_trace_only (logger level message).
Proof. apply eto_emit. Qed.

Lemma eto_bind {A B} (c : M A) (k : A -> M B) :
  extends_trace_only c -> (forall a, extends_trace_only (k a)) ->
  extends_trace_only (bind c k).
Proof.
  intros Hc Hk s. unfold bind.
  destruct (Hc s) as [evs Hs]. destruct (c s) as [[a|e] s1]; simpl in *; subst s1.
  - destruct (Hk a (with_trace (trace s ++ evs) s)) as [evs' Hs'].
    exists (evs ++ evs'). now rewrite Hs', with_trace_app.
  - now exists evs.
Qed.

Lemma eto_try_catch {A} (c : M A) (k : Thrown -> M A) :
  extends_trace_only c -> (forall e, extends_trace_only (k e)) ->
  extends_trace_only (try_catch c k).
Proof.
  intros Hc Hk s. unfold try_catch.
  destruct (Hc s) as [evs Hs]. destruct (c s) as [[a|e] s1]; simpl in *; subst s1.
  - now exists evs.
  - destruct (Hk e (with_trace (trace s ++ evs) s)) as [evs' Hs'].
    exists (evs ++ evs'). now rewrite Hs', with_trace_app.
Qed.

End Frame.

(** Decomposes a goal [extends_trace_only c] along the structure of [c]. *)
Ltac frame :=
  repeat first
    [ apply eto_ret | apply eto_throw | apply eto_get_state | apply eto_emit
    | apply eto_logger
    | apply eto_bind; [ | intros ? ]
    | apply eto_try_catch; [ | intros ? ]
    | match goal with
      | |- extends_trace_only (match ?x with _ => _ end) => destruct x
      | |- extends_trace_only (if ?b then _ else _) => destruct b
      end ].

Section ExecutorFrame.
Context (rt : Runtime).

Lemma eto_matchesFilter m hookData : extends_trace_only (matchesFilter rt m hookData).
Proof. unfold matchesFilter. frame. Qed.

Lemma eto_spawn_and_wait request onExit result :
  extends_trace_only (spawn_and_wait rt request onExit result).
Proof. unfold spawn_and_wait. frame. Qed.

Lemma eto_execute_try h hookData result :
  extends_trace_only (execute_try rt h hookData result).
Proof.
  unfold execute_try, executeVelcroHandler, executeCommandHandler,
    executeScriptHandler, executeFunctionHandler, executeExternalHandler.
  frame; try apply eto_matchesFilter; try apply eto_spawn_and_wait.
Qed.

Lemma eto_execute_catch h result e : extends_trace_only (execute_catch h result e).
Proof. unfold execute_catch. frame. Qed.

End ExecutorFrame.

(** ** The matcher *)

Section Matcher.
Context (rt : Runtime).

Lemma wildcard_cases m :
  negb (truthy_str m) || bool_decide (m = Some "*") = is_wildcard m.
Proof.
  destruct m as [p|]; simpl; [|reflexivity].
  destruct (String.eqb_spec p ""); simpl.
  - subst. reflexivity.
  - destruct (String.eqb_spec p "*"); subst.
    + now rewrite bool_decide_eq_true_2.
    + rewrite bool_decide_eq_false_2; [reflexivity|congruence].
Qed.

(** C5.  On an event that carries a tool name, the patterns [""] and ["*"]
    and an absent matcher match unconditionally; any other pattern is
    compiled as a regular expression and tested against the tool name; a
    pattern that does not compile matches, and a diagnostic is written to
    the console.  On an event without a tool name only [""], ["*"] and an
    absent matcher match, any other pattern does not. *)
Theorem matcher_contract (m : option string) (hookData : HookData) (s : State) :
  (forall tool, tool_name hookData = Some tool -> carries_tool_name hookData = true ->
     (is_wildcard m = true -> matchesFilter rt m hookData s = (Ok true, s))
     /\ (forall p test, m = Some p -> is_wildcard m = false ->
           new_RegExp rt p = Some test ->
           matchesFilter rt m hookData s = (Ok (test tool), s))
     /\ (forall p, m = Some p -> is_wildcard m = false ->
           new_RegExp rt p = None ->
           matchesFilter rt m hookData s
           = (Ok true,
              with_trace (trace s ++ [EConsoleError ("Invalid matcher regex: " +:+ p)]) s)))
  /\ (carries_tool_name hookData = false ->
        (is_wildcard m = true -> matchesFilter rt m hookData s = (Ok true, s))
        /\ (is_wildcard m = false -> matchesFilter rt m hookData s = (Ok false, s))).
Proof.
  split.
  - intros tool Htool Hcarry. unfold carries_tool_name in Hcarry.
    rewrite Htool in Hcarry. simpl in Hcarry.
    unfold matchesFilter. rewrite Htool, Hcarry.
    repeat split.
    + intros Hw. destruct m as [p|]; [|reflexivity]. simpl in Hw.
      rewrite orb_comm, Hw. reflexivity.
    + intros p test -> Hw Hre. simpl in Hw. rewrite orb_comm, Hw, Hre. reflexivity.
    + intros p -> Hw Hre. simpl in Hw. rewrite orb_comm, Hw, Hre. reflexivity.
  - intros Hcarry. unfold carries_tool_name in Hcarry.
    assert (matchesFilter rt m hookData s = (Ok (is_wildcard m), s)) as ->.
    { unfold matchesFilter. destruct (tool_name hookData) as [tool|].
      - simpl in Hcarry. rewrite Hcarry. now rewrite wildcard_cases.
      - now rewrite wildcard_cases. }
    split; intros ->; reflexivity.
Qed.

Lemma matchesFilter_value m hookData s :
  fst (matchesFilter rt m hookData s) = Ok (would_match rt m hookData).
Proof.
  unfold matchesFilter, would_match, carries_tool_name.
  destruct (tool_name hookData) as [tool|]; simpl.
  - destruct (String.eqb tool ""); simpl.
    + now rewrite wildcard_cases.
    + destruct m as [p|]; [|reflexivity]. simpl. rewrite (orb_comm (String.eqb p "*")).
      destruct (String.eqb p "" || String.eqb p "*"); [reflexivity|].
      destruct (new_RegExp rt p); reflexivity.
  - now rewrite wildcard_cases.
Qed.

End Matcher.

(** A pattern, a literal that differs from the tool, and a malformed one. *)
Lemma matcher_contract_witness :
  matchesFilter (Reference.runtime_with_child (mkChild "" "" (ChildExit None)))
                (Some "Edit|Bash") (Reference.tool_event "Bash")
                (Reference.initial_state [])
  = (Ok true, Reference.initial_state []).
Proof.
  pose (rt := Reference.runtime_with_child (mkChild "" "" (ChildExit None))).
  destruct (matcher_contract rt (Some "Edit|Bash") (Reference.tool_event "Bash")
              (Reference.initial_state [])) as [Htool _].
  destruct (Htool "Bash" eq_refl eq_refl) as (_ & Hre & _).
  exact (Hre "Edit|Bash" _ eq_refl eq_refl eq_refl).
Defined.

(** ** The shape of an execution *)

Section Execute.
Context (rt : Runtime).

Lemma recordExecution_ok handlerName duration success error s :
  StatsManager.recordExecution rt handlerName duration success error s
  = (Ok tt, recorded rt handlerName duration success error s).
Proof. reflexivity. Qed.

Lemma execute_finally_eq h startTime r s :
  execute_finally rt h startTime r s
  = (Ok (set_duration (clock_reading rt (ticks s) - startTime) r),
     recorded rt (name h) (clock_reading rt (ticks s) - startTime) (success r) (error r)
              (tick s)).
Proof. reflexivity. Qed.

Lemma ticks_with_trace t s : ticks (with_trace t s) = ticks s.
Proof. reflexivity. Qed.

Lemma execute_catch_ok h result e s :
  exists r s', execute_catch h result e s = (Ok r, s')
    /\ success r = false /\ error r = Some (thrown_text e).
Proof.
  unfold execute_catch, bind, logger, emit, modify, ret.
  destruct (thrown_is_Error e && thrown_has_blockExecution e); eauto.
Qed.

(** [execute] after a [try] block that completes normally. *)
Lemma execute_of_try_ok h hookData s r0 s2 :
  execute_try rt h hookData (initial_result h) (tick s) = (Ok r0, s2) ->
  execute rt h hookData s
  = (Ok (set_duration (clock_reading rt (S (ticks s)) - clock_reading rt (ticks s)) r0),
     recorded rt (name h) (clock_reading rt (S (ticks s)) - clock_reading rt (ticks s))
              (success r0) (error r0) (tick s2)).
Proof.
  intros Htry.
  destruct (eto_execute_try rt h hookData (initial_result h) (tick s)) as [evs Hevs].
  rewrite Htry in Hevs. simpl in Hevs.
  unfold execute, bind, Date_now, try_catch. fold (tick s). rewrite Htry.
  rewrite execute_finally_eq. subst s2. reflexivity.
Qed.

(** [execute] after a [try] block that throws. *)
Lemma execute_of_try_throw h hookData s e s2 r0 s3 :
  execute_try rt h hookData (initial_result h) (tick s) = (Throw e, s2) ->
  execute_catch h (initial_result h) e s2 = (Ok r0, s3) ->
  execute rt h hookData s
  = (Ok (set_duration (clock_reading rt (S (ticks s)) - clock_reading rt (ticks s)) r0),
     recorded rt (name h) (clock_reading rt (S (ticks s)) - clock_reading rt (ticks s))
              (success r0) (error r0) (tick s3)).
Proof.
  intros Htry Hc.
  destruct (eto_execute_try rt h hookData (initial_result h) (tick s)) as [evs Hevs].
  rewrite Htry in Hevs. simpl in Hevs.
  destruct (eto_execute_catch h (initial_result h) e s2) as [evs' Hevs'].
  rewrite Hc in Hevs'. simpl in Hevs'.
  unfold execute, bind, Date_now, try_catch. fold (tick s). rewrite Htry, Hc.
  rewrite execute_finally_eq. subst s3 s2. reflexivity.
Qed.

(** A matcher that rejects the event leaves the state as it is. *)
Lemma matchesFilter_rejects m hookData s :
  would_match rt m hookData = false ->
  matchesFilter rt m hookData s = (Ok false, s).
Proof.
  unfold matchesFilter, would_match, carries_tool_name.
  destruct (tool_name hookData) as [tool|]; simpl.
  - destruct (String.eqb tool ""); simpl.
    + rewrite wildcard_cases. now intros ->.
    + destruct m as [p|]; [|discriminate]. simpl. rewrite (orb_comm (String.eqb p "*")).
      destruct (String.eqb p "" || String.eqb p "*"); [discriminate|].
      destruct (new_RegExp rt p); [|discriminate]. now intros ->.
  - rewrite wildcard_cases. now intros ->.
Qed.

(** The [try] block on the path where the matcher skips the handler. *)
Lemma execute_try_skip h hookData result s :
  skips rt h hookData = true ->
  execute_try rt h hookData result s
  = (Ok (set_success true result),
     with_trace (trace s ++ [ELog LvDebug ("Handler " +:+ name h +:+ " skipped due to matcher")]) s).
Proof.
  unfold skips. intros [Hm Hw]%andb_prop. apply negb_true_iff in Hw.
  unfold execute_try, bind. rewrite Hm.
  rewrite (matchesFilter_rejects _ _ _ Hw). reflexivity.
Qed.

(** The [try] block on the path where the handler runs. *)
Lemma execute_try_run h hookData result s :
  skips rt h hookData = false ->
  execute_try rt h hookData result s
  = strategy rt h hookData result
      (with_trace (trace (after_matcher rt h hookData s)
                   ++ [ELog LvDebug ("Executing " +:+ HandlerType_text (type h)
                                     +:+ " handler: " +:+ name h)])
                  (after_matcher rt h hookData s)).
Proof.
  unfold skips, after_matcher. intros Hs.
  unfold execute_try, bind. destruct (truthy_str (matcher h)); simpl in *.
  - pose proof (matchesFilter_value rt (matcher h) hookData s) as Hv.
    destruct (matchesFilter rt (matcher h) hookData s) as [o s1]. simpl in *. subst o.
    apply negb_false_iff in Hs. rewrite Hs. reflexivity.
  - reflexivity.
Qed.

End Execute.

(** ** The exit-code and JSON protocol of command and external handlers *)

Section ExitProtocol.
Context (rt : Runtime).

#[local] Arguments starts_with_char : simpl never.
#[local] Arguments trim : simpl never.

Lemma handle_ccguard_keeps v r :
  exitCode (handle_ccguard v r) = exitCode r
  /\ response (handle_ccguard v r) = response r
  /\ handler (handle_ccguard v r) = handler r.
Proof.
  unfold handle_ccguard.
  repeat match goal with
         | |- context [if ?b then _ else _] => destruct b
         end; simpl; auto.
Qed.

(** What a parsed response decides about [success] and [blockExecution]. *)
Lemma handle_ccguard_success v r :
  if truthy v && typeof_object v then
    if prop_is_string v "decision" "block" then
      success (handle_ccguard v r) = false
      /\ blockExecution (handle_ccguard v r) = Some true
    else if prop_is_string v "decision" "approve" then
      success (handle_ccguard v r) = true
    else success (handle_ccguard v r) = success r
  else success (handle_ccguard v r) = success r.
Proof.
  unfold handle_ccguard.
  destruct (truthy v && typeof_object v); [|reflexivity].
  destruct (prop_is_string v "decision" "block").
  - repeat match goal with
           | |- context [if ?b then _ else _] => destruct b
           end; simpl; auto.
  - destruct (prop_is_string v "decision" "approve"); reflexivity.
Qed.

(** The result of an invocation whose child exits: the ['exit'] listener
    applied to the fresh result, then [duration]. *)
Lemma execute_json_child h hookData s child code :
  spawns_json_child rt h hookData child ->
  truthy_str (command h) = true ->
  skips rt h hookData = false ->
  child_event child = ChildExit code ->
  exists s',
    execute rt h hookData s
    = (Ok (set_duration (clock_reading rt (S (ticks s)) - clock_reading rt (ticks s))
             (onExit_json rt code (child_stdout child) (child_stderr child)
                          (initial_result h))), s').
Proof.
  intros Hchild Hcmd Hskip Hev.
  destruct Hchild as [[Hty Hsp]|[Hty Hsp]]; eexists;
    apply execute_of_try_ok; rewrite (execute_try_run rt _ _ _ _ Hskip);
    unfold strategy; rewrite Hty;
    [unfold executeCommandHandler | unfold executeExternalHandler];
    rewrite Hcmd; simpl; unfold spawn_and_wait, bind, emit, modify; simpl;
    rewrite Hsp, Hev; reflexivity.
Qed.

Lemma onExit_json_block stdout stderr_text result :
  let r := onExit_json rt (Some EXIT_CODE.BLOCK) stdout stderr_text result in
  success r = false /\ blockExecution r = Some true /\ exitCode r = Some 2.
Proof.
  unfold onExit_json. simpl.
  repeat split.
  repeat match goal with
         | |- context [if ?b then _ else _] => destruct b
         | |- context [match JSON_parse rt ?t with _ => _ end] => destruct (JSON_parse rt t)
         end; try reflexivity.
  now rewrite (proj1 (handle_ccguard_keeps _ _)).
Qed.

Lemma onExit_json_response code stdout stderr_text result v :
  starts_with_char "{"%char (trim stdout) = true ->
  JSON_parse rt (trim stdout) = Some v ->
  response (onExit_json rt code stdout stderr_text result) = Some v.
Proof.
  intros Hstart Hparse. unfold onExit_json. simpl.
  assert (negb (String.eqb (trim stdout) "") = true) as ->.
  { destruct (trim stdout); [discriminate|reflexivity]. }
  rewrite Hstart, Hparse. simpl.
  assert (response (handle_ccguard v
            (set_response (Some v)
               (set_stderr (Some (trim stderr_text))
                  (set_output (Some (trim stdout))
                     (set_exitCode (Some (default 0 code)) result))))) = Some v) as Hr
    by now rewrite (proj1 (proj2 (handle_ccguard_keeps _ _))).
  repeat match goal with
         | |- context [if ?b then _ else _] => destruct b
         end; simpl; exact Hr.
Qed.

(** C1.  When the child of a command or external handler exits with code 2
    the result has [success = false], [blockExecution = true] and
    [exitCode = 2], whatever the child printed; if its output is a JSON
    text, the parsed response is still captured. *)
Theorem exit_code_2_is_hard_override (h : Handler) (hookData : HookData) (s : State)
    (child : ChildOutcome) :
  spawns_json_child rt h hookData child ->
  truthy_str (command h) = true ->
  skips rt h hookData = false ->
  child_event child = ChildExit (Some EXIT_CODE.BLOCK) ->
  exists r s',
    execute rt h hookData s = (Ok r, s')
    /\ success r = false
    /\ blockExecution r = Some true
    /\ exitCode r = Some 2
    /\ (forall v, starts_with_char "{"%char (trim (child_stdout child)) = true ->
                  JSON_parse rt (trim (child_stdout child)) = Some v ->
                  response r = Some v).
Proof.
  intros Hchild Hcmd Hskip Hev.
  destruct (execute_json_child h hookData s child _ Hchild Hcmd Hskip Hev) as [s' He].
  eexists. exists s'. split; [exact He|].
  destruct (onExit_json_block (child_stdout child) (child_stderr child) (initial_result h))
    as (Hs & Hb & Hc).
  split; [exact Hs|]. split; [exact Hb|]. split; [exact Hc|].
  intros v Hstart Hparse.
  exact (onExit_json_response _ _ _ _ v Hstart Hparse).
Qed.

(** Under exit code 0, or no explicit code, the listener sets [success]
    only when nothing was parsed or the parsed response decides. *)
Lemma onExit_json_zero code stdout stderr_text result :
  code = Some 0 \/ code = None ->
  response result = None ->
  let text := trim stdout in
  let r := onExit_json rt code stdout stderr_text result in
  match (if starts_with_char "{"%char text then JSON_parse rt text else None) with
  | None => success r = true
  | Some v =>
      if truthy v && typeof_object v then
        if prop_is_string v "decision" "block" then
          success r = false /\ blockExecution r = Some true
        else if prop_is_string v "decision" "approve" then success r = true
        else success r = success result
      else if truthy v then success r = success result
      else success r = true
  end.
Proof.
  intros Hcode Hfresh. destruct result as [hn sc out err ec resp blk er du].
  simpl in Hfresh. subst resp. unfold onExit_json. simpl.
  assert (bool_decide (code = Some EXIT_CODE.BLOCK) = false) as ->.
  { apply bool_decide_eq_false_2. destruct Hcode; subst; discriminate. }
  assert (negb (bool_decide (code = Some 0)) && negb (bool_decide (code = None)) = false)
    as ->.
  { destruct Hcode; subst; reflexivity. }
  destruct (starts_with_char "{" (trim stdout)) eqn:Hstart;
    [|now rewrite andb_false_r].
  assert (negb (String.eqb (trim stdout) "") = true) as ->.
  { destruct (trim stdout); [discriminate|reflexivity]. }
  simpl.
  destruct (JSON_parse rt (trim stdout)) as [v|]; simpl; [|reflexivity].
  match goal with
  | |- context [handle_ccguard v ?r0] =>
      pose proof (handle_ccguard_keeps v r0) as (_ & Hresp & _);
      pose proof (handle_ccguard_success v r0) as Hsucc;
      destruct (handle_ccguard v r0) as [hn' sc' out' err' ec' resp' blk' er' du']
  end.
  simpl in *. subst resp'. simpl.
  destruct (truthy v); simpl in *.
  - destruct (typeof_object v); simpl in *; [|exact Hsucc].
    destruct (prop_is_string v "decision" "block"); [exact Hsucc|].
    destruct (prop_is_string v "decision" "approve"); exact Hsucc.
  - reflexivity.
Qed.

End ExitProtocol.

Lemma exit_code_2_is_hard_override_witness :
  exists r s',
    execute scenario_A_runtime scenario_A_handler (Reference.tool_event "SensitiveTool")
            (Reference.initial_state [scenario_A_handler]) = (Ok r, s')
    /\ success r = false
    /\ blockExecution r = Some true
    /\ exitCode r = Some 2
    /\ response r = Some (JObj [("decision", JStr "approve")]).
Proof.
  destruct (exit_code_2_is_hard_override scenario_A_runtime scenario_A_handler
              (Reference.tool_event "SensitiveTool")
              (Reference.initial_state [scenario_A_handler])
              (mkChild scenario_A_stdout "" (ChildExit (Some 2))))
    as (r & s' & He & Hs & Hb & Hc & Hr).
  - left. split; reflexivity.
  - reflexivity.
  - reflexivity.
  - reflexivity.
  - exists r, s'. repeat split; try assumption.
    apply Hr; reflexivity.
Defined.

Section ExitProtocolDefect.
Context (rt : Runtime).

#[local] Arguments starts_with_char : simpl never.
#[local] Arguments trim : simpl never.

Lemma handle_ccguard_undecided v r :
  prop_is_string v "decision" "block" = false ->
  prop_is_string v "decision" "approve" = false ->
  handle_ccguard v r = r.
Proof.
  intros Hb Ha. unfold handle_ccguard. rewrite Hb, Ha.
  now destruct (truthy v && typeof_object v).
Qed.

(** C4, where the code departs from it.  A command or external handler
    whose child exits with code 0, or without an explicit code, after
    printing a JSON object that carries neither decision, is reported with
    [success = false]: the parsed response is truthy, so the branch that
    would set [success] is not taken and the initial value stays. *)
Theorem exit_0_json_without_decision_is_failure (h : Handler) (hookData : HookData)
    (s : State) (child : ChildOutcome) (v : JSON) :
  spawns_json_child rt h hookData child ->
  truthy_str (command h) = true ->
  skips rt h hookData = false ->
  child_event child = ChildExit (Some 0) \/ child_event child = ChildExit None ->
  starts_with_char "{"%char (trim (child_stdout child)) = true ->
  JSON_parse rt (trim (child_stdout child)) = Some v ->
  truthy v = true ->
  prop_is_string v "decision" "block" = false ->
  prop_is_string v "decision" "approve" = false ->
  exists r s',
    execute rt h hookData s = (Ok r, s')
    /\ success r = false
    /\ blockExecution r = None
    /\ exitCode r = Some 0
    /\ response r = Some v.
Proof.
  intros Hchild Hcmd Hskip Hev Hstart Hparse Htruthy Hb Ha.
  assert (exists code, child_event child = ChildExit code
                       /\ (code = Some 0 \/ code = None)) as (code & Hcode & Hzero).
  { destruct Hev as [Hev|Hev]; eauto. }
  destruct (execute_json_child rt h hookData s child code Hchild Hcmd Hskip Hcode)
    as [s' He].
  eexists. exists s'. split; [exact He|].
  assert (onExit_json rt code (child_stdout child) (child_stderr child) (initial_result h)
          = set_response (Some v)
              (set_stderr (Some (trim (child_stderr child)))
                 (set_output (Some (trim (child_stdout child)))
                    (set_exitCode (Some (default 0 code)) (initial_result h))))) as Hr.
  { unfold onExit_json. simpl.
    assert (negb (String.eqb (trim (child_stdout child)) "") = true) as ->.
    { destruct (trim (child_stdout child)); [discriminate|reflexivity]. }
    rewrite Hstart, Hparse. simpl.
    rewrite (handle_ccguard_undecided _ _ Hb Ha). simpl. rewrite Htruthy. simpl.
    assert (bool_decide (code = Some EXIT_CODE.BLOCK) = false) as ->.
    { apply bool_decide_eq_false_2. destruct Hzero; subst; discriminate. }
    assert (negb (bool_decide (code = Some 0)) && negb (bool_decide (code = None)) = false)
      as -> by (destruct Hzero; subst; reflexivity).
    reflexivity. }
  rewrite Hr. simpl. repeat split.
  destruct Hzero; subst; reflexivity.
Qed.

End ExitProtocolDefect.

(** The command prints an empty JSON object and exits with code 0. *)
Lemma exit_0_json_without_decision_is_failure_witness :
  exists r s',
    execute (Reference.runtime_with_child (mkChild "{}" "" (ChildExit (Some 0))))
            (Reference.command_handler "json-handler" "echo {}" None)
            (Reference.tool_event "Bash") (Reference.initial_state [])
    = (Ok r, s')
    /\ success r = false
    /\ blockExecution r = None
    /\ exitCode r = Some 0
    /\ response r = Some (JObj []).
Proof.
  apply (exit_0_json_without_decision_is_failure
           (Reference.runtime_with_child (mkChild "{}" "" (ChildExit (Some 0))))
           (Reference.command_handler "json-handler" "echo {}" None)
           (Reference.tool_event "Bash") (Reference.initial_state [])
           (mkChild "{}" "" (ChildExit (Some 0))) (JObj []));
    try reflexivity.
  - left. split; reflexivity.
  - left. reflexivity.
Defined.

(** ** Velcro handlers: the isolated runner and its exit status *)

Section Velcro.
Context (rt : Runtime).

#[local] Arguments trim : simpl never.

Lemma handlerCode_of_request h hookData :
  truthy_str (code h) = true ->
  VelcroRunner.handlerCode (sp_env (velcro_request rt h hookData)) = default "" (code h).
Proof.
  intros Hcode. unfold VelcroRunner.handlerCode, velcro_request. simpl.
  destruct (code h) as [c|]; [|discriminate]. simpl in *. now rewrite Hcode.
Qed.

(** The exit event of the runner when the handler code calls
    [process.exit(n)]: the status is [n], except that 0 becomes 1. *)
Lemma runner_exit_event h hookData n :
  truthy_str (code h) = true ->
  handler_code_ends rt h hookData (inr (CalledExit (Some n))) ->
  child_event (VelcroRunner.run rt (velcro_request rt h hookData))
  = VelcroRunner.process_exit (if Z.eqb n 0 then EXIT_CODE.ERROR else n).
Proof.
  intros Hcode (paths & Hparse & Hend).
  unfold VelcroRunner.run. cbv zeta.
  rewrite Hparse, (handlerCode_of_request _ _ Hcode).
  change (sp_stdin (velcro_request rt h hookData)) with hookData.
  rewrite Hend. reflexivity.
Qed.

(** The result of a velcro invocation whose child exits. *)
Lemma execute_velcro_child h hookData s child status :
  type h = TVelcro ->
  spawn rt (velcro_request rt h hookData) = Spawned child ->
  truthy_str (code h) = true ->
  skips rt h hookData = false ->
  child_event child = ChildExit status ->
  exists s',
    execute rt h hookData s
    = (Ok (set_duration (clock_reading rt (S (ticks s)) - clock_reading rt (ticks s))
             (onExit_plain status (child_stdout child) (child_stderr child)
                           (initial_result h))), s').
Proof.
  intros Hty Hsp Hcode Hskip Hev. eexists.
  apply execute_of_try_ok. rewrite (execute_try_run rt _ _ _ _ Hskip).
  unfold strategy. rewrite Hty. unfold executeVelcroHandler. rewrite Hcode. simpl.
  unfold spawn_and_wait, bind, emit, modify. simpl. rewrite Hsp, Hev. reflexivity.
Qed.

(** The standard classification of a child's exit code by the parent. *)
Lemma onExit_plain_classifies code stdout stderr_text result :
  let r := onExit_plain code stdout stderr_text result in
  exitCode r = Some (default 0 code)
  /\ (code = Some 0 \/ code = None ->
        success r = true /\ blockExecution r = blockExecution result)
  /\ (code = Some 2 -> success r = false /\ blockExecution r = Some true)
  /\ (forall n, code = Some n -> n <> 0 -> n <> 2 ->
        success r = false /\ blockExecution r = blockExecution result).
Proof.
  unfold onExit_plain. simpl. repeat split.
  - repeat match goal with
           | |- context [if ?b then _ else _] => destruct b
           end; reflexivity.
  - destruct H; subst; reflexivity.
  - destruct H; subst; reflexivity.
  - subst. reflexivity.
  - subst. reflexivity.
  - subst. rewrite !bool_decide_eq_false_2
      by (unfold EXIT_CODE.SUCCESS, EXIT_CODE.BLOCK; congruence). reflexivity.
  - subst. rewrite !bool_decide_eq_false_2
      by (unfold EXIT_CODE.SUCCESS, EXIT_CODE.BLOCK; congruence). reflexivity.
Qed.

(** C7, the part the code keeps: a handler that calls [process.exit(n)]
    with a status [n] between 1 and 255 makes the runner exit with status
    [n], and the parent classifies it by the exit-code protocol. *)
Lemma velcro_exit_nonzero_is_propagated (h : Handler) (hookData : HookData)
    (s : State) (n : Z) :
  spawns_runner rt h hookData ->
  truthy_str (code h) = true ->
  skips rt h hookData = false ->
  handler_code_ends rt h hookData (inr (CalledExit (Some n))) ->
  0 < n < 256 ->
  exists r s',
    execute rt h hookData s = (Ok r, s')
    /\ exitCode r = Some n
    /\ success r = false
    /\ blockExecution r = (if Z.eqb n 2 then Some true else None).
Proof.
  intros [Hty Hsp] Hcode Hskip Hend Hn.
  pose proof (runner_exit_event h hookData n Hcode Hend) as Hev.
  assert (Z.eqb n 0 = false) as Hz by (apply Z.eqb_neq; lia).
  rewrite Hz in Hev. unfold VelcroRunner.process_exit in Hev.
  rewrite Z.mod_small in Hev by lia.
  destruct (execute_velcro_child h hookData s _ _ Hty Hsp Hcode Hskip Hev) as [s' He].
  eexists. exists s'. split; [exact He|].
  destruct (onExit_plain_classifies (Some n)
              (child_stdout (VelcroRunner.run rt (velcro_request rt h hookData)))
              (child_stderr (VelcroRunner.run rt (velcro_request rt h hookData)))
              (initial_result h)) as (Hc & _ & Hblock & Hother).
  split; [exact Hc|].
  destruct (Z.eqb_spec n 2) as [->|Hne].
  - destruct (Hblock eq_refl) as [Hs Hb]. split; [exact Hs | exact Hb].
  - destruct (Hother n eq_refl ltac:(lia) Hne) as [Hs Hb]. split; [exact Hs | exact Hb].
Qed.

(** C7, where the code departs from it.  A handler that calls
    [process.exit(0)] does not make the runner exit with status 0: the
    [catch] block exits with [exitCode || EXIT_CODE.ERROR], which is 1, and
    the parent reports a failure. *)
Theorem velcro_exit_0_is_reported_as_failure (h : Handler) (hookData : HookData)
    (s : State) :
  spawns_runner rt h hookData ->
  truthy_str (code h) = true ->
  skips rt h hookData = false ->
  handler_code_ends rt h hookData (inr (CalledExit (Some 0))) ->
  child_event (VelcroRunner.run rt (velcro_request rt h hookData)) = ChildExit (Some 1)
  /\ exists r s',
       execute rt h hookData s = (Ok r, s')
       /\ exitCode r = Some 1
       /\ success r = false
       /\ blockExecution r = None.
Proof.
  intros [Hty Hsp] Hcode Hskip Hend.
  pose proof (runner_exit_event h hookData 0 Hcode Hend) as Hev.
  change (VelcroRunner.process_exit (if Z.eqb 0 0 then EXIT_CODE.ERROR else 0))
    with (ChildExit (Some 1)) in Hev.
  split; [exact Hev|].
  destruct (execute_velcro_child h hookData s _ _ Hty Hsp Hcode Hskip Hev) as [s' He].
  eexists. exists s'. split; [exact He|].
  destruct (onExit_plain_classifies (Some 1)
              (child_stdout (VelcroRunner.run rt (velcro_request rt h hookData)))
              (child_stderr (VelcroRunner.run rt (velcro_request rt h hookData)))
              (initial_result h)) as (Hc & _ & _ & Hother).
  split; [exact Hc|].
  destruct (Hother 1 eq_refl ltac:(lia) ltac:(lia)) as [Hs Hb].
  split; [exact Hs | exact Hb].
Qed.

End Velcro.

(** A velcro handler whose whole code is a call of [process.exit(0)]. *)
Lemma velcro_exit_0_is_reported_as_failure_witness :
  exists r s',
    execute exit_0_runtime exit_0_handler (Reference.tool_event "Bash")
            (Reference.initial_state [exit_0_handler]) = (Ok r, s')
    /\ exitCode r = Some 1
    /\ success r = false
    /\ blockExecution r = None.
Proof.
  apply (velcro_exit_0_is_reported_as_failure exit_0_runtime exit_0_handler
           (Reference.tool_event "Bash") (Reference.initial_state [exit_0_handler])).
  - split; reflexivity.
  - reflexivity.
  - reflexivity.
  - exists (JObj []). split; reflexivity.
Defined.

(** ** The resolver *)

Section Resolver.

Lemma shouldRunHandler_value h hookData s :
  fst (shouldRunHandler h hookData s) = Ok (should_run s (projectConfig s) hookData h).
Proof.
  unfold shouldRunHandler, should_run, session_override, project_enabled, bind, get_state.
  destruct (SessionStateManager.isHookEnabledForSession _ _ _) as [b|]; [reflexivity|].
  simpl. destruct (includes_hook _ _); reflexivity.
Qed.

Lemma eto_shouldRunHandler h hookData : extends_trace_only (shouldRunHandler h hookData).
Proof. unfold shouldRunHandler. frame. Qed.

Lemma shouldRunHandler_eq h hookData s :
  exists evs,
    shouldRunHandler h hookData s
    = (Ok (should_run s (projectConfig s) hookData h), with_trace (trace s ++ evs) s).
Proof.
  pose proof (shouldRunHandler_value h hookData s) as Hv.
  destruct (eto_shouldRunHandler h hookData s) as [evs Hs].
  exists evs. destruct (shouldRunHandler h hookData s) as [o s1].
  simpl in Hv, Hs. now subst.
Qed.

Lemma omap_cons_eq {A B} (f : A -> option B) (x : A) (l : list A) :
  omap f (x :: l) = match f x with Some y => y :: omap f l | None => omap f l end.
Proof. reflexivity. Qed.

Lemma resolve_loop_spec hookData hs : forall acc s,
  exists evs,
    resolve_loop hookData hs acc s
    = (Ok (acc ++ omap (resolve_one s (projectConfig s) hookData) hs),
       with_trace (trace s ++ evs) s).
Proof.
  induction hs as [|h rest IH]; intros acc s.
  - exists []. simpl. unfold ret. now rewrite app_nil_r, with_trace_nil.
  - rewrite omap_cons_eq. unfold resolve_one at 1.
    simpl resolve_loop. unfold bind at 1.
    destruct (shouldRunHandler_eq h hookData s) as [evs ->].
    destruct (should_run s (projectConfig s) hookData h).
    + unfold bind, get_state, with_overrides.
      change (projectConfig (with_trace (trace s ++ evs) s)) with (projectConfig s).
      destruct (ProjectConfigManager.getHandlerOverrides (projectConfig s) (name h)) as [o|].
      * destruct (IH (acc ++ [merge_handler h o]) (with_trace (trace s ++ evs) s))
          as [evs' ->].
        exists (evs ++ evs'). rewrite with_trace_app, <- app_assoc. reflexivity.
      * destruct (IH (acc ++ [h]) (with_trace (trace s ++ evs) s)) as [evs' ->].
        exists (evs ++ evs'). rewrite with_trace_app, <- app_assoc. reflexivity.
    + destruct (IH acc (with_trace (trace s ++ evs) s)) as [evs' ->].
      exists (evs ++ evs'). now rewrite with_trace_app.
Qed.

Context (rt : Runtime).

(** [resolveHandlers] returns, in the order of the global definitions, the
    handlers that [shouldRunHandler] accepts, with their overrides. *)
Lemma resolveHandlers_spec hookData s :
  exists s',
    resolveHandlers rt hookData s
    = (Ok (omap (resolve_one s (loaded_config rt hookData s) hookData) (handlers s)), s').
Proof.
  unfold resolveHandlers, loaded_config, bind at 1, get_state.
  unfold bind at 1.
  destruct (negb (String.eqb (cwd hookData) "")).
  - unfold ProjectConfigManager.loadProjectConfig.
    destruct (find_project_config rt (cwd hookData)) as [path|].
    + destruct (read_project_config rt path) as [parsed|]; simpl.
      * unfold bind at 1.
        destruct (resolve_loop_spec hookData (handlers s) []
                    (with_project (Some parsed) s)) as [evs ->].
        simpl. eexists. reflexivity.
      * unfold bind at 1.
        match goal with
        | |- context [resolve_loop hookData (handlers s) [] ?st] =>
            destruct (resolve_loop_spec hookData (handlers s) [] st) as [evs ->]
        end.
        simpl. eexists. reflexivity.
    + simpl. unfold bind at 1.
      destruct (resolve_loop_spec hookData (handlers s) [] s) as [evs ->].
      simpl. eexists. reflexivity.
  - simpl. unfold bind at 1.
    destruct (resolve_loop_spec hookData (handlers s) [] s) as [evs ->].
    simpl. eexists. reflexivity.
Qed.

End Resolver.

Section ResolverProperties.
Context (rt : Runtime).

(** The hook-type gate, on the path that reaches it: without a session
    override that enables the handler, a handler whose hook types do not
    include the event's is left out. *)
Lemma hook_type_gate (hookData : HookData) (s : State) (pc : option ProjectConfig)
    (h : Handler) :
  includes_hook (hook_event_name hookData) (hooks h) = false ->
  session_override s hookData h <> Some true ->
  resolve_one s pc hookData h = None.
Proof.
  intros Hhook Hov. unfold resolve_one, should_run. rewrite Hhook.
  destruct (session_override s hookData h) as [[|]|]; try reflexivity. congruence.
Qed.

(** C3, where the code departs from it.  [shouldRunHandler] returns the
    session override before it looks at the hook types, so a handler
    enabled for the session is resolved for an event of a hook type it is
    not attached to. *)
Theorem session_enable_bypasses_hook_type (hookData : HookData) (s : State)
    (h : Handler) :
  h ∈ handlers s ->
  includes_hook (hook_event_name hookData) (hooks h) = false ->
  session_override s hookData h = Some true ->
  exists resolved s',
    resolveHandlers rt hookData s = (Ok resolved, s')
    /\ with_overrides (loaded_config rt hookData s) h ∈ resolved.
Proof.
  intros Hin Hhook Hov.
  destruct (resolveHandlers_spec rt hookData s) as [s' Hspec].
  eexists. exists s'. split; [exact Hspec|].
  apply list_elem_of_omap. exists h. split; [exact Hin|].
  unfold resolve_one, should_run. now rewrite Hov.
Qed.

(** C6.  A session override, when there is one, is the answer of
    [shouldRunHandler]; otherwise the project configuration answers for a
    handler attached to the event's hook type: an entry of the disabled list
    excludes, even against the enabled list; otherwise an entry of the
    enabled list includes; otherwise, and when there is no project
    configuration, the handler's own [enabled] flag decides.  So a handler
    that is globally disabled and named in the project's enabled list is
    resolved, and is not once the session disables it. *)
Theorem enablement_precedence (hookData : HookData) (s : State) (h : Handler) :
  (forall b, session_override s hookData h = Some b ->
     fst (shouldRunHandler h hookData s) = Ok b)
  /\ (session_override s hookData h = None ->
      includes_hook (hook_event_name hookData) (hooks h) = true ->
      fst (shouldRunHandler h hookData s) = Ok (project_enabled (projectConfig s) h))
  /\ (forall pc ph, pc ≫= pc_hooks = Some ph ->
      (ProjectConfigManager.opt_includes (name h) (ph_disabled ph) = true ->
         project_enabled pc h = false)
      /\ (ProjectConfigManager.opt_includes (name h) (ph_disabled ph) = false ->
          ProjectConfigManager.opt_includes (name h) (ph_enabled ph) = true ->
          project_enabled pc h = true)
      /\ (ProjectConfigManager.opt_includes (name h) (ph_disabled ph) = false ->
          ProjectConfigManager.opt_includes (name h) (ph_enabled ph) = false ->
          project_enabled pc h = enabled h))
  /\ (forall pc, pc ≫= pc_hooks = None -> project_enabled pc h = enabled h)
  /\ (forall ph,
      h ∈ handlers s ->
      enabled h = false ->
      includes_hook (hook_event_name hookData) (hooks h) = true ->
      loaded_config rt hookData s ≫= pc_hooks = Some ph ->
      ProjectConfigManager.opt_includes (name h) (ph_disabled ph) = false ->
      ProjectConfigManager.opt_includes (name h) (ph_enabled ph) = true ->
      exists resolved s',
        resolveHandlers rt hookData s = (Ok resolved, s')
        /\ resolved = omap (resolve_one s (loaded_config rt hookData s) hookData) (handlers s)
        /\ (session_override s hookData h = None ->
            with_overrides (loaded_config rt hookData s) h ∈ resolved)
        /\ (session_override s hookData h = Some false ->
            resolve_one s (loaded_config rt hookData s) hookData h = None)).
Proof.
  assert (forall pc ph, pc ≫= pc_hooks = Some ph ->
            project_enabled pc h
            = if ProjectConfigManager.opt_includes (name h) (ph_disabled ph) then false
              else if ProjectConfigManager.opt_includes (name h) (ph_enabled ph) then true
              else enabled h) as Hproject.
  { intros pc ph Hph. unfold project_enabled, ProjectConfigManager.isHandlerEnabled.
    now rewrite Hph. }
  split; [|split; [|split; [|split]]].
  - intros b Hov. rewrite shouldRunHandler_value. unfold should_run. now rewrite Hov.
  - intros Hov Hhook. rewrite shouldRunHandler_value. unfold should_run.
    now rewrite Hov, Hhook.
  - intros pc ph Hph. rewrite (Hproject pc ph Hph).
    repeat split; intros; repeat match goal with H : _ = _ |- _ => rewrite H end;
      reflexivity.
  - intros pc Hph. unfold project_enabled, ProjectConfigManager.isHandlerEnabled.
    now rewrite Hph.
  - intros ph Hin Hoff Hhook Hph Hdis Hen.
    destruct (resolveHandlers_spec rt hookData s) as [s' Hspec].
    eexists. exists s'. split; [exact Hspec|]. split; [reflexivity|]. split.
    + intros Hov. apply list_elem_of_omap. exists h. split; [exact Hin|].
      unfold resolve_one, should_run.
      now rewrite Hov, Hhook, (Hproject _ _ Hph), Hdis, Hen.
    + intros Hov. unfold resolve_one, should_run. now rewrite Hov.
Qed.

End ResolverProperties.

Lemma session_enable_bypasses_hook_type_witness :
  exists resolved s',
    resolveHandlers quiet_runtime stop_event session_enabled_state = (Ok resolved, s')
    /\ pre_only_handler ∈ resolved.
Proof.
  apply (session_enable_bypasses_hook_type quiet_runtime stop_event
           session_enabled_state pre_only_handler).
  - apply list_elem_of_singleton. reflexivity.
  - reflexivity.
  - reflexivity.
Defined.

Lemma enablement_precedence_witness :
  (exists s', resolveHandlers quiet_runtime (Reference.tool_event "Bash") project_state
              = (Ok [off_handler], s'))
  /\ (exists s', resolveHandlers quiet_runtime (Reference.tool_event "Bash")
                   session_disabled_state
                 = (Ok [], s')).
Proof.
  split.
  - destruct (enablement_precedence quiet_runtime (Reference.tool_event "Bash")
                project_state off_handler) as (_ & _ & _ & _ & Hscenario).
    destruct (Hscenario (mkProjectHooks (Some ["logger"; "security-check"])
                                        (Some ["debug-hook"]) None))
      as (resolved & s' & Hres & Heq & _); try reflexivity.
    { apply list_elem_of_singleton. reflexivity. }
    exists s'. rewrite Hres, Heq. reflexivity.
  - destruct (enablement_precedence quiet_runtime (Reference.tool_event "Bash")
                session_disabled_state off_handler) as (_ & _ & _ & _ & Hscenario).
    destruct (Hscenario (mkProjectHooks (Some ["logger"; "security-check"])
                                        (Some ["debug-hook"]) None))
      as (resolved & s' & Hres & Heq & _); try reflexivity.
    { apply list_elem_of_singleton. reflexivity. }
    exists s'. rewrite Hres, Heq. reflexivity.
Defined.

(** ** The aggregation of the /hooks endpoint *)

Section Aggregation.

Lemma eto_process_one h p t : extends_trace_only (process_one h p t).
Proof. unfold process_one. frame. Qed.

Lemma process_one_value h p t s :
  fst (process_one h p t s) = Ok (track_one (h, p) t).
Proof.
  unfold process_one, track_one, bind, logger, emit, modify, ret. simpl.
  destruct p as [r|e]; simpl; [|reflexivity].
  destruct (blocks r); simpl;
    repeat match goal with
           | |- context [if ?b then _ else _] => destruct b; simpl
           end; reflexivity.
Qed.

Lemma process_one_eq h p t s :
  exists evs,
    process_one h p t s = (Ok (track_one (h, p) t), with_trace (trace s ++ evs) s).
Proof.
  pose proof (process_one_value h p t s) as Hv.
  destruct (eto_process_one h p t s) as [evs Hs].
  exists evs. destruct (process_one h p t s) as [o s1]. simpl in Hv, Hs. now subst.
Qed.

Lemma process_results_eq entries : forall t s,
  exists evs,
    process_results entries t s
    = (Ok (fold_left (fun acc e => track_one e acc) entries t),
       with_trace (trace s ++ evs) s).
Proof.
  induction entries as [|[h p] rest IH]; intros t s.
  - exists []. simpl. unfold ret. now rewrite with_trace_nil.
  - simpl. unfold bind at 1. destruct (process_one_eq h p t s) as [evs ->].
    destruct (IH (track_one (h, p) t) (with_trace (trace s ++ evs) s)) as [evs' ->].
    exists (evs ++ evs'). now rewrite with_trace_app.
Qed.

(** The loop, in closed form: one entry per settled execution, in order;
    [blocked] and [blockingResult] depend on the fulfilled values only. *)
Lemma tracking_closed_form entries : forall t,
  let t' := fold_left (fun acc e => track_one e acc) entries t in
  let values := fulfilled_values (map snd entries) in
  results t' = results t ++ map entry_of entries
  /\ blocked t' = blocked t || existsb blocks values
  /\ blockingResult t' = match last (List.filter blocks values) with
                         | Some r => Some r
                         | None => blockingResult t
                         end.
Proof.
  induction entries as [|[h p] rest IH]; intros t; simpl.
  - now rewrite app_nil_r, orb_false_r.
  - destruct (IH (track_one (h, p) t)) as (Hr & Hb & Hl).
    cbv zeta in *. rewrite Hr, Hb, Hl. clear Hr Hb Hl IH.
    unfold track_one, fulfilled_values. simpl.
    destruct p as [r|e]; simpl.
    + destruct (blocks r) eqn:Hbl; simpl; rewrite <- app_assoc; simpl;
        (split; [reflexivity|]); split.
      * now rewrite orb_true_r.
      * rewrite last_cons. now destruct (last (List.filter blocks _)).
      * reflexivity.
      * reflexivity.
    + rewrite <- app_assoc. auto.
Qed.

End Aggregation.

(** ** Executions always resolve *)

Section Totality.
Context (rt : Runtime).

Lemma strategy_fault h hookData result s message :
  configuration_fault h = Some message ->
  strategy rt h hookData result s = (Throw (new_Error message), s).
Proof.
  unfold configuration_fault, strategy, executeVelcroHandler, executeCommandHandler,
    executeScriptHandler, executeFunctionHandler, executeExternalHandler.
  destruct (type h);
    repeat match goal with
           | |- context [truthy_str ?x] => destruct (truthy_str x)
           end; simpl; intros [= <-]; reflexivity.
Qed.

(** [execute] resolves, whatever the handler and the event, and [duration]
    is written on every path. *)
Lemma execute_resolves h hookData s :
  exists r0 s',
    execute rt h hookData s = (Ok (set_duration (measured_duration rt s) r0), s')
    /\ fst (try_catch (execute_try rt h hookData (initial_result h))
                      (execute_catch h (initial_result h)) (tick s)) = Ok r0.
Proof.
  destruct (execute_try rt h hookData (initial_result h) (tick s)) as [[r0|e] s2] eqn:Htry.
  - exists r0. eexists. split.
    + apply (execute_of_try_ok rt h hookData s r0 s2 Htry).
    + unfold try_catch. now rewrite Htry.
  - destruct (execute_catch_ok h (initial_result h) e s2) as (r0 & s3 & Hc & _ & _).
    exists r0. eexists. split.
    + apply (execute_of_try_throw rt h hookData s e s2 r0 s3 Htry Hc).
    + unfold try_catch. now rewrite Htry, Hc.
Qed.

End Totality.

Section Statistics.
Context (rt : Runtime).

(** What [recordExecution] does to the state: one entry of the statistics
    map is replaced, the map is saved, and the clock is read once. *)
Lemma recorded_eq handlerName duration success error s :
  let old := default StatsManager.fresh_stats (stats s !! handlerName) in
  let map' := <[handlerName := updated_stats old duration success error
                                 (clock_reading rt (ticks s))]> (stats s) in
  recorded rt handlerName duration success error s
  = mkState (handlers s) (sessions s) (projectConfig s) map' (S (ticks s))
            (trace s ++ [ESaveStats map']).
Proof. destruct success, error as [[|c e]|]; reflexivity. Qed.

End Statistics.

Section SkippedInvocation.
Context (rt : Runtime).

(** The skipped invocation, in closed form. *)
Lemma execute_skipped (h : Handler) (hookData : HookData) (s : State) :
  skips rt h hookData = true ->
  let old := default StatsManager.fresh_stats (stats s !! name h) in
  let entry := updated_stats old (measured_duration rt s) true None
                             (clock_reading rt (S (S (ticks s)))) in
  let map' := <[name h := entry]> (stats s) in
  execute rt h hookData s
  = (Ok (set_duration (measured_duration rt s) (set_success true (initial_result h))),
     mkState (handlers s) (sessions s) (projectConfig s) map' (S (S (S (ticks s))))
             (trace s ++ [ ELog LvDebug ("Handler " +:+ name h
                                         +:+ " skipped due to matcher");
                           ESaveStats map' ])).
Proof.
  intros Hskip.
  pose proof (execute_try_skip rt h hookData (initial_result h) (tick s) Hskip) as Htry.
  rewrite (execute_of_try_ok rt h hookData s _ _ Htry), recorded_eq.
  cbv zeta. simpl. rewrite <- app_assoc. reflexivity.
Qed.

(** C9, amended.  An invocation that the matcher rejects resolves with
    [success = true], no error and no blocking; it spawns no process,
    evaluates no handler code and reads no file: the only effects are the
    debug message of the skip and the saving of the statistics, in which the
    skipped invocation is recorded as one more (successful) execution of
    the handler. *)
Theorem skipped_invocation_logs_and_records (h : Handler) (hookData : HookData)
    (s : State) :
  skips rt h hookData = true ->
  exists r s' recorded_entry,
    execute rt h hookData s = (Ok r, s')
    /\ r = set_duration (measured_duration rt s) (set_success true (initial_result h))
    /\ trace s'
       = trace s ++ [ ELog LvDebug ("Handler " +:+ name h +:+ " skipped due to matcher");
                      ESaveStats (stats s') ]
    /\ stats s' = <[name h := recorded_entry]> (stats s)
    /\ executions recorded_entry
       = S (executions (default StatsManager.fresh_stats (stats s !! name h)))
    /\ failures recorded_entry
       = failures (default StatsManager.fresh_stats (stats s !! name h))
    /\ handlers s' = handlers s
    /\ sessions s' = sessions s
    /\ projectConfig s' = projectConfig s.
Proof.
  intros Hskip.
  pose proof (execute_skipped h hookData s Hskip) as He. cbv zeta in He.
  eexists. eexists. eexists. split; [exact He|].
  repeat split.
Qed.

End SkippedInvocation.

Lemma skipped_invocation_logs_and_records_witness :
  exists r s',
    execute quiet_runtime other_tool_handler (Reference.tool_event "Bash")
            (Reference.initial_state [other_tool_handler]) = (Ok r, s')
    /\ success r = true
    /\ (executions <$> (stats s' !! "test-handler")) = Some 1%nat
    /\ List.filter (fun e => negb (is_logging e)) (trace s')
       = [ESaveStats (stats s')].
Proof.
  destruct (skipped_invocation_logs_and_records quiet_runtime other_tool_handler
              (Reference.tool_event "Bash")
              (Reference.initial_state [other_tool_handler]) eq_refl)
    as (r & s' & entry & He & Hr & Ht & Hs & Hex & _).
  exists r, s'. split; [exact He|]. split; [now rewrite Hr|]. split.
  - rewrite Hs. change (name other_tool_handler) with "test-handler".
    rewrite lookup_insert_eq. simpl. now rewrite Hex.
  - rewrite Ht. reflexivity.
Defined.

(** The same invocation refutes the statement without the recording. *)
Lemma skip_records_statistics : ~ skip_has_no_side_effects.
Proof.
  intros Hclaim.
  destruct (Hclaim quiet_runtime other_tool_handler (Reference.tool_event "Bash")
              (Reference.initial_state [other_tool_handler]) eq_refl)
    as (r & s' & evs & He & _ & _ & _ & Hstats).
  rewrite (execute_skipped quiet_runtime other_tool_handler
             (Reference.tool_event "Bash")
             (Reference.initial_state [other_tool_handler]) eq_refl) in He.
  cbv zeta in He. injection He as _ <-. simpl stats in Hstats.
  apply (f_equal (fun m => m !! "test-handler")) in Hstats.
  change (name other_tool_handler) with "test-handler" in Hstats.
  rewrite lookup_insert_eq in Hstats. discriminate Hstats.
Qed.

Section NeverThrows.
Context (rt : Runtime).

(** The result of an invocation that reaches the [switch] with a
    configuration fault. *)
Lemma execute_faulty h hookData s message :
  skips rt h hookData = false ->
  configuration_fault h = Some message ->
  exists s',
    execute rt h hookData s
    = (Ok (set_duration (measured_duration rt s)
             (set_success false (set_error (Some message) (initial_result h)))), s').
Proof.
  intros Hskip Hfault. eexists.
  eapply execute_of_try_throw.
  - rewrite (execute_try_run rt _ _ _ _ Hskip).
    apply (strategy_fault rt _ _ _ _ _ Hfault).
  - reflexivity.
Qed.

End NeverThrows.

Section ResultName.
Context (rt : Runtime).

Lemma onExit_json_handler code stdout stderr_text result :
  handler (onExit_json rt code stdout stderr_text result) = handler result.
Proof.
  unfold onExit_json.
  repeat match goal with
         | |- context [if ?b then _ else _] => destruct b
         | |- context [match JSON_parse rt ?t with _ => _ end] => destruct (JSON_parse rt t)
         end; simpl; rewrite ?(proj2 (proj2 (handle_ccguard_keeps _ _))); reflexivity.
Qed.

Lemma onExit_plain_handler code stdout stderr_text result :
  handler (onExit_plain code stdout stderr_text result) = handler result.
Proof.
  unfold onExit_plain.
  repeat match goal with
         | |- context [if ?b then _ else _] => destruct b
         end; reflexivity.
Qed.

Lemma spawn_and_wait_handler request onExit result s r s' :
  (forall c o e x, handler (onExit c o e x) = handler x) ->
  spawn_and_wait rt request onExit result s = (Ok r, s') ->
  handler r = handler result.
Proof.
  intros Hk. unfold spawn_and_wait, bind, emit, modify, ret, throw. simpl.
  destruct (spawn rt request) as [e|child]; [discriminate|].
  destruct (child_event child); intros [= <- _]; [apply Hk|reflexivity].
Qed.

Lemma strategy_handler h hookData result s r s' :
  strategy rt h hookData result s = (Ok r, s') -> handler r = handler result.
Proof.
  unfold strategy, executeVelcroHandler, executeCommandHandler,
    executeScriptHandler, executeFunctionHandler, executeExternalHandler.
  destruct (type h).
  - destruct (truthy_str (code h)); simpl; [|discriminate].
    apply spawn_and_wait_handler, onExit_plain_handler.
  - destruct (truthy_str (command h)); simpl; [|discriminate].
    apply spawn_and_wait_handler, onExit_json_handler.
  - destruct (truthy_str (script h)); simpl; [|discriminate].
    unfold bind, emit, modify, ret, throw. simpl.
    destruct (readFile rt _) as [e|content]; [discriminate|].
    destruct (_ || _).
    + simpl. destruct (eval_async rt content hookData) as [e|[e|v]];
        [discriminate| |]; intros [= <- _]; reflexivity.
    + apply spawn_and_wait_handler, onExit_plain_handler.
  - destruct (truthy_str (code h)); simpl; [|discriminate].
    unfold bind, emit, modify, ret, throw. simpl.
    destruct (eval_async rt _ hookData) as [e|[e|[v|]]];
      try (intros [= <- _]; reflexivity).
    repeat match goal with
           | |- context [if ?b then _ else _] => destruct b
           end; intros [= <- _]; reflexivity.
  - destruct (truthy_str (command h)); simpl; [|discriminate].
    apply spawn_and_wait_handler, onExit_json_handler.
  - discriminate.
Qed.

(** The result of an execution carries the name of its handler. *)
Lemma execute_handler_name h hookData s r s' :
  execute rt h hookData s = (Ok r, s') -> handler r = name h.
Proof.
  destruct (execute_try rt h hookData (initial_result h) (tick s)) as [[r0|e] s2] eqn:Htry.
  - rewrite (execute_of_try_ok rt h hookData s r0 s2 Htry). intros [= <- _]. simpl.
    destruct (skips rt h hookData) eqn:Hskip.
    + rewrite (execute_try_skip rt _ _ _ _ Hskip) in Htry. now injection Htry as <- _.
    + rewrite (execute_try_run rt _ _ _ _ Hskip) in Htry.
      apply (strategy_handler _ _ _ _ _ _ Htry).
  - destruct (execute_catch_ok h (initial_result h) e s2) as (r0 & s3 & Hc & _ & _).
    rewrite (execute_of_try_throw rt h hookData s e s2 r0 s3 Htry Hc).
    intros [= <- _]. simpl. revert Hc.
    unfold execute_catch, bind, logger, emit, modify, ret.
    destruct (thrown_is_Error e && thrown_has_blockExecution e);
      intros [= <- _]; reflexivity.
Qed.

End ResultName.

Section SettleAll.
Context (rt : Runtime).

(** Every execution is started and followed to its settlement. *)
Lemma dispatch_settles hookData hs : forall s,
  exists settled s',
    dispatch rt hookData hs s = (Ok settled, s')
    /\ length settled = length hs
    /\ Forall2 settles_for hs settled.
Proof.
  induction hs as [|h rest IH]; intros s.
  - exists [], s. repeat split. constructor.
  - simpl. unfold bind at 1. unfold try_catch, bind at 1.
    destruct (execute_resolves rt h hookData s) as (r0 & s1 & He & _).
    pose proof (execute_handler_name rt h hookData s _ _ He) as Hname.
    rewrite He. simpl.
    unfold bind at 1. destruct (IH s1) as (settled & s2 & -> & Hlen & Hall).
    eexists. exists s2. split; [reflexivity|]. split; [simpl; now rewrite Hlen|].
    constructor; [|exact Hall]. eexists. split; [reflexivity|exact Hname].
Qed.

Lemma map_snd_combine_eq {A B} (l : list A) : forall (l' : list B),
  length l' = length l -> map snd (combine l l') = l'.
Proof.
  induction l as [|a l IH]; intros [|b l'] Hlen; simpl in *; try discriminate.
  - reflexivity.
  - f_equal. apply IH. lia.
Qed.

Lemma lookup_combine {A B} (l : list A) : forall (l' : list B) i a b,
  l !! i = Some a -> l' !! i = Some b -> combine l l' !! i = Some (a, b).
Proof.
  induction l as [|x l IH]; intros [|y l'] [|i] a b Ha Hb; simpl in *;
    try discriminate.
  - congruence.
  - now apply IH.
Qed.

(** The loop of the endpoint on the settled executions of [hs]. *)
Lemma aggregation_closed_form (hs : list Handler) (settled : list PromiseSettledResult)
    (s : State) :
  length settled = length hs ->
  exists t s',
    process_results (combine hs settled) (mkTracking [] false None) s = (Ok t, s')
    /\ results t = map entry_of (combine hs settled)
    /\ blocked t = existsb blocks (fulfilled_values settled)
    /\ blockingResult t = last (List.filter blocks (fulfilled_values settled)).
Proof.
  intros Hlen.
  destruct (process_results_eq (combine hs settled) (mkTracking [] false None) s)
    as [evs ->].
  destruct (tracking_closed_form (combine hs settled) (mkTracking [] false None))
    as (Hr & Hb & Hl).
  cbv zeta in *. rewrite (map_snd_combine_eq hs settled Hlen) in Hb, Hl.
  eexists. eexists. split; [reflexivity|]. split; [exact Hr|]. split; [exact Hb|].
  rewrite Hl. now destruct (last _).
Qed.

Lemma build_response_handlers t : r_handlers (build_response t) = length (results t).
Proof.
  unfold build_response.
  destruct (blocked t); [|reflexivity].
  destruct (blockingResult t) as [b|]; [|reflexivity].
  destruct (has_object_response b); reflexivity.
Qed.

(** The endpoint answers with one entry per resolved handler. *)
Lemma post_hooks_counts_every_handler hookData s :
  exists resp s',
    post_hooks rt hookData s = (Ok (Status200 resp), s')
    /\ r_handlers resp
       = length (omap (resolve_one s (loaded_config rt hookData s) hookData) (handlers s)).
Proof.
  unfold post_hooks, try_catch, bind at 1. simpl.
  unfold bind at 1. simpl. unfold bind at 1.
  match goal with
  | |- context [resolveHandlers rt hookData ?st] =>
      destruct (resolveHandlers_spec rt hookData st) as [s1 ->]
  end.
  unfold bind at 1. simpl. unfold bind at 1.
  match goal with
  | |- context [dispatch rt hookData ?hs ?st] =>
      destruct (dispatch_settles hookData hs st) as (settled & s2 & -> & Hlen & _)
  end.
  unfold bind at 1.
  match goal with
  | |- context [process_results (combine ?hs settled) ?t0 s2] =>
      destruct (aggregation_closed_form hs settled s2 Hlen) as (t & s3 & -> & Hr & _)
  end.
  eexists. eexists. split; [reflexivity|].
  rewrite build_response_handlers, Hr, length_map, length_combine, Hlen.
  apply Nat.min_id.
Qed.

(** C2, where the code departs from it.  The decision is blocked as soon as
    one fulfilled result blocks, but [blockingResult] is overwritten by
    every blocking result of the loop: the handler and the message that the
    response reports are those of the last blocking result in resolution
    order, not of the first. *)
Theorem last_blocking_result_is_reported (s : State) (hs : list Handler)
    (settled : list PromiseSettledResult) (r_first r_last : HookExecutionResult) :
  length settled = length hs ->
  head (List.filter blocks (fulfilled_values settled)) = Some r_first ->
  last (List.filter blocks (fulfilled_values settled)) = Some r_last ->
  exists t s',
    process_results (combine hs settled) (mkTracking [] false None) s = (Ok t, s')
    /\ r_success (build_response t) = false
    /\ r_blocked (build_response t) = Some true
    /\ r_blockingHandler (build_response t) = Some (handler r_last)
    /\ (has_object_response r_last = false ->
        r_blockingMessage (build_response t) = Some (or_operation_blocked (stderr r_last)))
    /\ (has_object_response r_last = true ->
        r_reason (build_response t) = prop (default JNull (response r_last)) "reason").
Proof.
  intros Hlen Hfirst Hlast.
  destruct (aggregation_closed_form hs settled s Hlen) as (t & s' & He & _ & Hb & Hl).
  exists t, s'. split; [exact He|].
  assert (blocked t = true) as Hblocked.
  { rewrite Hb. apply existsb_exists. exists r_first.
    destruct (List.filter blocks (fulfilled_values settled)) as [|x l] eqn:Hf;
      [discriminate|].
    injection Hfirst as ->.
    assert (In r_first (List.filter blocks (fulfilled_values settled))) as Hin
      by (rewrite Hf; now left).
    apply filter_In in Hin. exact Hin. }
  rewrite Hlast in Hl.
  unfold build_response. rewrite Hblocked, Hl.
  destruct (has_object_response r_last); repeat split; try discriminate; reflexivity.
Qed.

End SettleAll.

Lemma last_blocking_result_is_reported_witness :
  exists t s',
    process_results (combine two_guards two_blocked) (mkTracking [] false None)
                    (Reference.initial_state two_guards) = (Ok t, s')
    /\ r_success (build_response t) = false
    /\ r_blocked (build_response t) = Some true
    /\ r_blockingHandler (build_response t) = Some "second-guard"
    /\ r_blockingMessage (build_response t) = Some "second reason".
Proof.
  destruct (last_blocking_result_is_reported (Reference.initial_state two_guards)
              two_guards two_blocked
              (blocking "first-guard" "first reason")
              (blocking "second-guard" "second reason") eq_refl eq_refl eq_refl)
    as (t & s' & He & Hs & Hb & Hh & Hm & _).
  exists t, s'. split; [exact He|]. split; [exact Hs|]. split; [exact Hb|].
  split; [exact Hh|]. exact (Hm eq_refl).
Defined.

(** ** The repository's unit tests, replayed on the model

    tests/unit/handlers/executor.test.ts, exit-codes.test.ts and
    matcher.test.ts, with the mocked child process as the runtime's child. *)

Section UnitTests.

Example test_exit_code_2_blocks :
  run_command (mkChild "" "Blocking reason" (ChildExit (Some 2))) "exit 2"
  = Ok (mkResult "test-command" false (Some "") (Some "Blocking reason") (Some 2)
                 None (Some true) None 5).
Proof. reflexivity. Qed.

(** Scenario B of the specification. *)
Example test_json_block_with_exit_0 :
  run_command (mkChild block_text "" (ChildExit (Some 0))) "echo block"
  = Ok (mkResult "test-command" false (Some "") (Some "") (Some 0)
                 (Some (JObj [("decision", JStr "block");
                              ("reason", JStr "Policy violation")]))
                 (Some true) None 5).
Proof. reflexivity. Qed.

Example test_exit_code_0_is_success :
  run_command (mkChild "" "" (ChildExit (Some 0))) "exit 0"
  = Ok (mkResult "test-command" true (Some "") (Some "") (Some 0) None None None 5).
Proof. reflexivity. Qed.

Example test_exit_code_1_is_failure :
  run_command (mkChild "" "" (ChildExit (Some 1))) "exit 1"
  = Ok (mkResult "test-command" false (Some "") (Some "") (Some 1) None None None 5).
Proof. reflexivity. Qed.

Example test_spawn_error :
  run_command (mkChild "" "" (ChildError "Command not found")) "test-command"
  = Ok (mkResult "test-command" false None None None None None
                 (Some "Command not found") 5).
Proof. reflexivity. Qed.

Example test_command_without_command_field :
  fst (execute quiet_runtime
         (mkHandler "test-command" true [PreToolUse] TCommand None None None None None
                    [] None SrcVelcro true)
         mockHookData (Reference.initial_state []))
  = Ok (mkResult "test-command" false None None None None None
                 (Some "Command handler test-command has no command") 5).
Proof. reflexivity. Qed.

Example test_velcro_without_code :
  fst (execute quiet_runtime
         (mkHandler "test-velcro" true [PreToolUse] TVelcro None None None None None
                    [] None SrcVelcro true)
         mockHookData (Reference.initial_state []))
  = Ok (mkResult "test-velcro" false None None None None None
                 (Some "Velcro handler test-velcro has no code") 5).
Proof. reflexivity. Qed.

Example test_matcher_exact_tool_name :
  matches (Some "Bash") (Reference.tool_event "Bash") = (Ok true, []).
Proof. reflexivity. Qed.

Example test_matcher_different_tool_name :
  matches (Some "Git") (Reference.tool_event "Bash") = (Ok false, []).
Proof. reflexivity. Qed.

Example test_matcher_wildcard :
  matches (Some "*") (Reference.tool_event "Bash") = (Ok true, []).
Proof. reflexivity. Qed.

Example test_matcher_empty :
  matches (Some "") (Reference.tool_event "Bash") = (Ok true, []).
Proof. reflexivity. Qed.

Example test_matcher_undefined :
  matches None (Reference.tool_event "Bash") = (Ok true, []).
Proof. reflexivity. Qed.

Example test_matcher_invalid_regex :
  matches (Some "[") (Reference.tool_event "Bash")
  = (Ok true, [EConsoleError "Invalid matcher regex: ["]).
Proof. reflexivity. Qed.

Example test_matcher_non_tool_wildcard :
  matches (Some "*") Reference.prompt_event = (Ok true, []).
Proof. reflexivity. Qed.

Example test_matcher_non_tool_specific :
  matches (Some "SomeToolName") Reference.prompt_event = (Ok false, []).
Proof. reflexivity. Qed.

End UnitTests.

(** * Further properties of the stores and of the strategies *)

#[local] Set Warnings "-clear-no-such-hyp".
#[local] Set Warnings "-inexact-float".

(** ** The session store *)

Section SessionStore.
Context (rt : Runtime).

Lemma isHookEnabled_in store sid n :
  SessionStateManager.isHookEnabledForSession store sid n
  = store !! sid ≫= fun session => override_in session n.
Proof.
  unfold SessionStateManager.isHookEnabledForSession, override_in.
  destruct (store !! sid); reflexivity.
Qed.

Lemma enableHook_store sid n s :
  exists session,
    store_after (SessionStateManager.enableHookForSession rt sid n) s
    = <[sid := session]> (sessions s)
    /\ enabledHooks session
       = default ∅ (enabledHooks <$> sessions s !! sid) ∪ {[ n ]}
    /\ disabledHooks session
       = default ∅ (disabledHooks <$> sessions s !! sid) ∖ {[ n ]}.
Proof.
  unfold store_after, SessionStateManager.enableHookForSession,
    SessionStateManager.getOrCreateSession, bind, get_state, modify, ret, Date_now.
  destruct (sessions s !! sid) as [old|] eqn:Hold; simpl.
  - eexists. split; [reflexivity|]. split; reflexivity.
  - eexists. split; [simpl; rewrite insert_insert_eq; reflexivity|].
    split; reflexivity.
Qed.

Lemma disableHook_store sid n s :
  exists session,
    store_after (SessionStateManager.disableHookForSession rt sid n) s
    = <[sid := session]> (sessions s)
    /\ enabledHooks session
       = default ∅ (enabledHooks <$> sessions s !! sid) ∖ {[ n ]}
    /\ disabledHooks session
       = default ∅ (disabledHooks <$> sessions s !! sid) ∪ {[ n ]}.
Proof.
  unfold store_after, SessionStateManager.disableHookForSession,
    SessionStateManager.getOrCreateSession, bind, get_state, modify, ret, Date_now.
  destruct (sessions s !! sid) as [old|] eqn:Hold; simpl.
  - eexists. split; [reflexivity|]. split; reflexivity.
  - eexists. split; [simpl; rewrite insert_insert_eq; reflexivity|].
    split; reflexivity.
Qed.

(** The override of [(sid', n')] in a store where the session [sid] has been
    replaced. *)
Lemma override_after_insert store sid session sid' n' :
  SessionStateManager.isHookEnabledForSession (<[sid := session]> store) sid' n'
  = if bool_decide (sid' = sid) then override_in session n'
    else SessionStateManager.isHookEnabledForSession store sid' n'.
Proof.
  rewrite !isHookEnabled_in. case_bool_decide as Hsid.
  - subst. now rewrite lookup_insert_eq.
  - now rewrite lookup_insert_ne by congruence.
Qed.

Lemma override_in_updated (E D E' D' : gset string) c m u l k ft n n' b :
  (n ∈ E' <-> b = true) -> (n ∈ D' <-> b = false) ->
  (forall x, x <> n -> (x ∈ E' <-> x ∈ E) /\ (x ∈ D' <-> x ∈ D)) ->
  override_in (mkSession k E' D' c m ft) n'
  = if bool_decide (n' = n) then Some b
    else override_in (mkSession l E D u m ft) n'.
Proof.
  intros HE HD Hother. unfold override_in. simpl.
  destruct (decide (n' = n)) as [Hn|Hn].
  - rewrite (bool_decide_eq_true_2 (n' = n)) by exact Hn. subst n'. destruct b.
    + rewrite (bool_decide_eq_false_2 (n ∈ D')) by (rewrite HD; discriminate).
      now rewrite (bool_decide_eq_true_2 (n ∈ E')) by (now apply HE).
    + now rewrite (bool_decide_eq_true_2 (n ∈ D')) by (now apply HD).
  - rewrite (bool_decide_eq_false_2 (n' = n)) by exact Hn.
    destruct (Hother n' Hn) as [He Hd].
    rewrite (bool_decide_ext _ _ Hd), (bool_decide_ext _ _ He). reflexivity.
Qed.

Lemma override_in_sets session session' n' :
  enabledHooks session' = enabledHooks session ->
  disabledHooks session' = disabledHooks session ->
  override_in session' n' = override_in session n'.
Proof. unfold override_in. now intros -> ->. Qed.

(** The override of [(sid', n')] once the session [sid] has been replaced by
    one that differs from the old one in the name [n] at most. *)
Lemma override_after_update (s : State) (sid n sid' n' : string)
    (session : SessionHookState) (b : bool) :
  (n ∈ enabledHooks session <-> b = true) ->
  (n ∈ disabledHooks session <-> b = false) ->
  (forall x, x <> n ->
     (x ∈ enabledHooks session
      <-> x ∈ default ∅ (enabledHooks <$> sessions s !! sid))
     /\ (x ∈ disabledHooks session
         <-> x ∈ default ∅ (disabledHooks <$> sessions s !! sid))) ->
  SessionStateManager.isHookEnabledForSession
    (<[sid := session]> (sessions s)) sid' n'
  = (if bool_decide (sid' = sid /\ n' = n) then Some b
     else SessionStateManager.isHookEnabledForSession (sessions s) sid' n').
Proof.
  intros HE HD Hother. rewrite override_after_insert.
  destruct (decide (sid' = sid)) as [Hsid|Hsid].
  - rewrite (bool_decide_eq_true_2 (sid' = sid)) by exact Hsid.
    subst sid'. destruct session as [k E' D' c m ft].
    rewrite (override_in_updated
               (default ∅ (enabledHooks <$> sessions s !! sid))
               (default ∅ (disabledHooks <$> sessions s !! sid))
               E' D' c m 0 "" k ft n n' b HE HD Hother).
    destruct (decide (n' = n)) as [Hn|Hn].
    + now rewrite !bool_decide_eq_true_2.
    + rewrite (bool_decide_eq_false_2 (n' = n)) by exact Hn.
      rewrite bool_decide_eq_false_2 by tauto.
      rewrite isHookEnabled_in. destruct (sessions s !! sid) as [old|]; simpl.
      * now apply override_in_sets.
      * unfold override_in. simpl.
        rewrite !bool_decide_eq_false_2 by set_solver. reflexivity.
  - rewrite (bool_decide_eq_false_2 (sid' = sid)) by exact Hsid.
    rewrite bool_decide_eq_false_2 by tauto. reflexivity.
Qed.

(** X1.  The override of a pair (session, handler) is the last write:
    after [enableHookForSession] it is "enabled", after
    [disableHookForSession] "disabled", whatever was recorded before; the
    override of every other pair is what it was. *)
Theorem session_override_is_last_write (sid n sid' n' : string) (s : State) :
  SessionStateManager.isHookEnabledForSession
    (store_after (SessionStateManager.enableHookForSession rt sid n) s) sid' n'
  = (if bool_decide (sid' = sid /\ n' = n) then Some true
     else SessionStateManager.isHookEnabledForSession (sessions s) sid' n')
  /\ SessionStateManager.isHookEnabledForSession
       (store_after (SessionStateManager.disableHookForSession rt sid n) s) sid' n'
     = (if bool_decide (sid' = sid /\ n' = n) then Some false
        else SessionStateManager.isHookEnabledForSession (sessions s) sid' n').
Proof.
  split.
  - destruct (enableHook_store sid n s) as (session & -> & He & Hd).
    apply override_after_update; rewrite ?He, ?Hd; [set_solver|set_solver|].
    intros x Hx. set_solver.
  - destruct (disableHook_store sid n s) as (session & -> & He & Hd).
    apply override_after_update; rewrite ?He, ?Hd; [set_solver|set_solver|].
    intros x Hx. set_solver.
Qed.

Lemma fold_delete_lookup (l : list string) : forall (m : gmap string SessionHookState) sid,
  fold_left (fun m k => delete k m) l m !! sid
  = if bool_decide (sid ∈ l) then None else m !! sid.
Proof.
  induction l as [|k l IH]; intros m sid; cbn [fold_left].
  - rewrite bool_decide_eq_false_2 by set_solver. reflexivity.
  - rewrite IH. destruct (decide (sid ∈ l)) as [Hin|Hin].
    + rewrite !bool_decide_eq_true_2 by set_solver. reflexivity.
    + rewrite (bool_decide_eq_false_2 (sid ∈ l)) by exact Hin.
      destruct (decide (sid = k)) as [->|Hne].
      * rewrite bool_decide_eq_true_2 by set_solver. apply lookup_delete_eq.
      * rewrite bool_decide_eq_false_2 by set_solver.
        apply lookup_delete_ne. congruence.
Qed.

Lemma expired_sessions_spec now maxAge (store : gmap string SessionHookState) sid :
  sid ∈ SessionStateManager.expired_sessions now maxAge store
  <-> exists session, store !! sid = Some session
                      /\ maxAge < now - lastModified session.
Proof.
  unfold SessionStateManager.expired_sessions. rewrite list_elem_of_fmap. split.
  - intros ([k session] & -> & Hin). apply list_elem_of_In, filter_In in Hin.
    destruct Hin as [Hin Hold]. apply list_elem_of_In, elem_of_map_to_list in Hin.
    exists session. split; [exact Hin|]. simpl in Hold. now apply Z.ltb_lt.
  - intros (session & Hs & Hold). exists (sid, session). split; [reflexivity|].
    apply list_elem_of_In, filter_In. split.
    + apply list_elem_of_In, elem_of_map_to_list. exact Hs.
    + simpl. now apply Z.ltb_lt.
Qed.

(** X2.  [cleanupOldSessions] deletes exactly the sessions last modified
    more than [maxAgeMs] (by default 24 hours) before the clock reading it
    takes; a session whose age is exactly [maxAgeMs] is kept, and the
    sessions that stay are unchanged. *)
Theorem cleanup_deletes_exactly_the_old (maxAgeMs : option Z) (s : State) (sid : string) :
  let now := clock_reading rt (ticks s) in
  let maxAge := default SessionStateManager.default_maxAgeMs maxAgeMs in
  store_after (SessionStateManager.cleanupOldSessions rt maxAgeMs) s !! sid
  = match sessions s !! sid with
    | Some session =>
        if Z.ltb maxAge (now - lastModified session) then None else Some session
    | None => None
    end.
Proof.
  cbv zeta. unfold store_after, SessionStateManager.cleanupOldSessions, bind, Date_now,
    modify. simpl. rewrite fold_delete_lookup.
  destruct (sessions s !! sid) as [session|] eqn:Hs.
  - destruct (Z.ltb_spec (default SessionStateManager.default_maxAgeMs maxAgeMs)
                (clock_reading rt (ticks s) - lastModified session)) as [Hold|Hyoung].
    + rewrite bool_decide_eq_true_2; [reflexivity|].
      apply expired_sessions_spec. eauto.
    + rewrite bool_decide_eq_false_2; [reflexivity|].
      intros (session' & Hs' & Hold)%expired_sessions_spec.
      rewrite Hs in Hs'. injection Hs' as <-. lia.
  - now destruct (bool_decide _).
Qed.

(** X3.  The two name sets of every session stay disjoint under every
    operation of the store: enabling removes the name from the disabled
    set and disabling removes it from the enabled set; clearing and
    cleaning up only delete sessions. *)
Theorem session_sets_stay_disjoint (sid n : string) (maxAgeMs : option Z) (s : State) :
  sessions_disjoint (sessions s) ->
  sessions_disjoint (store_after (SessionStateManager.enableHookForSession rt sid n) s)
  /\ sessions_disjoint (store_after (SessionStateManager.disableHookForSession rt sid n) s)
  /\ sessions_disjoint (store_after (SessionStateManager.clearSession sid) s)
  /\ sessions_disjoint (store_after (SessionStateManager.cleanupOldSessions rt maxAgeMs) s).
Proof.
  intros Hinv.
  assert (default ∅ (enabledHooks <$> sessions s !! sid)
          ## default ∅ (disabledHooks <$> sessions s !! sid)) as Hsid.
  { destruct (sessions s !! sid) as [old|] eqn:Hold; simpl; [|set_solver].
    apply (Hinv sid old Hold). }
  split; [|split; [|split]].
  - destruct (enableHook_store sid n s) as (session & -> & He & Hd).
    intros k x Hk. destruct (decide (k = sid)) as [->|Hne].
    + rewrite lookup_insert_eq in Hk. injection Hk as <-. rewrite He, Hd. set_solver.
    + rewrite lookup_insert_ne in Hk by congruence. apply (Hinv k x Hk).
  - destruct (disableHook_store sid n s) as (session & -> & He & Hd).
    intros k x Hk. destruct (decide (k = sid)) as [->|Hne].
    + rewrite lookup_insert_eq in Hk. injection Hk as <-. rewrite He, Hd. set_solver.
    + rewrite lookup_insert_ne in Hk by congruence. apply (Hinv k x Hk).
  - intros k x Hk. unfold store_after, SessionStateManager.clearSession, modify in Hk.
    simpl in Hk. apply lookup_delete_Some in Hk as [_ Hk]. apply (Hinv k x Hk).
  - intros k x Hk.
    unfold store_after, SessionStateManager.cleanupOldSessions, bind, Date_now, modify in Hk.
    simpl in Hk. rewrite fold_delete_lookup in Hk.
    destruct (bool_decide _); [discriminate|]. apply (Hinv k x Hk).
Qed.

(** X4.  After [clearSession] the session has no override for any handler,
    and the overrides of the other sessions are what they were. *)
Theorem clearSession_drops_every_override (sid sid' n : string) (s : State) :
  SessionStateManager.isHookEnabledForSession
    (store_after (SessionStateManager.clearSession sid) s) sid' n
  = if bool_decide (sid' = sid) then None
    else SessionStateManager.isHookEnabledForSession (sessions s) sid' n.
Proof.
  unfold store_after, SessionStateManager.clearSession, modify. simpl.
  rewrite !isHookEnabled_in.
  destruct (decide (sid' = sid)) as [->|Hne].
  - rewrite bool_decide_eq_true_2 by reflexivity. now rewrite lookup_delete_eq.
  - rewrite bool_decide_eq_false_2 by exact Hne.
    now rewrite lookup_delete_ne by congruence.
Qed.

End SessionStore.

(** ** The statistics recorder *)

Section StatsRecorder.
Context (rt : Runtime).

Lemma record_all_accumulates handlerName runs : forall s,
  let s' := snd (record_all rt handlerName runs s) in
  let st := entry_or_fresh s handlerName in
  let st' := entry_or_fresh s' handlerName in
  executions st' = (executions st + length runs)%nat
  /\ failures st' = (failures st + failures_of runs)%nat
  /\ totalDuration st' = totalDuration st + total_of runs
  /\ (forall other, other <> handlerName -> stats s' !! other = stats s !! other)
  /\ (runs <> [] ->
      stats s' !! handlerName = Some st'
      /\ avgDuration st'
         = PrimFloat.div (number (totalDuration st'))
                         (number (Z.of_nat (executions st')))
      /\ successRate st'
         = PrimFloat.mul
             (PrimFloat.div
                (number (Z.of_nat (executions st') - Z.of_nat (failures st')))
                (number (Z.of_nat (executions st'))))
             (number 100)).
Proof.
  induction runs as [|r rest IH]; intros s; cbv zeta.
  - simpl. unfold failures_of. simpl.
    split; [lia|]. split; [lia|]. split; [lia|]. split; [reflexivity|].
    intros H. now contradiction H.
  - pose (s1 := recorded rt handlerName (rec_duration r) (rec_success r)
                         (rec_error r) s).
    change (record_all rt handlerName (r :: rest) s)
      with (record_all rt handlerName rest s1).
    specialize (IH s1). cbv zeta in IH. destruct IH as (Hex & Hfl & Htot & Hother & Hlast).
    assert (entry_or_fresh s1 handlerName
            = updated_stats (entry_or_fresh s handlerName) (rec_duration r)
                (rec_success r) (rec_error r) (clock_reading rt (ticks s))) as H1.
    { unfold entry_or_fresh, s1. rewrite recorded_eq. simpl.
      now rewrite lookup_insert_eq. }
    rewrite H1 in Hex, Hfl, Htot.
    split; [rewrite Hex; simpl; lia|].
    split; [rewrite Hfl; unfold failures_of; simpl;
            destruct (rec_success r); simpl; lia|].
    split; [rewrite Htot; simpl; lia|].
    split.
    + intros other Hne. rewrite (Hother other Hne). unfold s1.
      rewrite recorded_eq. simpl. apply lookup_insert_ne. congruence.
    + intros _. destruct rest as [|r' rest'].
      * change (snd (record_all rt handlerName [] s1)) with s1.
        rewrite H1. unfold s1. rewrite recorded_eq. cbn [stats].
        rewrite lookup_insert_eq. repeat split.
      * apply Hlast. discriminate.
Qed.

(** X5.  Starting without an entry, after N calls of [recordExecution] for
    a handler, F of them failures, with durations that add up to D, the
    entry has executions N, failures F and total duration D; its average
    duration is the floating-point quotient of the numbers D and N, and
    its success rate the floating-point quotient of N-F and N multiplied
    by 100, each rounded as binary64 arithmetic rounds (so 10/3 is stored
    as 3.3333333333333335); the entries of the other handlers are what
    they were. *)
Theorem stats_after_n_executions (handlerName : string) (runs : list Recording)
    (s : State) :
  stats s !! handlerName = None ->
  runs <> [] ->
  let s' := snd (record_all rt handlerName runs s) in
  let N := length runs in
  let F := failures_of runs in
  let D := total_of runs in
  (exists st,
     stats s' !! handlerName = Some st
     /\ executions st = N
     /\ failures st = F
     /\ totalDuration st = D
     /\ avgDuration st = PrimFloat.div (number D) (number (Z.of_nat N))
     /\ successRate st
        = PrimFloat.mul
            (PrimFloat.div (number (Z.of_nat N - Z.of_nat F)) (number (Z.of_nat N)))
            (number 100))
  /\ (forall other, other <> handlerName -> stats s' !! other = stats s !! other).
Proof.
  intros Hnone Hruns. cbv zeta.
  destruct (record_all_accumulates handlerName runs s) as (Hex & Hfl & Htot & Hother & Hlast).
  cbv zeta in *. destruct (Hlast Hruns) as (Hs & Havg & Hrate).
  unfold entry_or_fresh at 2 in Hex. unfold entry_or_fresh at 2 in Hfl.
  unfold entry_or_fresh at 2 in Htot. rewrite Hnone in Hex, Hfl, Htot. simpl in Hex, Hfl, Htot.
  split; [|exact Hother].
  eexists. split; [exact Hs|].
  rewrite Havg, Hrate, Hex, Hfl, Htot.
  repeat split.
Qed.

Lemma resetStats_state handlerName s :
  snd (StatsManager.resetStats handlerName s)
  = let m := if truthy_str handlerName
             then delete (default "" handlerName) (stats s) else ∅ in
    mkState (handlers s) (sessions s) (projectConfig s) m (ticks s)
            (trace s ++ [ESaveStats m]).
Proof.
  unfold StatsManager.resetStats, bind, modify, get_state, emit.
  destruct (truthy_str handlerName); reflexivity.
Qed.

(** X6.  [resetStats(name)] with a non-empty name forgets that handler
    and nothing else; without a name, and also with the empty string, it
    forgets every handler.  The map is saved, and the next execution of a
    forgotten handler starts again from zero. *)
Theorem resetStats_forgets (handlerName : option string) (s : State) :
  let s' := snd (StatsManager.resetStats handlerName s) in
  (forall k,
     stats s' !! k
     = if truthy_str handlerName
       then (if bool_decide (k = default "" handlerName) then None else stats s !! k)
       else None)
  /\ trace s' = trace s ++ [ESaveStats (stats s')]
  /\ (forall n duration success error,
        (handlerName = Some n \/ truthy_str handlerName = false) ->
        executions <$> (stats (recorded rt n duration success error s') !! n) = Some 1%nat).
Proof.
  rewrite resetStats_state. cbv zeta.
  split; [|split; [reflexivity|]].
  - intros k. cbn [stats]. destruct (truthy_str handlerName).
    + destruct (decide (k = default "" handlerName)) as [->|Hne].
      * rewrite bool_decide_eq_true_2 by reflexivity. apply lookup_delete_eq.
      * rewrite bool_decide_eq_false_2 by exact Hne.
        apply lookup_delete_ne. congruence.
    + apply lookup_empty.
  - intros n duration success error Hname.
    rewrite recorded_eq. cbn [stats]. rewrite lookup_insert_eq.
    cbn [fmap option_fmap option_map updated_stats executions]. f_equal. f_equal.
    destruct Hname as [->|Hfalse].
    + destruct (truthy_str (Some n)) eqn:Ht.
      * cbn [default from_option id]. now rewrite lookup_delete_eq.
      * now rewrite lookup_empty.
    + rewrite Hfalse. now rewrite lookup_empty.
Qed.

(** The state in which [execute] leaves the dispatcher: the clock read
    twice and the statistics recorded, after what the [try] and [catch]
    blocks appended to the trace. *)
Lemma execute_state (h : Handler) (hookData : HookData) (s : State) :
  exists r0 evs,
    execute rt h hookData s
    = (Ok (set_duration (measured_duration rt s) r0),
       recorded rt (name h) (measured_duration rt s) (success r0) (error r0)
                (tick (with_trace (trace (tick s) ++ evs) (tick s)))).
Proof.
  destruct (execute_try rt h hookData (initial_result h) (tick s)) as [[r0|e] s2] eqn:Htry.
  - destruct (eto_execute_try rt h hookData (initial_result h) (tick s)) as [evs Hevs].
    rewrite Htry in Hevs. simpl in Hevs.
    exists r0, evs.
    replace (with_trace (trace (tick s) ++ evs) (tick s)) with s2
      by (rewrite Hevs; reflexivity).
    apply (execute_of_try_ok rt h hookData s r0 s2 Htry).
  - destruct (eto_execute_try rt h hookData (initial_result h) (tick s)) as [evs Hevs].
    rewrite Htry in Hevs. simpl in Hevs.
    destruct (execute_catch_ok h (initial_result h) e s2) as (r0 & s3 & Hc & _ & _).
    destruct (eto_execute_catch h (initial_result h) e s2) as [evs' Hevs'].
    rewrite Hc in Hevs'. simpl in Hevs'.
    exists r0, (evs ++ evs').
    replace (with_trace (trace (tick s) ++ evs ++ evs') (tick s)) with s3
      by (subst s3 s2; unfold with_trace; simpl; now rewrite <- app_assoc).
    apply (execute_of_try_throw rt h hookData s e s2 r0 s3 Htry Hc).
Qed.

(** X7.  Every execution is recorded once, with what it returned: after
    [execute], the entry of the handler is the previous one (or the zero
    entry) updated with the duration, the success flag and the error of
    the result, so one more execution, and one more failure exactly when
    the result has [success = false]; the entries of the other handlers
    are what they were, and the saving of the map is the last effect. *)
Theorem execute_records_its_result (h : Handler) (hookData : HookData) (s : State) :
  exists r s',
    execute rt h hookData s = (Ok r, s')
    /\ stats s'
       = <[name h := updated_stats (entry_or_fresh s (name h)) (duration r) (success r)
                                   (error r) (clock_reading rt (S (S (ticks s))))]>
           (stats s)
    /\ (exists st, stats s' !! name h = Some st
                   /\ executions st = S (executions (entry_or_fresh s (name h)))
                   /\ failures st
                      = ((if success r then 0 else 1)
                         + failures (entry_or_fresh s (name h)))%nat
                   /\ totalDuration st
                      = totalDuration (entry_or_fresh s (name h)) + duration r)
    /\ last (trace s') = Some (ESaveStats (stats s')).
Proof.
  assert (forall r0 s2 evs,
            s2 = with_trace (trace (tick s) ++ evs) (tick s) ->
            let d := clock_reading rt (S (ticks s)) - clock_reading rt (ticks s) in
            let r := set_duration d r0 in
            let s' := recorded rt (name h) d (success r0) (error r0) (tick s2) in
            stats s'
            = <[name h := updated_stats (entry_or_fresh s (name h)) (duration r)
                            (success r) (error r) (clock_reading rt (S (S (ticks s))))]>
                (stats s)
            /\ (exists st, stats s' !! name h = Some st
                   /\ executions st = S (executions (entry_or_fresh s (name h)))
                   /\ failures st
                      = ((if success r then 0 else 1)
                         + failures (entry_or_fresh s (name h)))%nat
                   /\ totalDuration st
                      = totalDuration (entry_or_fresh s (name h)) + duration r)
            /\ last (trace s') = Some (ESaveStats (stats s'))) as Hfinal.
  { intros r0 s2 evs ->. cbv zeta. rewrite recorded_eq. cbv zeta. simpl.
    split; [reflexivity|]. split.
    - eexists. split; [apply lookup_insert_eq|]. simpl.
      destruct (success r0); repeat split.
    - apply last_snoc. }
  destruct (execute_state h hookData s) as (r0 & evs & Hex).
  eexists. eexists. split; [exact Hex|].
  apply (Hfinal r0 _ evs eq_refl).
Qed.

End StatsRecorder.

(** ** Handler management in the global configuration *)

Section ConfigManagerProperties.

Lemma findIndex_first n pre h post :
  name h = n -> unnamed_in n pre ->
  ConfigManager.findIndex n (pre ++ h :: post) = Some (length pre).
Proof.
  intros Hn Hpre. induction Hpre as [|g pre Hg _ IH]; simpl.
  - now rewrite (proj2 (String.eqb_eq _ _) Hn).
  - rewrite (proj2 (String.eqb_neq _ _) Hg), IH. reflexivity.
Qed.

Lemma findIndex_absent n hs :
  unnamed_in n hs -> ConfigManager.findIndex n hs = None.
Proof.
  intros Hhs. induction Hhs as [|g hs Hg _ IH]; simpl; [reflexivity|].
  now rewrite (proj2 (String.eqb_neq _ _) Hg), IH.
Qed.

Lemma splice_one_middle (pre : list Handler) h post :
  ConfigManager.splice_one (length pre) (pre ++ h :: post) = pre ++ post.
Proof. induction pre as [|g pre IH]; simpl; [reflexivity|now rewrite IH]. Qed.

Lemma getHandler_app_unnamed n pre hs :
  unnamed_in n pre ->
  ConfigManager.getHandler n (pre ++ hs) = ConfigManager.getHandler n hs.
Proof.
  intros Hpre. induction Hpre as [|g pre Hg _ IH]; simpl; [reflexivity|].
  now rewrite (proj2 (String.eqb_neq _ _) Hg).
Qed.

(** X8.  [removeHandler] removes the first handler of that name and no
    other, saves the configuration and returns [true]: a later handler of
    the same name, if the list has one, is the one [getHandler] finds
    afterwards.  When no handler has the name it returns [false], changes
    nothing and does not save. *)
Theorem removeHandler_removes_the_first (n : string) (pre post : list Handler)
    (h : Handler) :
  name h = n ->
  unnamed_in n pre ->
  ConfigManager.removeHandler n (pre ++ h :: post)
  = ConfigManager.mkChange true (pre ++ post) (Some (pre ++ post))
  /\ ConfigManager.getHandler n (pre ++ post) = ConfigManager.getHandler n post
  /\ ConfigManager.removeHandler n pre = ConfigManager.mkChange false pre None.
Proof.
  intros Hn Hpre. unfold ConfigManager.removeHandler.
  rewrite (findIndex_first n pre h post Hn Hpre), splice_one_middle.
  rewrite (findIndex_absent n pre Hpre).
  split; [reflexivity|]. split; [|reflexivity].
  now apply getHandler_app_unnamed.
Qed.

(** X9.  [addHandler] appends without looking at the names: when the
    configuration already has a handler of that name, [getHandler] keeps
    returning the earlier one, and the new definition is only reached
    once the earlier one is removed. *)
Theorem addHandler_does_not_replace (h : Handler) (hs : list Handler) :
  let after := ConfigManager.handlers_after (ConfigManager.addHandler h hs) in
  ConfigManager.getHandler (name h) after
  = match ConfigManager.getHandler (name h) hs with
    | Some earlier => Some earlier
    | None => Some h
    end
  /\ ConfigManager.saved (ConfigManager.addHandler h hs) = Some after
  /\ length after = S (length hs).
Proof.
  cbv zeta. simpl. split; [|split; [reflexivity|]].
  - unfold ConfigManager.getHandler. induction hs as [|g hs IH]; simpl.
    + now rewrite String.eqb_refl.
    + destruct (String.eqb (name g) (name h)); [reflexivity|exact IH].
  - rewrite length_app. simpl. lia.
Qed.

Lemma removeHandler_removes_the_first_witness :
  ConfigManager.removeHandler "security-check"
    ([pre_only_handler] ++ off_handler :: [off_handler])
  = ConfigManager.mkChange true ([pre_only_handler] ++ [off_handler])
      (Some ([pre_only_handler] ++ [off_handler]))
  /\ ConfigManager.getHandler "security-check" ([pre_only_handler] ++ [off_handler])
     = ConfigManager.getHandler "security-check" [off_handler]
  /\ ConfigManager.removeHandler "security-check" [pre_only_handler]
     = ConfigManager.mkChange false [pre_only_handler] None.
Proof.
  apply (removeHandler_removes_the_first "security-check" [pre_only_handler]
           [off_handler] off_handler).
  - reflexivity.
  - repeat constructor. discriminate.
Defined.

Lemma set_first_enabled_first n b pre h post :
  name h = n -> unnamed_in n pre ->
  ConfigManager.set_first_enabled n b (pre ++ h :: post)
  = pre ++ ConfigManager.set_enabled b h :: post.
Proof.
  intros Hn Hpre. induction Hpre as [|g pre Hg _ IH]; simpl.
  - now rewrite (proj2 (String.eqb_eq _ _) Hn).
  - now rewrite (proj2 (String.eqb_neq _ _) Hg), IH.
Qed.

Lemma getHandler_first n pre h post :
  name h = n -> unnamed_in n pre ->
  ConfigManager.getHandler n (pre ++ h :: post) = Some h.
Proof.
  intros Hn Hpre. rewrite getHandler_app_unnamed by assumption.
  unfold ConfigManager.getHandler. simpl.
  now rewrite (proj2 (String.eqb_eq _ _) Hn).
Qed.

Lemma getHandler_absent n hs :
  unnamed_in n hs -> ConfigManager.getHandler n hs = None.
Proof.
  intros Hhs. unfold ConfigManager.getHandler.
  induction Hhs as [|g hs Hg _ IH]; simpl; [reflexivity|].
  now rewrite (proj2 (String.eqb_neq _ _) Hg).
Qed.

Lemma getHandlersForHook_app t (l1 l2 : list Handler) :
  ConfigManager.getHandlersForHook t (l1 ++ l2)
  = ConfigManager.getHandlersForHook t l1 ++ ConfigManager.getHandlersForHook t l2.
Proof. apply List.filter_app. Qed.

(** X10.  [disableHandler] switches off the first handler of that name,
    which then leaves [getHandlersForHook] for every hook type while the
    handlers around it, a later one of the same name included, stay as they
    were; [enableHandler] on the result switches the same handler on again,
    and it is listed for each hook type it is attached to.  Both save the
    configuration and return [true]; on a name that no handler has they
    return [false] and save nothing. *)
Theorem disableHandler_switches_the_first (n : string) (pre post : list Handler)
    (h : Handler) (t : HookType) :
  name h = n ->
  unnamed_in n pre ->
  let off := pre ++ ConfigManager.set_enabled false h :: post in
  let on := pre ++ ConfigManager.set_enabled true h :: post in
  ConfigManager.disableHandler n (pre ++ h :: post)
  = ConfigManager.mkChange true off (Some off)
  /\ ConfigManager.getHandlersForHook t off
     = ConfigManager.getHandlersForHook t pre ++ ConfigManager.getHandlersForHook t post
  /\ ConfigManager.enableHandler n off = ConfigManager.mkChange true on (Some on)
  /\ ConfigManager.getHandlersForHook t on
     = ConfigManager.getHandlersForHook t pre
       ++ (if includes_hook t (hooks h) then [ConfigManager.set_enabled true h] else [])
       ++ ConfigManager.getHandlersForHook t post
  /\ ConfigManager.disableHandler n pre = ConfigManager.mkChange false pre None
  /\ ConfigManager.enableHandler n pre = ConfigManager.mkChange false pre None.
Proof.
  intros Hn Hpre off on. subst off on.
  unfold ConfigManager.disableHandler, ConfigManager.enableHandler.
  rewrite (getHandler_first n pre h post Hn Hpre).
  rewrite (set_first_enabled_first n false pre h post Hn Hpre).
  assert (Hoff : name (ConfigManager.set_enabled false h) = n) by exact Hn.
  rewrite (getHandler_first n pre _ post Hoff Hpre).
  rewrite (set_first_enabled_first n true pre _ post Hoff Hpre).
  rewrite (getHandler_absent n pre Hpre).
  repeat split.
  - rewrite getHandlersForHook_app. reflexivity.
  - rewrite getHandlersForHook_app. f_equal.
    unfold ConfigManager.getHandlersForHook. simpl.
    destruct (includes_hook t (hooks h)); reflexivity.
Qed.

Lemma disableHandler_switches_the_first_witness :
  ConfigManager.getHandlersForHook PreToolUse
    ([pre_only_handler] ++ ConfigManager.set_enabled true off_handler :: [])
  = ConfigManager.getHandlersForHook PreToolUse [pre_only_handler]
    ++ (if includes_hook PreToolUse (hooks off_handler)
        then [ConfigManager.set_enabled true off_handler] else [])
    ++ ConfigManager.getHandlersForHook PreToolUse [].
Proof.
  apply (disableHandler_switches_the_first "security-check" [pre_only_handler] []
           off_handler PreToolUse).
  - reflexivity.
  - repeat constructor. discriminate.
Defined.

End ConfigManagerProperties.

(** ** The layers of the resolver *)

Section ResolverLayers.
Context (rt : Runtime).

Lemma resolveHandlers_keeps hookData s :
  exists t,
    state_after (resolveHandlers rt hookData) s
    = mkState (handlers s) (sessions s) (loaded_config rt hookData s) (stats s)
              (ticks s) t.
Proof.
  unfold state_after, resolveHandlers, loaded_config, bind at 1, get_state.
  unfold bind at 1.
  destruct (negb (String.eqb (cwd hookData) "")).
  - unfold ProjectConfigManager.loadProjectConfig.
    destruct (find_project_config rt (cwd hookData)) as [path|].
    + destruct (read_project_config rt path) as [parsed|]; simpl.
      * unfold bind at 1.
        destruct (resolve_loop_spec hookData (handlers s) []
                    (with_project (Some parsed) s)) as [evs ->].
        simpl. eexists. reflexivity.
      * unfold bind at 1.
        match goal with
        | |- context [resolve_loop hookData (handlers s) [] ?st] =>
            destruct (resolve_loop_spec hookData (handlers s) [] st) as [evs ->]
        end.
        simpl. eexists. reflexivity.
    + simpl. unfold bind at 1.
      destruct (resolve_loop_spec hookData (handlers s) [] s) as [evs ->].
      simpl. eexists. reflexivity.
  - simpl. unfold bind at 1.
    destruct (resolve_loop_spec hookData (handlers s) [] s) as [evs ->].
    simpl. eexists. reflexivity.
Qed.

Lemma resolved_for_eq hookData s :
  resolved_for rt hookData s
  = omap (resolve_one s (loaded_config rt hookData s) hookData) (handlers s).
Proof.
  unfold resolved_for. destruct (resolveHandlers_spec rt hookData s) as [s' ->].
  reflexivity.
Qed.

Lemma resolve_one_ext s1 s2 pc hookData h :
  sessions s1 = sessions s2 ->
  resolve_one s1 pc hookData h = resolve_one s2 pc hookData h.
Proof.
  intros Hs. unfold resolve_one, should_run, session_override. now rewrite Hs.
Qed.

(** X11.  With no overrides for the session and no [hooks] section in the
    project configuration in force, [resolveHandlers] returns what
    [getHandlersForHook] of the global configuration returns: the handlers
    that are enabled and attached to the event's hook type, unchanged and
    in definition order. *)
Theorem resolver_without_layers (hookData : HookData) (s : State) :
  sessions s !! session_id hookData = None ->
  loaded_config rt hookData s ≫= pc_hooks = None ->
  fst (resolveHandlers rt hookData s)
  = Ok (ConfigManager.getHandlersForHook (hook_event_name hookData) (handlers s)).
Proof.
  intros Hsession Hproject.
  destruct (resolveHandlers_spec rt hookData s) as [s' ->]. simpl. f_equal.
  unfold ConfigManager.getHandlersForHook.
  induction (handlers s) as [|h rest IH]; [reflexivity|].
  rewrite omap_cons_eq, IH. simpl.
  unfold resolve_one, should_run, session_override,
    SessionStateManager.isHookEnabledForSession, project_enabled,
    ProjectConfigManager.isHandlerEnabled, with_overrides,
    ProjectConfigManager.getHandlerOverrides.
  rewrite Hsession, Hproject. simpl.
  rewrite andb_comm. destruct (enabled h && includes_hook _ _); reflexivity.
Qed.

Lemma omap_pointwise {A B} (f g : A -> option B) (l : list A) :
  (forall x, f x = g x) -> omap f l = omap g l.
Proof.
  intros Hfg. induction l as [|x l IH]; [reflexivity|].
  now rewrite !omap_cons_eq, Hfg, IH.
Qed.

Lemma unfold_resolve_one s pc hookData h :
  resolve_one s pc hookData h
  = if should_run s pc hookData h then Some (with_overrides pc h) else None.
Proof. reflexivity. Qed.

(** X12.  The resolved handlers keep the order of the global definitions
    and none is resolved twice: the list is a sublist of the definitions
    with their project overrides applied.  Resolving changes neither the
    definitions, the session overrides nor the statistics. *)
Theorem resolved_in_definition_order (hookData : HookData) (s : State) :
  sublist (resolved_for rt hookData s)
          (map (with_overrides (loaded_config rt hookData s)) (handlers s))
  /\ handlers (state_after (resolveHandlers rt hookData) s) = handlers s
  /\ sessions (state_after (resolveHandlers rt hookData) s) = sessions s
  /\ stats (state_after (resolveHandlers rt hookData) s) = stats s.
Proof.
  split.
  - rewrite resolved_for_eq.
    induction (handlers s) as [|h rest IH]; [constructor|].
    rewrite omap_cons_eq, unfold_resolve_one. simpl.
    destruct (should_run _ _ _ _).
    + now apply sublist_skip.
    + now apply sublist_cons.
  - destruct (resolveHandlers_keeps hookData s) as [t ->]. repeat split.
Qed.

(** X14.  The project configuration is replaced only when one is found and
    read.  After an event of a project directory, an event of a directory
    without a readable configuration is resolved under the configuration
    of the earlier project. *)
Theorem project_config_outlives_its_directory (first later : HookData) (s : State)
    (path : string) (pc : ProjectConfig) :
  cwd first <> "" ->
  find_project_config rt (cwd first) = Some path ->
  read_project_config rt path = Some pc ->
  find_project_config rt (cwd later) ≫= read_project_config rt = None ->
  let s1 := state_after (resolveHandlers rt first) s in
  projectConfig s1 = Some pc
  /\ resolved_for rt later s1
     = omap (resolve_one s (Some pc) later) (handlers s)
  /\ projectConfig (state_after (resolveHandlers rt later) s1) = Some pc.
Proof.
  intros Hcwd Hfind Hread Hlater s1.
  assert (Hfirst : loaded_config rt first s = Some pc).
  { unfold loaded_config. rewrite (proj2 (String.eqb_neq _ _) Hcwd). simpl.
    now rewrite Hfind, Hread. }
  destruct (resolveHandlers_keeps first s) as [t Hs1]. fold s1 in Hs1.
  rewrite Hfirst in Hs1.
  assert (Hconfig : loaded_config rt later s1 = Some pc).
  { unfold loaded_config. rewrite Hs1. simpl.
    destruct (negb (String.eqb (cwd later) "")); [|reflexivity].
    destruct (find_project_config rt (cwd later)) as [p|]; [|reflexivity].
    simpl in Hlater. now rewrite Hlater. }
  split; [now rewrite Hs1|]. split.
  - rewrite resolved_for_eq, Hconfig. rewrite Hs1 at 2. simpl.
    apply omap_pointwise. intros h. apply resolve_one_ext. now rewrite Hs1.
  - destruct (resolveHandlers_keeps later s1) as [t' ->]. simpl. exact Hconfig.
Qed.

Lemma switch_state (c : M unit) (msg : string) (s : State) :
  handlers (snd (c s)) = handlers s ->
  projectConfig (snd (c s)) = projectConfig s ->
  stats (snd (c s)) = stats s ->
  fst (c s) = Ok tt ->
  exists s1,
    (c ;; logger LvInfo msg ;; ret true)%M s = (Ok true, s1)
    /\ handlers s1 = handlers s /\ projectConfig s1 = projectConfig s
    /\ stats s1 = stats s /\ sessions s1 = sessions (snd (c s)).
Proof.
  intros Hh Hp Hst Hok. unfold bind. destruct (c s) as [o s0]. simpl in *.
  subst o. simpl. eexists. split; [reflexivity|]. simpl. auto.
Qed.

Lemma disableHandlerForSession_defined sid n s found :
  ConfigManager.getHandler n (handlers s) = Some found ->
  exists s1,
    disableHandlerForSession rt sid n s = (Ok true, s1)
    /\ handlers s1 = handlers s /\ projectConfig s1 = projectConfig s
    /\ stats s1 = stats s
    /\ sessions s1 = store_after (SessionStateManager.disableHookForSession rt sid n) s.
Proof.
  intros Hfound. unfold disableHandlerForSession, bind at 1, get_state.
  unfold ConfigManager.getHandler in Hfound. rewrite Hfound.
  apply switch_state;
    unfold SessionStateManager.disableHookForSession,
      SessionStateManager.getOrCreateSession, bind, get_state, modify, ret, Date_now;
    destruct (sessions s !! sid); reflexivity.
Qed.

(** X15.  [disableHandlerForSession] on a defined handler returns [true],
    and from then on every event of that session is resolved as before
    but without the handlers of that name, whatever the project and the
    global configuration say.  On a name without a definition both
    [enableHandlerForSession] and [disableHandlerForSession] return [false]
    and change nothing: no session is created. *)
Theorem session_disable_wins (sid n : string) (hookData : HookData) (s : State) :
  session_id hookData = sid ->
  match ConfigManager.getHandler n (handlers s) with
  | Some _ =>
      fst (disableHandlerForSession rt sid n s) = Ok true
      /\ resolved_for rt hookData (state_after (disableHandlerForSession rt sid n) s)
         = omap (resolve_one s (loaded_config rt hookData s) hookData)
                (List.filter (fun h => negb (String.eqb (name h) n)) (handlers s))
  | None =>
      disableHandlerForSession rt sid n s = (Ok false, s)
      /\ enableHandlerForSession rt sid n s = (Ok false, s)
  end.
Proof.
  intros Hsid.
  destruct (ConfigManager.getHandler n (handlers s)) as [found|] eqn:Hfound.
  2:{ unfold disableHandlerForSession, enableHandlerForSession, bind, get_state.
      unfold ConfigManager.getHandler in Hfound. rewrite Hfound. split; reflexivity. }
  destruct (disableHandlerForSession_defined sid n s found Hfound)
    as (s1 & Heq & Hh & Hp & Hst & Hse).
  unfold state_after. rewrite Heq. split; [reflexivity|]. simpl snd.
  rewrite resolved_for_eq, Hh.
  assert (Hconfig : loaded_config rt hookData s1 = loaded_config rt hookData s)
    by (unfold loaded_config; now rewrite Hp).
  rewrite Hconfig.
  assert (Hov : forall h,
            session_override s1 hookData h
            = if String.eqb (name h) n then Some false
              else session_override s hookData h).
  { intros h. unfold session_override. rewrite Hse, Hsid.
    destruct (disableHook_store rt sid n s) as (session & -> & He & Hd).
    rewrite (override_after_update s sid n sid (name h) session false);
      rewrite ?He, ?Hd; [|set_solver|set_solver|intros x Hx; set_solver].
    destruct (String.eqb_spec (name h) n) as [Hn|Hn].
    - now rewrite bool_decide_eq_true_2.
    - rewrite bool_decide_eq_false_2 by tauto. reflexivity. }
  clear Hfound Heq Hh. generalize (handlers s) as l.
  induction l as [|h rest IH]; [reflexivity|].
  rewrite omap_cons_eq, IH. simpl List.filter.
  rewrite unfold_resolve_one. unfold should_run. rewrite (Hov h).
  destruct (String.eqb (name h) n); cbn [negb]; [reflexivity|].
  rewrite omap_cons_eq, unfold_resolve_one. reflexivity.
Qed.

End ResolverLayers.

Lemma resolver_without_layers_witness :
  fst (resolveHandlers quiet_runtime (Reference.tool_event "Bash")
         (Reference.initial_state [pre_only_handler; off_handler]))
  = Ok (ConfigManager.getHandlersForHook PreToolUse [pre_only_handler; off_handler]).
Proof.
  apply (resolver_without_layers quiet_runtime (Reference.tool_event "Bash")
           (Reference.initial_state [pre_only_handler; off_handler]));
    reflexivity.
Defined.

Lemma project_config_outlives_its_directory_witness :
  resolved_for one_project_runtime (event_in "/tmp")
    (state_after (resolveHandlers one_project_runtime (event_in "/work/app"))
       (Reference.initial_state [off_handler]))
  = omap (resolve_one (Reference.initial_state [off_handler]) (Some project_enabling)
            (event_in "/tmp"))
         [off_handler].
Proof.
  apply (project_config_outlives_its_directory one_project_runtime
           (event_in "/work/app") (event_in "/tmp")
           (Reference.initial_state [off_handler])
           "/work/app/.velcro/project.json" project_enabling);
    [discriminate|reflexivity|reflexivity|reflexivity].
Defined.

Lemma session_disable_wins_witness :
  fst (disableHandlerForSession quiet_runtime "session-1" "pre-only"
         (Reference.initial_state [pre_only_handler; off_handler])) = Ok true
  /\ resolved_for quiet_runtime (event_in "/tmp")
       (state_after (disableHandlerForSession quiet_runtime "session-1" "pre-only")
          (Reference.initial_state [pre_only_handler; off_handler]))
     = omap (resolve_one (Reference.initial_state [pre_only_handler; off_handler])
               (loaded_config quiet_runtime (event_in "/tmp")
                  (Reference.initial_state [pre_only_handler; off_handler]))
               (event_in "/tmp"))
            [off_handler].
Proof.
  apply (session_disable_wins quiet_runtime "session-1" "pre-only" (event_in "/tmp")
           (Reference.initial_state [pre_only_handler; off_handler])).
  reflexivity.
Defined.

(** ** The execution strategies *)

Section Strategies.
Context (rt : Runtime).

#[local] Arguments trim : simpl never.
#[local] Arguments starts_with_char : simpl never.

Ltac split_ifs :=
  repeat match goal with
         | |- context [if ?b then _ else _] => destruct b
         end.

Lemma coherent_set_duration d r : coherent r -> coherent (set_duration d r).
Proof. intros H. exact H. Qed.

Lemma onExit_plain_coherent code stdout stderr_text h :
  coherent (onExit_plain code stdout stderr_text (initial_result h)).
Proof.
  unfold onExit_plain, coherent, blocks. split_ifs; simpl; split; congruence.
Qed.

Lemma onExit_json_coherent code stdout stderr_text h :
  coherent (onExit_json rt code stdout stderr_text (initial_result h)).
Proof.
  unfold onExit_json, coherent, blocks. cbv zeta.
  set (r0 := set_stderr _ _).
  assert (Hr0 : blockExecution r0 = None /\ error r0 = None) by (split; reflexivity).
  set (r1 := if _ : bool then _ else r0).
  assert (Hr1 : error r1 = None
                /\ (blockExecution r1 = None
                    \/ (blockExecution r1 = Some true /\ success r1 = false
                        /\ truthy_opt (response r1) = true))).
  { subst r1. destruct (_ && _); [|split; [apply Hr0|left; apply Hr0]].
    destruct (JSON_parse rt _) as [v|]; [|split; [apply Hr0|left; apply Hr0]].
    unfold handle_ccguard.
    destruct (truthy v && typeof_object v) eqn:Hv;
      [|split; [reflexivity|left; reflexivity]].
    apply andb_prop in Hv. destruct Hv as [Hv _].
    split_ifs; simpl; (split; [reflexivity|]); auto. }
  clearbody r1. destruct Hr1 as [He [Hb|(Hb & Hs & Hresp)]].
  - split_ifs; simpl; rewrite ?Hb, ?He; split; congruence.
  - rewrite Hresp. simpl. split_ifs; simpl; rewrite ?Hb, ?He, ?Hs; split; congruence.
Qed.

Lemma onError_coherent message h : coherent (onError message (initial_result h)).
Proof. unfold coherent, blocks; simpl; split; congruence. Qed.

Lemma spawn_and_wait_coherent request onExit h s r s' :
  (forall c o e, coherent (onExit c o e (initial_result h))) ->
  spawn_and_wait rt request onExit (initial_result h) s = (Ok r, s') ->
  coherent r.
Proof.
  intros Hexit. unfold spawn_and_wait, bind, emit, modify. simpl.
  destruct (spawn rt request) as [e|child]; [discriminate|].
  destruct (child_event child); unfold ret; intros [= <- _];
    [apply Hexit|apply onError_coherent].
Qed.

Lemma strategy_coherent h hookData s r s' :
  strategy rt h hookData (initial_result h) s = (Ok r, s') -> coherent r.
Proof.
  unfold strategy. destruct (type h).
  - unfold executeVelcroHandler. destruct (negb _); [discriminate|].
    apply spawn_and_wait_coherent. intros. apply onExit_plain_coherent.
  - unfold executeCommandHandler. destruct (negb _); [discriminate|].
    apply spawn_and_wait_coherent. intros. apply onExit_json_coherent.
  - unfold executeScriptHandler. destruct (negb _); [discriminate|].
    unfold bind at 1, emit, modify. cbv beta iota.
    destruct (readFile rt _) as [e|content]; [discriminate|].
    destruct (_ || _).
    + unfold bind, emit, modify. cbv beta iota.
      destruct (eval_async rt content hookData) as [e|[err|value]];
        [discriminate| |]; unfold ret; intros [= <- _]; unfold coherent, blocks; simpl; split; congruence.
    + apply spawn_and_wait_coherent. intros. apply onExit_plain_coherent.
  - unfold executeFunctionHandler. destruct (negb _); [discriminate|].
    unfold bind, emit, modify. cbv beta iota.
    destruct (eval_async rt _ hookData) as [e|[err|[v|]]]; unfold ret.
    + intros [= <- _]. unfold coherent, blocks; simpl; split; congruence.
    + intros [= <- _]. unfold coherent, blocks; simpl; split; congruence.
    + destruct (truthy v && typeof_object v).
      * intros [= <- _]. unfold coherent, blocks.
        split_ifs; simpl; split; congruence.
      * intros [= <- _]. unfold coherent, blocks; simpl; split; congruence.
    + intros [= <- _]. unfold coherent, blocks; simpl; split; congruence.
  - unfold executeExternalHandler. destruct (negb _); [discriminate|].
    apply spawn_and_wait_coherent. intros. apply onExit_json_coherent.
  - discriminate.
Qed.

(** X16.  Whatever the handler, its type and the behaviour of the child or
    of the evaluated code, the result of [execute] is coherent: a result
    that blocks has [success = false], and a result with [success = true]
    has no [error]. *)
Theorem execute_result_is_coherent (h : Handler) (hookData : HookData) (s : State) :
  exists r s',
    execute rt h hookData s = (Ok r, s')
    /\ (blocks r = true -> success r = false)
    /\ (success r = true -> error r = None /\ blocks r = false).
Proof.
  destruct (execute_resolves rt h hookData s) as (r0 & s' & Hex & Hr0).
  exists (set_duration (measured_duration rt s) r0), s'. split; [exact Hex|].
  assert (Hco : coherent r0).
  { unfold try_catch in Hr0.
    destruct (execute_try rt h hookData (initial_result h) (tick s))
      as [[r|e] s2] eqn:Htry.
    - simpl in Hr0. injection Hr0 as <-.
      destruct (skips rt h hookData) eqn:Hskip.
      + rewrite (execute_try_skip rt _ _ _ _ Hskip) in Htry.
        injection Htry as <- _. unfold coherent, blocks; simpl; split; congruence.
      + rewrite (execute_try_run rt _ _ _ _ Hskip) in Htry.
        exact (strategy_coherent _ _ _ _ _ Htry).
    - destruct (execute_catch_ok h (initial_result h) e s2) as (r & s3 & Hc & Hs & _).
      rewrite Hc in Hr0. simpl in Hr0. injection Hr0 as <-.
      split; congruence. }
  destruct Hco as [Hb He]. change (blocks (set_duration _ r0)) with (blocks r0).
  change (success (set_duration _ r0)) with (success r0).
  change (error (set_duration _ r0)) with (error r0).
  split; [exact Hb|]. intros Hs. split; [exact (He Hs)|].
  destruct (blocks r0) eqn:Hbl; [|reflexivity]. rewrite (Hb eq_refl) in Hs. discriminate.
Qed.

Lemma runner_child_event h hookData ending :
  truthy_str (code h) = true ->
  handler_code_ends rt h hookData ending ->
  child_event (VelcroRunner.run rt (velcro_request rt h hookData))
  = VelcroRunner.process_exit (runner_status ending).
Proof.
  intros Hcode (paths & Hparse & Hend).
  unfold VelcroRunner.run, runner_status. cbv zeta.
  rewrite Hparse, (handlerCode_of_request rt _ _ Hcode).
  change (sp_stdin (velcro_request rt h hookData)) with hookData.
  rewrite Hend. destruct (VelcroRunner.caught ending) as [e|]; [|reflexivity].
  unfold VelcroRunner.on_caught.
  destruct (thrown_is_Error e), (thrown_exitCode e); reflexivity.
Qed.

(** X17.  The verdict on a velcro handler is a function of the status with
    which its runner exits, and of nothing else: the runner exits with 0
    when the code returns, with 1 when it throws or calls [exit] without a
    number or with 0, and with the number otherwise; the parent sees the
    low eight bits, reports success for 0, a blocking failure for 2 and a
    plain failure for the rest.  What the code printed is kept as text and
    never parsed: [response] stays undefined. *)
Theorem velcro_verdict_is_the_exit_status (h : Handler) (hookData : HookData)
    (s : State) (ending : Thrown + Completion) :
  spawns_runner rt h hookData ->
  truthy_str (code h) = true ->
  skips rt h hookData = false ->
  handler_code_ends rt h hookData ending ->
  let status := runner_status ending mod 256 in
  exists r s',
    execute rt h hookData s = (Ok r, s')
    /\ exitCode r = Some status
    /\ success r = Z.eqb status 0
    /\ blockExecution r = (if Z.eqb status 2 then Some true else None)
    /\ response r = None
    /\ error r = None.
Proof.
  intros [Hty Hsp] Hcode Hskip Hend status.
  pose proof (runner_child_event h hookData ending Hcode Hend) as Hev.
  unfold VelcroRunner.process_exit in Hev. fold status in Hev.
  destruct (execute_velcro_child rt h hookData s _ _ Hty Hsp Hcode Hskip Hev) as [s' He].
  eexists. exists s'. split; [exact He|].
  unfold onExit_plain. cbv zeta.
  unfold EXIT_CODE.SUCCESS, EXIT_CODE.BLOCK.
  destruct (Z.eqb_spec status 0) as [H0|H0].
  - rewrite (bool_decide_eq_true_2 (Some status = Some 0)) by congruence.
    rewrite H0. simpl. repeat split.
  - rewrite (bool_decide_eq_false_2 (Some status = Some 0)) by congruence.
    rewrite (bool_decide_eq_false_2 (Some status = None)) by discriminate.
    destruct (Z.eqb_spec status 2) as [H2|H2].
    + rewrite (bool_decide_eq_true_2 (Some status = Some 2)) by congruence.
      simpl. repeat split.
    + rewrite (bool_decide_eq_false_2 (Some status = Some 2)) by congruence.
      simpl. repeat split.
Qed.

Lemma execute_function_handler h hookData s :
  type h = TFunction ->
  truthy_str (code h) = true ->
  skips rt h hookData = false ->
  exists r0 s0 s',
    executeFunctionHandler rt h hookData (initial_result h) s0 = (Ok r0, s')
    /\ execute rt h hookData s
       = (Ok (set_duration (measured_duration rt s) r0),
          recorded rt (name h) (measured_duration rt s) (success r0) (error r0) (tick s')).
Proof.
  intros Hty Hcode Hskip.
  pose proof (execute_try_run rt h hookData (initial_result h) (tick s) Hskip) as Htry.
  unfold strategy in Htry. rewrite Hty in Htry.
  match type of Htry with
  | _ = executeFunctionHandler _ _ _ _ ?st =>
      destruct (executeFunctionHandler rt h hookData (initial_result h) st)
        as [[r0|e] s'] eqn:Hf; [exists r0, st, s'|exfalso]
  end.
  - split; [exact Hf|]. apply (execute_of_try_ok rt h hookData s r0 s' Htry).
  - revert Hf. unfold executeFunctionHandler. rewrite Hcode.
    unfold bind, emit, modify, ret. simpl.
    destruct (eval_async rt _ hookData) as [e'|[err|[v|]]]; try discriminate.
    destruct (truthy v && typeof_object v); discriminate.
Qed.

(** X18.  A function handler cannot block by throwing: when its code does
    not compile or throws, the result is a failure that carries the message
    in [error] and does not block.  When it returns, the returned value is
    the [response]; the result blocks exactly when the value is an object
    with [status === 'blocked'] or [blocked === true], and it is a success
    exactly when the object is flagged neither as blocked nor as an error.
    No exit code is ever reported. *)
Theorem function_handler_verdict (h : Handler) (hookData : HookData) (s : State) :
  type h = TFunction ->
  truthy_str (code h) = true ->
  skips rt h hookData = false ->
  exists r s',
    execute rt h hookData s = (Ok r, s')
    /\ exitCode r = None
    /\ match eval_async rt (function_wrapper (default "" (code h))) hookData with
       | inl e | inr (inl e) =>
           success r = false /\ error r = Some (thrown_text e)
           /\ blocks r = false /\ response r = None
       | inr (inr value) =>
           response r = value
           /\ blocks r = flagged "blocked" value
           /\ success r = negb (flagged "blocked" value || flagged "error" value)
       end.
Proof.
  intros Hty Hcode Hskip.
  destruct (execute_function_handler h hookData s Hty Hcode Hskip)
    as (r0 & s0 & s' & Hf & Hex).
  eexists. eexists. split; [exact Hex|].
  change (exitCode (set_duration (measured_duration rt s) r0)) with (exitCode r0).
  change (success (set_duration (measured_duration rt s) r0)) with (success r0).
  change (error (set_duration (measured_duration rt s) r0)) with (error r0).
  change (blocks (set_duration (measured_duration rt s) r0)) with (blocks r0).
  change (response (set_duration (measured_duration rt s) r0)) with (response r0).
  revert Hf. unfold executeFunctionHandler. rewrite Hcode.
  unfold bind, emit, modify, ret. cbv beta iota. simpl negb. cbv iota.
  destruct (eval_async rt _ hookData) as [e|[err|[v|]]].
  - intros [= <- _]. repeat split.
  - intros [= <- _]. repeat split.
  - unfold flagged. destruct (truthy v && typeof_object v).
    + intros [= <- _]. unfold blocks.
      destruct (prop_is_string v "status" "blocked" || prop_is_true v "blocked"),
        (prop_is_string v "status" "error" || prop_is_true v "error");
        split_ifs; repeat split.
    + intros [= <- _]. repeat split.
  - intros [= <- _]. repeat split.
Qed.

(** X19.  When the child cannot be started and emits ['error'] (a missing
    executable, for one), a velcro, command or external handler is reported
    as a failure with the message of the event in [error]; it has no exit
    code and no output, and it does not block. *)
Theorem spawn_error_is_a_plain_failure (h : Handler) (hookData : HookData)
    (s : State) (message : string) :
  type h = TVelcro \/ type h = TCommand \/ type h = TExternal ->
  configuration_fault h = None ->
  skips rt h hookData = false ->
  (forall request, exists child,
      spawn rt request = Spawned child /\ child_event child = ChildError message) ->
  exists r s',
    execute rt h hookData s = (Ok r, s')
    /\ success r = false
    /\ error r = Some message
    /\ exitCode r = None /\ output r = None /\ blocks r = false.
Proof.
  intros Hty Hfault Hskip Hspawn.
  pose proof (execute_try_run rt h hookData (initial_result h) (tick s) Hskip) as Htry.
  assert (Hstrategy : forall st, exists st',
            strategy rt h hookData (initial_result h) st
            = (Ok (onError message (initial_result h)), st')).
  { intros st. unfold strategy, configuration_fault in *.
    destruct Hty as [Hty|[Hty|Hty]]; rewrite Hty in *.
    - unfold executeVelcroHandler. destruct (truthy_str (code h)); [|discriminate].
      simpl. unfold spawn_and_wait, bind, emit, modify. simpl.
      destruct (Hspawn (velcro_request rt h hookData)) as (child & -> & ->).
      eexists. reflexivity.
    - unfold executeCommandHandler. destruct (truthy_str (command h)); [|discriminate].
      simpl. unfold spawn_and_wait, bind, emit, modify. simpl.
      destruct (Hspawn (command_request rt h hookData)) as (child & -> & ->).
      eexists. reflexivity.
    - unfold executeExternalHandler. destruct (truthy_str (command h)); [|discriminate].
      simpl. unfold spawn_and_wait, bind, emit, modify. simpl.
      destruct (Hspawn (external_request rt h hookData)) as (child & -> & ->).
      eexists. reflexivity. }
  match type of Htry with
  | _ = strategy _ _ _ _ ?st => destruct (Hstrategy st) as [st' Hst]
  end.
  rewrite Hst in Htry.
  eexists. eexists. split; [apply (execute_of_try_ok rt h hookData s _ st' Htry)|].
  repeat split.
Qed.

End Strategies.

Lemma velcro_verdict_is_the_exit_status_witness :
  exists r s',
    execute (Reference.runtime_with_runner (inr (Threw (new_Error "boom"))))
            throwing_handler (Reference.tool_event "Bash") (Reference.initial_state [])
    = (Ok r, s')
    /\ exitCode r = Some 1
    /\ success r = false
    /\ blockExecution r = None
    /\ response r = None
    /\ error r = None.
Proof.
  apply (velcro_verdict_is_the_exit_status
           (Reference.runtime_with_runner (inr (Threw (new_Error "boom"))))
           throwing_handler (Reference.tool_event "Bash") (Reference.initial_state [])
           (inr (Threw (new_Error "boom")))).
  - split; reflexivity.
  - reflexivity.
  - reflexivity.
  - exists (JObj []). split; reflexivity.
Defined.

Lemma function_handler_verdict_witness :
  exists r s',
    execute (runtime_evaluating (inr (inl (new_Error "boom"))))
            (function_handler "fn" "throw new Error('boom');")
            (Reference.tool_event "Bash") (Reference.initial_state [])
    = (Ok r, s')
    /\ exitCode r = None
    /\ success r = false /\ error r = Some "boom"
    /\ blocks r = false /\ response r = None.
Proof.
  apply (function_handler_verdict (runtime_evaluating (inr (inl (new_Error "boom"))))
           (function_handler "fn" "throw new Error('boom');")
           (Reference.tool_event "Bash") (Reference.initial_state []));
    reflexivity.
Defined.

Lemma spawn_error_is_a_plain_failure_witness :
  exists r s',
    execute (Reference.runtime_with_child (mkChild "" "" (ChildError "spawn ENOENT")))
            (Reference.command_handler "missing" "no-such-program" None)
            (Reference.tool_event "Bash") (Reference.initial_state [])
    = (Ok r, s')
    /\ success r = false
    /\ error r = Some "spawn ENOENT"
    /\ exitCode r = None /\ output r = None /\ blocks r = false.
Proof.
  apply (spawn_error_is_a_plain_failure
           (Reference.runtime_with_child (mkChild "" "" (ChildError "spawn ENOENT")))
           (Reference.command_handler "missing" "no-such-program" None)
           (Reference.tool_event "Bash") (Reference.initial_state []) "spawn ENOENT").
  - right. left. reflexivity.
  - reflexivity.
  - reflexivity.
  - intros request. eexists. split; reflexivity.
Defined.

Ltac crush :=
  repeat split; intros;
  repeat match goal with
         | H : _ /\ _ |- _ => destruct H
         | H : _ \/ _ |- _ => destruct H
         | H : exists _, _ |- _ => destruct H
         end;
  try contradiction; try discriminate; try congruence; auto.

(** ** The endpoint step by step, and the execution log *)

Section Command.

Context (rt : Runtime).

Lemma post_hooks_unfolds hookData s :
  exists s1 settled s2 t s3,
    ready_for rt hookData s s1
    /\ dispatch rt hookData (resolved_for rt hookData s) s1 = (Ok settled, s2)
    /\ Forall2 settles_for (resolved_for rt hookData s) settled
    /\ post_hooks rt hookData s = (Ok (Status200 (build_response t)), s3)
    /\ results t = map entry_of (combine (resolved_for rt hookData s) settled)
    /\ blocked t = existsb blocks (fulfilled_values settled)
    /\ blockingResult t = last (List.filter blocks (fulfilled_values settled)).
Proof.
  rewrite resolved_for_eq.
  unfold post_hooks, try_catch, bind at 1. simpl.
  unfold bind at 1. simpl. unfold bind at 1.
  match goal with
  | |- context [resolveHandlers rt hookData ?st] =>
      pose proof (resolveHandlers_keeps rt hookData st) as [tr Hkeep];
      destruct (resolveHandlers_spec rt hookData st) as [s1 Hres]
  end.
  unfold state_after in Hkeep. rewrite Hres in *. simpl in Hkeep.
  unfold bind at 1. simpl. unfold bind at 1.
  match goal with
  | |- context [dispatch rt hookData ?hs ?st] =>
      destruct (dispatch_settles rt hookData hs st) as (settled & s2 & Hd & Hlen & Hall)
  end.
  rewrite Hd. unfold bind at 1.
  match goal with
  | |- context [process_results (combine ?hs settled) ?t0 s2] =>
      destruct (aggregation_closed_form hs settled s2 Hlen)
        as (t & s3 & -> & Hr & Hb & Hl)
  end.
  eexists. exists settled, s2, t. eexists.
  split; [|split; [exact Hd|split; [exact Hall|split; [reflexivity|auto]]]].
  rewrite Hkeep. repeat split.
Qed.

(** X22.  The summary written to the execution log counts every result
    once, as successful or as failed; it says [blocked] exactly when some
    result blocks, and then names the first blocking result in order, with
    no blocking result before it. *)
Theorem log_summary_counts (hookData : HookData)
    (results : list HookExecutionResult) (s : State) :
  exists entry s',
    Logger.logHookExecution rt hookData results s = (Ok entry, s')
    /\ Logger.le_execution_results entry = results
    /\ (Logger.successful (Logger.le_summary entry)
        + Logger.failed (Logger.le_summary entry)
        = Logger.total_handlers (Logger.le_summary entry))%nat
    /\ Logger.total_handlers (Logger.le_summary entry) = length results
    /\ (Logger.sum_blocked (Logger.le_summary entry) = true
        <-> exists r, In r results /\ blocks r = true)
    /\ match Logger.blocking_handler (Logger.le_summary entry) with
       | Some n =>
           Logger.sum_blocked (Logger.le_summary entry) = true
           /\ exists before r after,
                results = before ++ r :: after /\ handler r = n
                /\ blocks r = true /\ forallb (fun x => negb (blocks x)) before = true
       | None => Logger.sum_blocked (Logger.le_summary entry) = false
       end.
Proof.
  unfold Logger.logHookExecution, bind, Date_now, logger, emit, modify, ret.
  eexists. eexists. split; [reflexivity|]. simpl.
  split; [reflexivity|]. split.
  { induction results as [|r rest IH]; [reflexivity|].
    simpl. destruct (success r); simpl; lia. }
  split; [reflexivity|]. split; [apply existsb_exists|].
  induction results as [|r rest IH]; [reflexivity|].
  simpl. destruct (blocks r) eqn:Hr; simpl.
  - split; [reflexivity|]. exists [], r, rest. auto.
  - destruct (List.find blocks rest) as [b|]; simpl in *.
    + destruct IH as [Hex (before & x & after & -> & Hn & Hx & Hbefore)].
      split; [exact Hex|]. exists (r :: before), x, after.
      simpl. rewrite Hr. auto.
    + exact IH.
Qed.

End Command.

(** ** The execute command *)

Section ExecuteCommandProperties.
Context (rt : Runtime).

(** X23.  The execute command does not look at the result of the handler.
    Once the handler is found and the event data parse, it runs the handler,
    disabled or not, prints [Status: Success] and ends with status 0, also
    when the result is a failure or blocks; its failure branch is never
    taken.  The execution is recorded in the statistics whatever the
    options are, [--no-stats] included. *)
Theorem execute_command_always_reports_success (sh : ExecuteCommand.Shell)
    (handlerName : string) (options : ExecuteCommand.Options) (s : State)
    (h : Handler) (eventData : HookData) :
  ConfigManager.getHandler handlerName (handlers s) = Some h ->
  ExecuteCommand.event_data rt sh options = inr eventData ->
  exists r s1 run,
    execute rt h eventData (tick s) = (Ok r, s1)
    /\ ExecuteCommand.action rt sh handlerName options s = (Ok run, tick s1)
    /\ ExecuteCommand.exit_status run = 0
    /\ last (ExecuteCommand.printed run) = Some "Status: Success"
    /\ ExecuteCommand.complained run
       = (if enabled h then []
          else ["Warning: Handler '" +:+ handlerName +:+ "' is disabled"])
    /\ executions (entry_or_fresh (tick s1) (name h))
       = S (executions (entry_or_fresh s (name h))).
Proof.
  intros Hfound Hevent.
  destruct (execute_state rt h eventData (tick s)) as (r0 & evs & Hex).
  eexists. eexists.
  unfold ExecuteCommand.action, bind at 1, get_state.
  rewrite Hfound, Hevent. unfold bind at 1, Date_now at 1.
  unfold try_catch, bind at 1. fold (tick s). rewrite Hex.
  unfold bind, Date_now, ret. eexists. split; [reflexivity|].
  split; [reflexivity|]. split; [reflexivity|].
  split; [|split].
  - reflexivity.
  - simpl. destruct (enabled h); reflexivity.
  - unfold entry_or_fresh. rewrite recorded_eq. cbv zeta. simpl.
    rewrite lookup_insert_eq. reflexivity.
Qed.

End ExecuteCommandProperties.

Lemma execute_command_always_reports_success_witness :
  exists r s1 run,
    execute scenario_A_runtime scenario_A_handler (Reference.tool_event "Bash")
            (tick (Reference.initial_state [scenario_A_handler])) = (Ok r, s1)
    /\ ExecuteCommand.action scenario_A_runtime
         (shell_reading (Reference.tool_event "Bash")) "exit-override-handler"
         (ExecuteCommand.mkOptions (Some "{}") None false)
         (Reference.initial_state [scenario_A_handler]) = (Ok run, tick s1)
    /\ ExecuteCommand.exit_status run = 0
    /\ last (ExecuteCommand.printed run) = Some "Status: Success"
    /\ ExecuteCommand.complained run
       = (if enabled scenario_A_handler then []
          else ["Warning: Handler '" +:+ "exit-override-handler" +:+ "' is disabled"])
    /\ executions (entry_or_fresh (tick s1) (name scenario_A_handler))
       = S (executions (entry_or_fresh (Reference.initial_state [scenario_A_handler])
                                       (name scenario_A_handler))).
Proof.
  apply (execute_command_always_reports_success scenario_A_runtime
           (shell_reading (Reference.tool_event "Bash")) "exit-override-handler"
           (ExecuteCommand.mkOptions (Some "{}") None false)
           (Reference.initial_state [scenario_A_handler])
           scenario_A_handler (Reference.tool_event "Bash"));
    reflexivity.
Defined.

(** ** Conversion from and to Claude Code hooks *)

Section Importer.
Import ClaudeHandlerImporter.

Lemma fold_left_invariant {A B} (f : A -> B -> A) (P : A -> Prop) (Q : B -> Prop)
    (l : list B) : forall a,
  Forall Q l -> P a -> (forall a b, P a -> Q b -> P (f a b)) -> P (fold_left f l a).
Proof.
  induction l as [|b l IH]; intros a Hl Ha Hstep; [exact Ha|].
  inversion Hl; subst. simpl. apply IH; auto.
Qed.

Lemma convert_hook_numbered t entry acc hook :
  numbered acc ->
  bool_decide (ch_type hook = CCommand)
  && negb (bool_decide (ch_command hook = Some "velcro hook")) = true ->
  numbered (convert_hook t entry acc hook).
Proof.
  intros (Hlen & Hnames & Hshape) Hhook. destruct acc as [hs n]. simpl in *.
  apply andb_prop in Hhook. destruct Hhook as [Hty Hcmd].
  unfold convert_hook. rewrite Hty. simpl.
  destruct (truthy_str (ch_command hook)) eqn:Htruthy.
  - split; [|split]; cbn [fst snd].
    + rewrite length_app. simpl. lia.
    + rewrite map_app, Hnames, seq_S, map_app. reflexivity.
    + apply Forall_app. split; [exact Hshape|]. constructor; [|constructor].
      repeat split; simpl; auto.
      * apply negb_true_iff, bool_decide_eq_false in Hcmd. exact Hcmd.
      * eexists. reflexivity.
  - apply bool_decide_eq_true in Hty. rewrite Hty. simpl. repeat split; assumption.
Qed.

Lemma nonVelcroHooks_all entry :
  Forall (fun hook => bool_decide (ch_type hook = CCommand)
                      && negb (bool_decide (ch_command hook = Some "velcro hook")) = true)
         (nonVelcroHooks entry).
Proof.
  apply Forall_forall. intros hook Hin. apply list_elem_of_In, filter_In in Hin.
  apply Hin.
Qed.

Lemma convert_entry_numbered t acc entry :
  numbered acc -> numbered (convert_entry t acc entry).
Proof.
  intros Hacc. unfold convert_entry. destruct (_ =? _)%nat; [exact Hacc|].
  apply (fold_left_invariant _ numbered _ _ _ (nonVelcroHooks_all entry) Hacc).
  intros a b Ha Hb. now apply convert_hook_numbered.
Qed.

Lemma imported_name_inj : Inj (=) (=) imported_name.
Proof.
  intros i j H. unfold imported_name in H. simpl in H.
  injection H as H. now apply (inj pretty).
Qed.

(** X24.  [convertClaudeHandlers] imports command hooks only: every handler
    it returns is a command handler with a non-empty command other than
    [velcro hook], one hook type, source [claude] and no packages; the
    branch that would import a script hook is never reached.  The handlers
    are named [claude-import-1], [claude-import-2], ... in order, so their
    names are distinct. *)
Theorem import_yields_numbered_command_handlers (config : ClaudeHandlerConfig) :
  Forall imported_shape (convertClaudeHandlers config)
  /\ map name (convertClaudeHandlers config)
     = map imported_name (seq 1 (length (convertClaudeHandlers config)))
  /\ NoDup (map name (convertClaudeHandlers config)).
Proof.
  assert (Hnum : numbered (fold_left
            (fun acc kv => fold_left (convert_entry (fst kv)) (snd kv) acc)
            config ([], O))).
  { apply (fold_left_invariant _ numbered (fun _ => True)).
    - apply Forall_forall. auto.
    - repeat split; constructor.
    - intros a kv Ha _.
      apply (fold_left_invariant _ numbered (fun _ => True)); auto.
      + apply Forall_forall. auto.
      + intros a' e Ha' _. now apply convert_entry_numbered. }
  unfold convertClaudeHandlers. destruct Hnum as (Hlen & Hnames & Hshape).
  split; [exact Hshape|]. rewrite Hlen. split; [exact Hnames|].
  rewrite Hnames. apply (NoDup_fmap_2 _). apply NoDup_seq.
Qed.

Lemma entries_of_ensure t t' c :
  entries_of t (ensure_velcro_hook t' c)
  = if bool_decide (t' = t)
    then Some (match entries_of t c with
               | Some es => if hasVelcroHook es then es else velcro_entry :: es
               | None => [velcro_entry]
               end)
    else entries_of t c.
Proof.
  unfold entries_of. induction c as [|[k es] c IH]; simpl.
  - destruct (bool_decide (t' = t)); reflexivity.
  - destruct (decide (k = t')) as [->|Hk].
    + rewrite (bool_decide_eq_true_2 (t' = t')) by reflexivity. simpl.
      destruct (bool_decide (t' = t)); reflexivity.
    + rewrite (bool_decide_eq_false_2 (k = t')) by exact Hk. simpl.
      destruct (decide (k = t)) as [->|Hkt].
      * rewrite (bool_decide_eq_true_2 (t = t)) by reflexivity. simpl.
        rewrite (bool_decide_eq_false_2 (t' = t)) by congruence. reflexivity.
      * rewrite (bool_decide_eq_false_2 (k = t)) by exact Hkt. exact IH.
Qed.

Lemma ensure_keeps_the_hook t t' c :
  (exists es, entries_of t c = Some es /\ hasVelcroHook es = true) ->
  exists es, entries_of t (ensure_velcro_hook t' c) = Some es /\ hasVelcroHook es = true.
Proof.
  intros (es & Hes & Hv). rewrite entries_of_ensure, Hes, Hv.
  destruct (bool_decide (t' = t)); eauto.
Qed.

Lemma ensure_adds_the_hook t c :
  exists es, entries_of t (ensure_velcro_hook t c) = Some es /\ hasVelcroHook es = true.
Proof.
  rewrite entries_of_ensure, bool_decide_eq_true_2 by reflexivity.
  eexists. split; [reflexivity|].
  destruct (entries_of t c) as [es|]; [|reflexivity].
  destruct (hasVelcroHook es) eqn:Hv; [exact Hv|reflexivity].
Qed.

(** X25.  In the configuration that [exportToClaudeFormat] returns, every
    one of the seven hook types has an entry, and one of its entries is the
    [velcro hook] command, whatever the handlers are. *)
Theorem export_installs_the_velcro_hook (hs : list Handler) (t : HookType) :
  exists entries,
    entries_of t (exportToClaudeFormat hs) = Some entries
    /\ hasVelcroHook entries = true.
Proof.
  unfold exportToClaudeFormat.
  assert (Hin : In t hookTypes) by (destruct t; simpl; tauto).
  revert Hin. generalize (fold_left export_handler hs []) as c.
  induction hookTypes as [|t' l IH]; intros c Hin; [contradiction|].
  simpl. destruct Hin as [->|Hin]; [|now apply IH].
  clear IH. generalize (ensure_adds_the_hook t c).
  generalize (ensure_velcro_hook t c) as c'. clear c.
  induction l as [|t' l IH]; intros c Hc; [exact Hc|].
  simpl. apply IH. now apply ensure_keeps_the_hook.
Qed.

Lemma push_single t e E : push_entry t e (single t E) = single t (E ++ [e]).
Proof.
  destruct E as [|e0 E]; [reflexivity|]. simpl.
  now rewrite bool_decide_eq_true_2.
Qed.

Lemma export_single t hs : forall E,
  Forall (fun h => hooks h = [t]) hs ->
  fold_left export_handler hs (single t E)
  = single t (E ++ map export_entry (List.filter enabled hs)).
Proof.
  induction hs as [|h hs IH]; intros E Hall; simpl.
  - now rewrite app_nil_r.
  - inversion Hall as [|? ? Hh Hrest]; subst.
    unfold export_handler at 2. destruct (enabled h); simpl.
    + rewrite Hh. simpl. rewrite push_single, (IH _ Hrest), <- app_assoc. reflexivity.
    + apply (IH _ Hrest).
Qed.

Lemma convert_velcro_entry t acc : convert_entry t acc velcro_entry = acc.
Proof. reflexivity. Qed.

Lemma import_only_velcro (c : ClaudeHandlerConfig) : forall acc,
  Forall (fun kv => snd kv = [velcro_entry]) c ->
  fold_left (fun acc kv => fold_left (convert_entry (fst kv)) (snd kv) acc) c acc = acc.
Proof.
  induction c as [|[k es] c IH]; intros acc Hall; [reflexivity|].
  inversion Hall as [|? ? Hes Hrest]; subst. simpl in *. subst es. simpl.
  rewrite convert_velcro_entry. now apply IH.
Qed.

Lemma ensured_single t E :
  let c := fold_left (fun c hookType => ensure_velcro_hook hookType c) hookTypes
                     (single t E) in
  (E = [] /\ Forall (fun kv => snd kv = [velcro_entry]) c)
  \/ (exists rest,
        c = (t, if hasVelcroHook E then E else velcro_entry :: E) :: rest
        /\ Forall (fun kv => snd kv = [velcro_entry]) rest).
Proof.
  destruct E as [|e E]; [left|right].
  - split; [reflexivity|]. destruct t; repeat constructor.
  - destruct t; (eexists; split; [reflexivity|repeat constructor]).
Qed.

Lemma import_of_ensured t E :
  convertClaudeHandlers
    (fold_left (fun c hookType => ensure_velcro_hook hookType c) hookTypes (single t E))
  = fst (fold_left (convert_entry t) E ([], O)).
Proof.
  unfold convertClaudeHandlers.
  destruct (ensured_single t E) as [[-> Hall]|(rest & Hc & Hall)]; cbv zeta in *.
  - now rewrite import_only_velcro.
  - rewrite Hc. simpl fold_left at 1. cbn [fst snd].
    rewrite import_only_velcro by exact Hall.
    destruct (hasVelcroHook E); [reflexivity|].
    simpl fold_left at 1. now rewrite convert_velcro_entry.
Qed.

Lemma round_trip_step t h acc n :
  enabled h = true ->
  convert_entry t (acc, n) (export_entry h)
  = match round_trip_image t h with
    | Some h' => (acc ++ [set_name (imported_name (S n)) h'], S n)
    | None => (acc, n)
    end.
Proof.
  intros Hen. unfold round_trip_image, command_after_round_trip, convert_entry,
    nonVelcroHooks, export_entry, export_hooks. rewrite Hen. simpl negb. cbv iota.
  cbn [ce_hooks ce_matcher].
  destruct (type h); try reflexivity.
  - destruct (command h) as [cmd|]; [|reflexivity].
    destruct (truthy_str (Some cmd)) eqn:Hc; [|reflexivity].
    cbn [List.filter ch_type ch_command andb].
    rewrite (bool_decide_eq_true_2 (CCommand = CCommand)) by reflexivity. cbn [andb].
    destruct (bool_decide (Some cmd = Some "velcro hook")); [reflexivity|].
    cbn [negb length Nat.eqb fold_left convert_hook ch_type ch_command ch_enabled].
    rewrite (bool_decide_eq_true_2 (CCommand = CCommand)) by reflexivity. cbn [andb].
    rewrite Hc. reflexivity.
  - destruct (truthy_str (script h)); reflexivity.
Qed.

Lemma round_trip_image_disabled t h :
  enabled h = false -> round_trip_image t h = None.
Proof.
  intros Hen. unfold round_trip_image, command_after_round_trip. now rewrite Hen.
Qed.

Lemma round_trip_fold t hs : forall acc n,
  fold_left (convert_entry t) (map export_entry (List.filter enabled hs)) (acc, n)
  = (acc ++ renumber n (omap (round_trip_image t) hs),
     (n + length (omap (round_trip_image t) hs))%nat).
Proof.
  induction hs as [|h hs IH]; intros acc n.
  - simpl. now rewrite app_nil_r, Nat.add_0_r.
  - rewrite omap_cons_eq. simpl List.filter. destruct (enabled h) eqn:Hen.
    + simpl map. simpl fold_left. rewrite (round_trip_step t h acc n Hen).
      destruct (round_trip_image t h) as [h'|].
      * rewrite IH. simpl. rewrite <- app_assoc. simpl.
        now rewrite Nat.add_succ_r.
      * apply IH.
    + rewrite (round_trip_image_disabled t h Hen). apply IH.
Qed.

(** X26.  Export followed by import, for handlers attached to one hook
    type.  The handlers that come back are the enabled command handlers
    with a command other than [velcro hook], and the velcro handlers as
    commands that call [velcro run-handler]; they come back in order, under
    the names [claude-import-1], [claude-import-2], ..., with their hook
    type and command, and with the matcher [.*] where they had none.
    Disabled handlers, script, function and external handlers do not come
    back, and neither does the [velcro hook] entry that the export adds. *)
Theorem export_then_import (t : HookType) (hs : list Handler) :
  Forall (fun h => hooks h = [t]) hs ->
  convertClaudeHandlers (exportToClaudeFormat hs)
  = renumber 0 (omap (round_trip_image t) hs).
Proof.
  intros Hall. unfold exportToClaudeFormat.
  change (@nil (HookType * list ClaudeHandlerEntry)) with (single t []).
  rewrite (export_single t hs [] Hall). simpl app.
  rewrite import_of_ensured, round_trip_fold. reflexivity.
Qed.

(** X27.  The round trip changes when a handler runs.  A command handler
    without a matcher runs on every event of its hook type; exported and
    imported again it carries the matcher [.*], which the executor matches
    against tool names only, so on every event without a tool name (a
    prompt, a stop, a notification) the handler that came back is skipped. *)
Theorem round_trip_handler_skips_events_without_tool (rt : Runtime) (t : HookType)
    (h : Handler) (cmd : string) :
  enabled h = true ->
  type h = TCommand ->
  command h = Some cmd -> cmd <> "" -> cmd <> "velcro hook" ->
  hooks h = [t] ->
  truthy_str (matcher h) = false ->
  exists h',
    convertClaudeHandlers (exportToClaudeFormat [h]) = [h']
    /\ command h' = Some cmd /\ hooks h' = [t] /\ matcher h' = Some ".*"
    /\ forall hookData,
         carries_tool_name hookData = false ->
         skips rt h hookData = false /\ skips rt h' hookData = true.
Proof.
  intros Hen Hty Hcmd Hne Hnv Hhooks Hm.
  assert (Himage : round_trip_image t h
                   = Some (mkHandler "" true [t] TCommand None (Some cmd) None None None []
                                     (Some ".*") SrcClaude true)).
  { unfold round_trip_image, command_after_round_trip.
    rewrite Hen, Hty, Hcmd, Hm. simpl.
    rewrite (proj2 (String.eqb_neq _ _) Hne). simpl.
    rewrite bool_decide_eq_false_2 by congruence. reflexivity. }
  eexists. split.
  - unfold exportToClaudeFormat.
    change (@nil (HookType * list ClaudeHandlerEntry)) with (single t []).
    rewrite (export_single t [h] []) by (repeat constructor; exact Hhooks).
    rewrite app_nil_l, import_of_ensured, round_trip_fold.
    rewrite omap_cons_eq, Himage. reflexivity.
  - split; [reflexivity|]. split; [reflexivity|]. split; [reflexivity|].
    intros hookData Htool. unfold skips. rewrite Hm. split; [reflexivity|].
    simpl. unfold would_match. rewrite Htool. reflexivity.
Qed.

End Importer.

Lemma export_then_import_witness :
  ClaudeHandlerImporter.convertClaudeHandlers
    (ClaudeHandlerImporter.exportToClaudeFormat [pre_only_handler; off_handler])
  = renumber 0 (omap (round_trip_image PreToolUse) [pre_only_handler; off_handler]).
Proof.
  apply (export_then_import PreToolUse [pre_only_handler; off_handler]).
  repeat constructor.
Defined.

Lemma round_trip_handler_skips_events_without_tool_witness :
  exists h',
    ClaudeHandlerImporter.convertClaudeHandlers
      (ClaudeHandlerImporter.exportToClaudeFormat [prompt_logger]) = [h']
    /\ command h' = Some "log-prompt" /\ hooks h' = [UserPromptSubmit]
    /\ matcher h' = Some ".*"
    /\ forall hookData,
         carries_tool_name hookData = false ->
         skips quiet_runtime prompt_logger hookData = false
         /\ skips quiet_runtime h' hookData = true.
Proof.
  apply (round_trip_handler_skips_events_without_tool quiet_runtime UserPromptSubmit
           prompt_logger "log-prompt"); try reflexivity; discriminate.
Defined.

(** ** Programs started by an execution *)

Section Launches.
Context (rt : Runtime).

Lemma launches_app evs evs' : launches (evs ++ evs') = (launches evs + launches evs')%nat.
Proof. unfold launches. now rewrite List.filter_app, length_app. Qed.

Lemma lam_weaken {A} (c : M A) n m :
  (n <= m)%nat -> launches_at_most n c -> launches_at_most m c.
Proof. intros Hle Hc s. destruct (Hc s) as (evs & Hs & Hn). exists evs. split; [exact Hs|lia]. Qed.

Lemma lam_ret {A} (a : A) : launches_at_most 0 (ret a).
Proof. intros s. exists []. simpl. rewrite with_trace_nil. split; [reflexivity|constructor]. Qed.

Lemma lam_throw {A} e : launches_at_most 0 (throw e : M A).
Proof. intros s. exists []. simpl. rewrite with_trace_nil. split; [reflexivity|constructor]. Qed.

Lemma lam_emit e : launches_at_most (if starts e then 1 else 0) (emit e).
Proof.
  intros s. exists [e]. split; [reflexivity|]. unfold launches. simpl.
  destruct (starts e); simpl; lia.
Qed.

Lemma lam_logger level message : launches_at_most 0 (logger level message).
Proof. apply (lam_emit (ELog level message)). Qed.

Lemma lam_bind {A B} (c : M A) (k : A -> M B) n m :
  launches_at_most n c -> (forall a, launches_at_most m (k a)) ->
  launches_at_most (n + m) (bind c k).
Proof.
  intros Hc Hk s. unfold bind. destruct (Hc s) as (evs & Hs & Hn).
  destruct (c s) as [[a|e] s1]; simpl in Hs; subst s1.
  - destruct (Hk a (with_trace (trace s ++ evs) s)) as (evs' & Hs' & Hm).
    exists (evs ++ evs'). rewrite Hs', with_trace_app, launches_app. split; [reflexivity|lia].
  - exists evs. split; [reflexivity|lia].
Qed.

Lemma lam_try_catch {A} (c : M A) (k : Thrown -> M A) n m :
  launches_at_most n c -> (forall e, launches_at_most m (k e)) ->
  launches_at_most (n + m) (try_catch c k).
Proof.
  intros Hc Hk s. unfold try_catch. destruct (Hc s) as (evs & Hs & Hn).
  destruct (c s) as [[a|e] s1]; simpl in Hs; subst s1.
  - exists evs. split; [reflexivity|lia].
  - destruct (Hk e (with_trace (trace s ++ evs) s)) as (evs' & Hs' & Hm).
    exists (evs ++ evs'). rewrite Hs', with_trace_app, launches_app. split; [reflexivity|lia].
Qed.

Lemma lam_matchesFilter m hookData : launches_at_most 0 (matchesFilter rt m hookData).
Proof.
  unfold matchesFilter.
  destruct (tool_name hookData) as [tool|]; [|apply lam_ret].
  destruct (negb (String.eqb tool "")); [|apply lam_ret].
  destruct m as [p|]; [|apply lam_ret].
  destruct (_ || _); [apply lam_ret|].
  destruct (new_RegExp rt p); [apply lam_ret|].
  apply (lam_bind _ _ 0 0); [apply (lam_emit (EConsoleError _))|intros; apply lam_ret].
Qed.

Lemma lam_spawn_and_wait request onExit result :
  launches_at_most 1 (spawn_and_wait rt request onExit result).
Proof.
  unfold spawn_and_wait. apply (lam_bind _ _ 1 0); [apply (lam_emit (ESpawn _))|].
  intros _. destruct (spawn rt request) as [e|child]; [apply lam_throw|].
  destruct (child_event child); apply lam_ret.
Qed.

Lemma lam_strategy h hookData result :
  launches_at_most 1 (strategy rt h hookData result).
Proof.
  unfold strategy. destruct (type h).
  - unfold executeVelcroHandler. destruct (negb _);
      [apply (lam_weaken _ 0); [lia|apply lam_throw]|apply lam_spawn_and_wait].
  - unfold executeCommandHandler. destruct (negb _);
      [apply (lam_weaken _ 0); [lia|apply lam_throw]|apply lam_spawn_and_wait].
  - unfold executeScriptHandler. destruct (negb _);
      [apply (lam_weaken _ 0); [lia|apply lam_throw]|].
    apply (lam_bind _ _ 0 1); [apply (lam_emit (EReadFile _))|]. intros _.
    destruct (readFile rt _) as [e|content];
      [apply (lam_weaken _ 0); [lia|apply lam_throw]|].
    destruct (_ || _); [|apply lam_spawn_and_wait].
    apply (lam_bind _ _ 1 0); [apply (lam_emit (EEvalCode _))|]. intros _.
    destruct (eval_async rt content hookData) as [e|[err|value]];
      [apply lam_throw|apply lam_ret|apply lam_ret].
  - unfold executeFunctionHandler. destruct (negb _);
      [apply (lam_weaken _ 0); [lia|apply lam_throw]|].
    apply (lam_bind _ _ 1 0); [apply (lam_emit (EEvalCode _))|]. intros _.
    destruct (eval_async rt _ hookData) as [e|[err|[v|]]]; try apply lam_ret.
    destruct (truthy v && typeof_object v); apply lam_ret.
  - unfold executeExternalHandler. destruct (negb _);
      [apply (lam_weaken _ 0); [lia|apply lam_throw]|apply lam_spawn_and_wait].
  - apply (lam_weaken _ 0); [lia|apply lam_throw].
Qed.

(** A strategy that cannot start: the definition lacks what its type
    requires, or the script cannot be read. *)
Lemma lam_strategy_stopped h hookData result :
  configuration_fault h <> None
  \/ (type h = TScript /\ exists e, readFile rt (default "" (script h)) = inl e) ->
  launches_at_most 0 (strategy rt h hookData result).
Proof.
  intros [Hfault|(Hty & e & Hread)].
  - destruct (configuration_fault h) as [message|] eqn:Hm; [|contradiction].
    intros s. rewrite (strategy_fault rt h hookData result s message Hm).
    exists []. simpl. rewrite with_trace_nil. split; [reflexivity|constructor].
  - unfold strategy. rewrite Hty. unfold executeScriptHandler.
    destruct (negb _); [apply lam_throw|].
    apply (lam_bind _ _ 0 0); [apply (lam_emit (EReadFile _))|]. intros _.
    rewrite Hread. apply lam_throw.
Qed.

Lemma lam_execute_try h hookData result (n : nat) :
  (forall r, launches_at_most n (strategy rt h hookData r)) ->
  launches_at_most n (execute_try rt h hookData result).
Proof.
  intros Hstrategy. unfold execute_try.
  apply (lam_bind _ _ 0 n).
  - destruct (truthy_str (matcher h)); [|apply lam_ret].
    apply (lam_bind _ _ 0 0); [apply lam_matchesFilter|intros; apply lam_ret].
  - intros [|].
    + apply (lam_weaken _ 0); [lia|].
      apply (lam_bind _ _ 0 0); [apply lam_logger|intros; apply lam_ret].
    + apply (lam_bind _ _ 0 n); [apply lam_logger|]. intros _. apply Hstrategy.
Qed.

Lemma lam_execute_catch h result e : launches_at_most 0 (execute_catch h result e).
Proof.
  unfold execute_catch. apply (lam_bind _ _ 0 0); [apply lam_logger|]. intros _.
  destruct (_ && _); apply lam_ret.
Qed.

Lemma execute_trace h hookData s (n : nat) :
  launches_at_most n (execute_try rt h hookData (initial_result h)) ->
  exists r0 evs,
    execute rt h hookData s
    = (Ok (set_duration (measured_duration rt s) r0),
       recorded rt (name h) (measured_duration rt s) (success r0) (error r0)
                (tick (with_trace (trace (tick s) ++ evs) (tick s))))
    /\ (launches evs <= n)%nat.
Proof.
  intros Htry.
  pose proof (lam_try_catch _ (execute_catch h (initial_result h)) n 0 Htry
                (lam_execute_catch h (initial_result h)) (tick s)) as (evs & Hs & Hn).
  unfold try_catch in Hs.
  destruct (execute_try rt h hookData (initial_result h) (tick s)) as [[r0|e] s2] eqn:Ht.
  - simpl in Hs. exists r0, evs. split; [|lia].
    replace (with_trace (trace (tick s) ++ evs) (tick s)) with s2
      by (rewrite Hs; reflexivity).
    apply (execute_of_try_ok rt h hookData s r0 s2 Ht).
  - destruct (execute_catch_ok h (initial_result h) e s2) as (r0 & s3 & Hc & _ & _).
    rewrite Hc in Hs. simpl in Hs. exists r0, evs. split; [|lia].
    replace (with_trace (trace (tick s) ++ evs) (tick s)) with s3
      by (rewrite Hs; reflexivity).
    apply (execute_of_try_throw rt h hookData s e s2 r0 s3 Ht Hc).
Qed.

Lemma stop_or_go h hookData :
  let stop := skips rt h hookData = true
              \/ configuration_fault h <> None
              \/ (type h = TScript
                  /\ exists e, readFile rt (default "" (script h)) = inl e) in
  stop \/ ~ stop.
Proof.
  cbv zeta. destruct (skips rt h hookData); [left; auto|].
  destruct (configuration_fault h) eqn:Hfault; [left; right; left; discriminate|].
  destruct (readFile rt (default "" (script h))) as [e|content] eqn:Hread.
  - destruct (type h) eqn:Hty;
      try (right; intros [Hs|[Hf|[Ht _]]]; congruence).
    left. right. right. split; [reflexivity|]. now exists e.
  - right. intros [Hs|[Hf|[_ [e He]]]]; congruence.
Qed.

(** X28.  One invocation of [execute] starts at most one program, a child
    process or handler code evaluated in the dispatcher, and it starts none
    when the matcher rejects the event, when the definition lacks what its
    type requires, or when the script of a script handler cannot be read.
    The last thing it does is save the statistics. *)
Theorem execute_starts_at_most_one_program (h : Handler) (hookData : HookData)
    (s : State) :
  exists r s' evs,
    execute rt h hookData s = (Ok r, s')
    /\ trace s' = trace s ++ evs ++ [ESaveStats (stats s')]
    /\ (launches evs <= 1)%nat
    /\ (skips rt h hookData = true
        \/ configuration_fault h <> None
        \/ (type h = TScript /\ exists e, readFile rt (default "" (script h)) = inl e) ->
        launches evs = 0%nat).
Proof.
  assert (Hshape : forall n,
            launches_at_most n (execute_try rt h hookData (initial_result h)) ->
            exists r s' evs,
              execute rt h hookData s = (Ok r, s')
              /\ trace s' = trace s ++ evs ++ [ESaveStats (stats s')]
              /\ (launches evs <= n)%nat).
  { intros n Hn. destruct (execute_trace h hookData s n Hn) as (r0 & evs & Hex & Hle).
    eexists. eexists. exists evs. split; [exact Hex|]. split; [|exact Hle].
    rewrite recorded_eq. cbv zeta. simpl. now rewrite <- app_assoc. }
  destruct (stop_or_go h hookData) as [Hstop|Hgo]; cbv zeta in *.
  - destruct (Hshape 0%nat) as (r & s' & evs & Hex & Htr & Hle).
    { destruct Hstop as [Hskip|Hstopped].
      - intros st. rewrite (execute_try_skip rt h hookData _ st Hskip).
        eexists. split; [reflexivity|]. unfold launches. simpl. lia.
      - apply lam_execute_try. intros r. now apply lam_strategy_stopped. }
    exists r, s', evs. split; [exact Hex|]. split; [exact Htr|].
    split; [lia|]. intros _. lia.
  - destruct (Hshape 1%nat) as (r & s' & evs & Hex & Htr & Hle).
    { apply lam_execute_try. intros r. apply lam_strategy. }
    exists r, s', evs. split; [exact Hex|]. split; [exact Htr|].
    split; [exact Hle|]. intros Hcond. exfalso. apply Hgo. tauto.
Qed.

End Launches.

Lemma session_sets_stay_disjoint_witness :
  sessions_disjoint
    (store_after (SessionStateManager.enableHookForSession quiet_runtime
                    "session-1" "pre-only")
                 (Reference.initial_state [pre_only_handler]))
  /\ sessions_disjoint
       (store_after (SessionStateManager.disableHookForSession quiet_runtime
                       "session-1" "pre-only")
                    (Reference.initial_state [pre_only_handler]))
  /\ sessions_disjoint
       (store_after (SessionStateManager.clearSession "session-1")
                    (Reference.initial_state [pre_only_handler]))
  /\ sessions_disjoint
       (store_after (SessionStateManager.cleanupOldSessions quiet_runtime None)
                    (Reference.initial_state [pre_only_handler])).
Proof.
  apply (session_sets_stay_disjoint quiet_runtime "session-1" "pre-only" None
           (Reference.initial_state [pre_only_handler])).
  intros sid session Hs. simpl in Hs. rewrite lookup_empty in Hs. discriminate.
Defined.

Lemma stats_after_n_executions_witness :
  (exists st,
     stats (snd (record_all quiet_runtime "pre-only" three_runs
                            (Reference.initial_state []))) !! "pre-only" = Some st
     /\ executions st = 3%nat
     /\ failures st = 1%nat
     /\ totalDuration st = 10
     /\ avgDuration st = 3.3333333333333335%float
     /\ successRate st = 66.66666666666666%float)
  /\ (forall other, other <> "pre-only" ->
        stats (snd (record_all quiet_runtime "pre-only" three_runs
                               (Reference.initial_state []))) !! other
        = stats (Reference.initial_state []) !! other).
Proof.
  apply (stats_after_n_executions quiet_runtime "pre-only" three_runs
           (Reference.initial_state [])).
  - reflexivity.
  - discriminate.
Defined.

(** ** Accounting of the executions of an event *)

Section Accounting.
Context (rt : Runtime).

Lemma entry_after_execute h hookData s n :
  exists r s',
    execute rt h hookData s = (Ok r, s')
    /\ executions (entry_or_fresh s' n)
       = ((if String.eqb (name h) n then 1 else 0) + executions (entry_or_fresh s n))%nat.
Proof.
  destruct (execute_state rt h hookData s) as (r0 & evs & Hex).
  eexists. eexists. split; [exact Hex|].
  unfold entry_or_fresh. rewrite recorded_eq. cbv zeta. simpl.
  destruct (String.eqb_spec (name h) n) as [->|Hne].
  - rewrite lookup_insert_eq. reflexivity.
  - rewrite lookup_insert_ne by exact Hne. reflexivity.
Qed.

Lemma dispatch_counts hookData hs : forall s,
  exists settled s',
    dispatch rt hookData hs s = (Ok settled, s')
    /\ length settled = length hs
    /\ forall n, executions (entry_or_fresh s' n)
                 = (executions (entry_or_fresh s n) + count_named n hs)%nat.
Proof.
  induction hs as [|h rest IH]; intros s.
  - exists [], s. repeat split. intros n. unfold count_named. simpl. lia.
  - simpl. unfold bind at 1. unfold try_catch, bind at 1.
    destruct (execute_state rt h hookData s) as (r0 & evs & He).
    rewrite He. simpl. unfold bind at 1.
    match goal with
    | |- context [dispatch rt hookData rest ?st] =>
        destruct (IH st) as (settled & s2 & -> & Hlen & Hcount)
    end.
    eexists. exists s2. split; [reflexivity|]. split; [simpl; now rewrite Hlen|].
    intros n. rewrite Hcount.
    destruct (entry_after_execute h hookData s n) as (r & s1 & He' & Hn).
    rewrite He in He'. injection He' as _ <-. rewrite Hn.
    unfold count_named. simpl. destruct (String.eqb (name h) n); simpl; lia.
Qed.

(** X30.  [clear] drops the project layer: after it, an event of a
    directory without a readable project configuration, in a session
    without overrides, is resolved by the global configuration alone,
    whichever project was loaded before. *)
Theorem clear_returns_to_the_global_configuration (hookData : HookData) (s : State) :
  find_project_config rt (cwd hookData) ≫= read_project_config rt = None ->
  sessions s !! session_id hookData = None ->
  resolved_for rt hookData (state_after ProjectConfigManager.clear s)
  = ConfigManager.getHandlersForHook (hook_event_name hookData) (handlers s).
Proof.
  intros Hnone Hsession. rewrite resolved_for_eq.
  assert (Hconfig : loaded_config rt hookData (state_after ProjectConfigManager.clear s)
                    = None).
  { unfold loaded_config. simpl.
    destruct (negb (String.eqb (cwd hookData) "")); [|reflexivity].
    destruct (find_project_config rt (cwd hookData)) as [p|]; [|reflexivity].
    simpl in Hnone. now rewrite Hnone. }
  rewrite Hconfig. simpl handlers.
  unfold ConfigManager.getHandlersForHook.
  induction (handlers s) as [|h rest IH]; [reflexivity|].
  rewrite omap_cons_eq, IH. simpl.
  unfold resolve_one, should_run, session_override,
    SessionStateManager.isHookEnabledForSession, project_enabled,
    ProjectConfigManager.isHandlerEnabled, with_overrides,
    ProjectConfigManager.getHandlerOverrides.
  simpl sessions. rewrite Hsession. simpl.
  rewrite andb_comm. destruct (enabled h && includes_hook _ _); reflexivity.
Qed.

End Accounting.

Lemma clear_returns_to_the_global_configuration_witness :
  resolved_for quiet_runtime (event_in "/tmp")
    (state_after ProjectConfigManager.clear project_state)
  = ConfigManager.getHandlersForHook PreToolUse (handlers project_state).
Proof.
  apply (clear_returns_to_the_global_configuration quiet_runtime (event_in "/tmp")
           project_state); reflexivity.
Defined.

(** ** The status report and the resolver *)

Section StatusReport.
Context (rt : Runtime).

(** X13.  [resolveHandlers] first loads the configuration of the event's
    directory, so the report is compared with it afterwards.  Once an event
    has been resolved, [getHandlerStatus] for its session reports one entry
    per definition, in order, and the handlers resolved for the event are
    exactly those that the report shows as effectively enabled and that a
    session override or the event's hook type lets through, with the
    overrides of the project applied; resolving the event again gives the
    same list. *)
Theorem getHandlerStatus_agrees_with_resolver (hookData : HookData) (s : State) :
  let s1 := state_after (resolveHandlers rt hookData) s in
  exists report,
    getHandlerStatus (session_id hookData) s1 = (Ok report, s1)
    /\ map st_name report = map name (handlers s)
    /\ resolved_for rt hookData s
       = omap (fun entry =>
                 if runs_by_report (hook_event_name hookData) (fst entry) (snd entry)
                 then Some (with_overrides (projectConfig s1) (fst entry))
                 else None)
              (combine (handlers s) report)
    /\ resolved_for rt hookData s1 = resolved_for rt hookData s.
Proof.
  cbv zeta. destruct (resolveHandlers_keeps rt hookData s) as [t Hs1].
  rewrite Hs1. eexists. split; [reflexivity|]. cbn [handlers sessions projectConfig].
  split; [rewrite map_map; reflexivity|]. split.
  - rewrite resolved_for_eq.
    clear Hs1. generalize (loaded_config rt hookData s) as pc. intros pc.
    induction (handlers s) as [|h l IH]; [reflexivity|].
    cbn [map combine]. rewrite !omap_cons_eq, IH.
    unfold resolve_one, should_run, session_override, runs_by_report, project_enabled.
    cbn [fst snd st_effectiveEnabled st_sessionOverride].
    destruct (SessionStateManager.isHookEnabledForSession _ _ _) as [b|].
    + now rewrite andb_true_r.
    + now rewrite andb_comm.
  - rewrite !resolved_for_eq. cbn [handlers].
    assert (loaded_config rt hookData
              (mkState (handlers s) (sessions s) (loaded_config rt hookData s)
                       (stats s) (ticks s) t)
            = loaded_config rt hookData s) as ->.
    { unfold loaded_config. cbn [projectConfig].
      destruct (negb (String.eqb (cwd hookData) "")); [|reflexivity].
      destruct (find_project_config rt (cwd hookData)) as [p|]; [|reflexivity].
      destruct (read_project_config rt p); reflexivity. }
    apply omap_pointwise. intros h. apply resolve_one_ext. reflexivity.
Qed.

End StatusReport.

(** The report taken before the event is resolved need not agree: a
    handler disabled globally is reported as not effectively enabled, and
    is resolved for an event of a project that enables it. *)
Lemma status_before_the_event_can_disagree :
  (exists report,
     fst (getHandlerStatus "session-1" (Reference.initial_state [off_handler]))
     = Ok report
     /\ map st_effectiveEnabled report = [false])
  /\ resolved_for one_project_runtime (event_in "/work/app")
                  (Reference.initial_state [off_handler])
     = [off_handler].
Proof. split; [eexists; split; reflexivity|reflexivity]. Qed.

(** * The dispatcher in surroundings that fail *)

(** ** Computations that settle *)

Section FullFrame.

Lemma sot_ret {A} (a : A) : settles_on_the_trace (Full.ret a).
Proof. intros s. exists (Ok a), []. unfold Full.ret. now rewrite with_trace_nil. Qed.

Lemma sot_throw {A} e : settles_on_the_trace (@Full.throw A e).
Proof. intros s. exists (Throw e), []. unfold Full.throw. now rewrite with_trace_nil. Qed.

Lemma sot_lift {A} (c : M A) : extends_trace_only c -> settles_on_the_trace (Full.lift c).
Proof.
  intros Hc s. destruct (Hc s) as [evs Hs]. exists (fst (c s)), evs.
  unfold Full.lift. now rewrite Hs.
Qed.

Lemma sot_bind {A B} (c : Full.IO A) (k : A -> Full.IO B) :
  settles_on_the_trace c -> (forall a, settles_on_the_trace (k a)) ->
  settles_on_the_trace (Full.bind c k).
Proof.
  intros Hc Hk s. unfold Full.bind.
  destruct (Hc s) as (o & evs & ->). destruct o as [a|e].
  - destruct (Hk a (with_trace (trace s ++ evs) s)) as (o' & evs' & ->).
    exists o', (evs ++ evs'). now rewrite with_trace_app.
  - now exists (Throw e), evs.
Qed.

Lemma sot_try_catch {A} (c : Full.IO A) (k : Thrown -> Full.IO A) :
  settles_on_the_trace c -> (forall e, settles_on_the_trace (k e)) ->
  settles_on_the_trace (Full.try_catch c k).
Proof.
  intros Hc Hk s. unfold Full.try_catch.
  destruct (Hc s) as (o & evs & ->). destruct o as [a|e].
  - now exists (Ok a), evs.
  - destruct (Hk e (with_trace (trace s ++ evs) s)) as (o' & evs' & ->).
    exists o', (evs ++ evs'). now rewrite with_trace_app.
Qed.

Lemma logger_written f level message s :
  log_is_written f ->
  Full.logger f level message s
  = (Full.Settles (Ok tt), with_trace (trace s ++ [ELog level message]) s).
Proof.
  intros Hf. unfold Full.logger, Full.bind, Full.lift, get_state, emit, modify.
  cbn [fst snd]. now rewrite Hf.
Qed.

Lemma sot_logger f level message :
  log_is_written f -> settles_on_the_trace (Full.logger f level message).
Proof.
  intros Hf s. exists (Ok tt), [ELog level message]. now apply logger_written.
Qed.

End FullFrame.

(** Decomposes a goal [settles_on_the_trace c] along the structure of [c]. *)
Ltac settle_with extra :=
  repeat first
    [ apply sot_ret | apply sot_throw
    | apply sot_logger; assumption
    | extra
    | apply sot_lift; solve [frame]
    | apply sot_bind; [ | intros ? ]
    | apply sot_try_catch; [ | intros ? ]
    | match goal with
      | |- settles_on_the_trace (match ?x with _ => _ end) => destruct x
      | |- settles_on_the_trace (if ?b then _ else _) => destruct b
      end ].

Ltac settle := settle_with fail.

(** ** [execute] *)

Section FullExecute.
Context (f : Full.Faults) (rt : Runtime).
Hypothesis Hlog : log_is_written f.
Hypothesis Hback : handlers_come_back f.

Lemma sot_spawn_and_wait request onExit result :
  settles_on_the_trace (Full.spawn_and_wait f rt request onExit result).
Proof.
  unfold Full.spawn_and_wait. rewrite (proj1 Hback). settle.
Qed.

Lemma sot_execute_try h hookData :
  settles_on_the_trace (Full.execute_try f rt h hookData).
Proof.
  unfold Full.execute_try, Full.executeVelcroHandler, Full.executeCommandHandler,
    Full.executeScriptHandler, Full.executeFunctionHandler, Full.executeExternalHandler.
  settle_with ltac:(first [ rewrite (proj1 (proj2 Hback))
                          | rewrite (proj2 (proj2 Hback)); cbv iota
                          | apply sot_spawn_and_wait
                          | apply sot_lift; apply eto_matchesFilter ]).
Qed.

Lemma execute_catch_written h e s :
  Full.execute_catch f h e s
  = (Full.Settles (Ok (caught_result h e, None)),
     with_trace (trace s ++ [ELog LvError ("Handler " +:+ name h +:+ " execution failed")]) s).
Proof.
  unfold Full.execute_catch, Full.try_catch, Full.bind.
  rewrite (logger_written _ _ _ _ Hlog). unfold caught_result.
  destruct (thrown_is_Error e && thrown_has_blockExecution e); reflexivity.
Qed.

(** The [try] block on the path where the matcher skips the invocation. *)
Lemma full_execute_try_skip h hookData s :
  skips rt h hookData = true ->
  Full.execute_try f rt h hookData s
  = (Full.Settles (Ok (Full.set_success true (Full.initial_result h))),
     with_trace (trace s ++ [ELog LvDebug ("Handler " +:+ name h
                                           +:+ " skipped due to matcher")]) s).
Proof.
  unfold skips. intros [Hm Hw]%andb_prop. apply negb_true_iff in Hw.
  unfold Full.execute_try. rewrite Hm.
  unfold Full.bind at 1. unfold Full.bind at 1. unfold Full.lift.
  rewrite (matchesFilter_rejects rt _ _ _ Hw). cbn [fst snd Full.ret negb].
  unfold Full.bind. rewrite (logger_written _ _ _ _ Hlog). reflexivity.
Qed.

(** The [try] block of a handler with a configuration fault that the
    matcher does not skip. *)
Lemma full_execute_try_fault h hookData s message :
  skips rt h hookData = false ->
  configuration_fault h = Some message ->
  fst (Full.execute_try f rt h hookData s) = Full.Settles (Throw (new_Error message)).
Proof.
  unfold skips. intros Hs Hfault.
  unfold Full.execute_try.
  assert (Hskip : forall s0,
    exists s1,
      Full.bind (A:=bool)
        (if truthy_str (matcher h)
         then Full.bind (Full.lift (matchesFilter rt (matcher h) hookData))
                        (fun m => Full.ret (negb m))
         else Full.ret false)
        (fun skip => Full.ret skip) s0 = (Full.Settles (Ok false), s1)).
  { intros s0. destruct (truthy_str (matcher h)); simpl in Hs.
    - unfold Full.bind, Full.lift, Full.ret.
      rewrite (matchesFilter_value rt (matcher h) hookData s0).
      apply negb_false_iff in Hs. rewrite Hs. eauto.
    - unfold Full.bind, Full.ret. eauto. }
  unfold Full.bind at 1.
  destruct (Hskip s) as [s1 Hs1]. unfold Full.bind at 1 in Hs1.
  destruct (_ s) as [[[b|e]| |] s0] eqn:Hm in Hs1; try discriminate.
  rewrite Hm. unfold Full.ret in Hs1. injection Hs1 as -> ->.
  unfold Full.bind at 1. rewrite (logger_written _ _ _ _ Hlog).
  unfold configuration_fault in Hfault.
  unfold Full.executeVelcroHandler, Full.executeCommandHandler,
    Full.executeScriptHandler, Full.executeFunctionHandler, Full.executeExternalHandler.
  destruct (type h);
    repeat match type of Hfault with
           | context [truthy_str ?x] => destruct (truthy_str x)
           end; try discriminate; injection Hfault as <-; reflexivity.
Qed.

End FullExecute.

Section FullExecuteTotal.
Context (f : Full.Faults) (rt : Runtime).
Hypothesis Hlog : log_is_written f.
Hypothesis Hback : handlers_come_back f.

Lemma full_recordExecution_eq handlerName duration success error s :
  Full.recordExecution f rt handlerName duration success error s
  = (Full.Settles
       match Full.saveStats_fault f
               (trace (snd (StatsManager.record rt handlerName duration success error s)))
               (stats (snd (StatsManager.record rt handlerName duration success error s)))
       with
       | Some e => Throw e
       | None => Ok tt
       end,
     recorded_value rt handlerName duration success error s).
Proof.
  unfold Full.recordExecution, recorded_value, Full.bind, Full.lift.
  unfold StatsManager.record, bind, get_state, Date_now, modify, emit.
  cbn [fst snd].
  destruct (Full.saveStats_fault f _ _); reflexivity.
Qed.

(** [execute], from the way its [try] block ends: the [catch] block turns
    an exception into a result, and the [finally] block writes [duration]
    and records the execution; what [execute] returns or throws then
    depends on the write of the statistics alone. *)
Lemma full_execute_eq h hookData s :
  exists o evs,
    Full.execute_try f rt h hookData (tick s)
    = (Full.Settles o, with_trace (trace s ++ evs) (tick s))
    /\ exists evs' s',
         let r := Full.set_duration (measured_duration rt s) (result_of_try h o) in
         let s2 := tick (tick (with_trace (trace s ++ evs') s)) in
         s' = recorded_value rt (name h) (Full.duration r) (Full.success r) (Full.error r) s2
         /\ Full.execute f rt h hookData s
            = (Full.Settles
                 match Full.saveStats_fault f
                         (trace (snd (StatsManager.record rt (name h) (Full.duration r)
                                        (Full.success r) (Full.error r) s2)))
                         (stats (snd (StatsManager.record rt (name h) (Full.duration r)
                                        (Full.success r) (Full.error r) s2)))
                 with
                 | Some e => Throw e
                 | None => Ok r
                 end, s').
Proof.
  destruct (sot_execute_try f rt Hlog Hback h hookData (tick s)) as (o & evs & Htry).
  exists o, evs. split; [exact Htry|].
  change (trace (tick s)) with (trace s) in Htry.
  unfold Full.execute. unfold Full.bind at 1. unfold Full.lift at 1.
  change (snd (Date_now rt s)) with (tick s).
  change (fst (Date_now rt s)) with (Ok (A:=Z) (clock_reading rt (ticks s))).
  cbv iota beta.
  unfold Full.bind at 1, Full.try_catch. unfold Full.bind at 1. rewrite Htry.
  destruct o as [r0|e].
  - exists evs. eexists. cbv zeta. split; [reflexivity|].
    cbn [Full.ret fst snd result_of_try]. unfold Full.execute_finally.
    unfold Full.bind at 1. unfold Full.lift at 1, Date_now at 1. cbn [fst snd].
    unfold Full.bind at 1. rewrite full_recordExecution_eq.
    unfold measured_duration. cbn [ticks tick with_ticks with_trace].
    destruct s; cbn. destruct (Full.saveStats_fault f _ _); reflexivity.
  - rewrite execute_catch_written by exact Hlog.
    exists (evs ++ [ELog LvError ("Handler " +:+ name h +:+ " execution failed")]).
    eexists. cbv zeta. split; [reflexivity|].
    cbn [Full.ret fst snd result_of_try]. unfold Full.execute_finally.
    unfold Full.bind at 1. unfold Full.lift at 1, Date_now at 1. cbn [fst snd].
    unfold Full.bind at 1. rewrite full_recordExecution_eq.
    unfold measured_duration. cbn [ticks tick with_ticks with_trace].
    destruct s; cbn. rewrite <- !app_assoc.
    destruct (Full.saveStats_fault f _ _); reflexivity.
Qed.

End FullExecuteTotal.

Section ExecuteResolves.
Context (f : Full.Faults) (rt : Runtime).


(** What the hypothesis on the statistics file is for: when the file
    cannot be written, [execute] rejects with the exception of the write,
    whatever the handler did; the execution has been counted in the map
    all the same. *)
Lemma execute_rejects_when_the_statistics_are_lost (h : Handler) (hookData : HookData)
    (s : State) (e : Thrown) :
  log_is_written f ->
  handlers_come_back f ->
  statistics_are_lost f e ->
  exists s',
    Full.execute f rt h hookData s = (Full.Settles (Throw e), s')
    /\ executions (entry_or_fresh s' (name h))
       = S (executions (entry_or_fresh s (name h))).
Proof.
  intros Hlog Hback Hlost.
  destruct (full_execute_eq f rt Hlog Hback h hookData s)
    as (o & evs & Htry & evs' & s' & Hs' & He).
  cbv zeta in He, Hs'. rewrite Hlost in He.
  exists s'. split; [exact He|].
  rewrite Hs'. unfold recorded_value, entry_or_fresh, StatsManager.record, bind,
    get_state, Date_now, modify. cbn [fst snd stats with_trace with_stats with_ticks tick].
  rewrite lookup_insert_eq. reflexivity.
Qed.

End ExecuteResolves.



(** The run in which the statistics file is a directory: the command
    handler exits with 0, and [execute] rejects. *)
Lemma unwritable_statistics_reject :
  fst (Full.execute unwritable_statistics quiet_runtime
         (Reference.command_handler "first" "echo one" None)
         (Reference.tool_event "Bash")
         (Reference.initial_state [Reference.command_handler "first" "echo one" None]))
  = Full.Settles (Throw (new_Error "EISDIR: illegal operation on a directory, open")).
Proof. vm_compute. reflexivity. Qed.

(** ** The /hooks endpoint *)

(** C8.  The code drops every entry when a function handler succeeds with
    a message that is not a string.  An event resolves to two handlers, a
    command handler that prints ["ok"] and a function handler that returns
    [{ message: 42 }]; both executions are dispatched and fulfil with
    [success = true], the second with the number 42 as its [output].  The
    endpoint then answers with status 500, so that the aggregate has no
    entry, where two are specified.  Had the function handler returned the
    string ['42'], the answer would have been the aggregate of the two
    entries. *)
Theorem non_text_output_loses_every_entry :
  let hs := two_handlers "return { message: 42 };" in
  let s := Reference.initial_state hs in
  let event := Reference.tool_event "Bash" in
  fst (Full.resolveHandlers no_faults counting_runtime event s) = Full.Settles (Ok hs)
  /\ (exists r1 r2,
        fst (Full.dispatch no_faults counting_runtime event hs s)
        = Full.Settles (Ok [Full.Fulfilled r1; Full.Fulfilled r2])
        /\ Full.handler r1 = "first" /\ Full.success r1 = true
        /\ Full.output r1 = Some (JStr "ok")
        /\ Full.handler r2 = "count" /\ Full.success r2 = true
        /\ Full.output r2 = Some (JNum 42))
  /\ fst (Full.post_hooks no_faults counting_runtime event s)
     = Full.Settles (Ok Full.Status500)
  /\ exists body,
       fst (Full.post_hooks no_faults counting_runtime event
              (Reference.initial_state (two_handlers "return { message: '42' };")))
       = Full.Settles (Ok (Full.Status200 body))
       /\ Full.r_handlers body = 2%nat
       /\ Full.r_output body = Some ("ok" +:+ newline +:+ newline +:+ "42").
Proof.
  cbv zeta. split; [vm_compute; reflexivity|]. split.
  - eexists. eexists. split; [vm_compute; reflexivity|]. repeat split.
  - split; [vm_compute; reflexivity|].
    eexists. split; [vm_compute; reflexivity|]. split; reflexivity.
Qed.

(** ** The resolver, the executions of an event and the answer *)

Section Lifting.

Lemma il_ret {A} (a : A) : is_lift (Full.ret a) (ret a).
Proof. intros s. reflexivity. Qed.

Lemma il_throw {A} e : is_lift (@Full.throw A e) (throw e).
Proof. intros s. reflexivity. Qed.

Lemma il_lift {A} (c : M A) : is_lift (Full.lift c) c.
Proof. intros s. reflexivity. Qed.

Lemma il_bind {A B} (c : Full.IO A) c0 (k : A -> Full.IO B) k0 :
  is_lift c c0 -> (forall a, is_lift (k a) (k0 a)) ->
  is_lift (Full.bind c k) (bind c0 k0).
Proof.
  intros Hc Hk s. unfold Full.bind, bind. rewrite Hc. unfold Full.lift.
  destruct (c0 s) as [[a|e] s1]; cbn [fst snd]; [|reflexivity].
  apply Hk.
Qed.

Lemma il_try_catch {A} (c : Full.IO A) c0 (k : Thrown -> Full.IO A) k0 :
  is_lift c c0 -> (forall e, is_lift (k e) (k0 e)) ->
  is_lift (Full.try_catch c k) (try_catch c0 k0).
Proof.
  intros Hc Hk s. unfold Full.try_catch, try_catch. rewrite Hc. unfold Full.lift.
  destruct (c0 s) as [[a|e] s1]; cbn [fst snd]; [reflexivity|].
  apply Hk.
Qed.

Lemma il_logger f level message :
  log_is_written f -> is_lift (Full.logger f level message) (logger level message).
Proof. intros Hf s. now rewrite logger_written by exact Hf. Qed.

End Lifting.

(** Decomposes a goal [is_lift c c0] along the common structure of [c] and
    [c0]. *)
Ltac lifting_with extra :=
  repeat first
    [ apply il_ret | apply il_throw | apply il_lift
    | apply il_logger; assumption
    | extra
    | apply il_bind; [ | intros ? ]
    | apply il_try_catch; [ | intros ? ]
    | match goal with
      | |- is_lift (match ?x with _ => _ end) _ => destruct x
      | |- is_lift (if ?b then _ else _) _ => destruct b
      end ].

Ltac lifting := lifting_with fail.

Section FullResolver.
Context (f : Full.Faults) (rt : Runtime).
Hypothesis Hlog : log_is_written f.
Hypothesis Hsearch : searches_end f.

Lemma il_shouldRunHandler h hookData :
  is_lift (Full.shouldRunHandler f h hookData) (shouldRunHandler h hookData).
Proof. unfold Full.shouldRunHandler, shouldRunHandler. lifting. Qed.

Lemma il_resolve_loop hookData hs : forall acc,
  is_lift (Full.resolve_loop f hookData hs acc) (resolve_loop hookData hs acc).
Proof.
  induction hs as [|h rest IH]; intros acc; simpl.
  - apply il_ret.
  - lifting_with ltac:(first [apply il_shouldRunHandler | apply IH]).
Qed.

(** While the log can be written and the search ends, the resolver is the
    one of the modules above. *)
Lemma il_resolveHandlers hookData :
  is_lift (Full.resolveHandlers f rt hookData) (resolveHandlers rt hookData).
Proof.
  unfold Full.resolveHandlers, resolveHandlers, Full.loadProjectConfig.
  rewrite Hsearch.
  lifting_with ltac:(apply il_resolve_loop).
Qed.

End FullResolver.

Section FullAggregation.
Context (f : Full.Faults).
Hypothesis Hlog : log_is_written f.

Lemma full_process_one_eq h p t s :
  exists evs,
    Full.process_one f h p t s
    = (Full.Settles (Ok (settled_track (h, p) t)), with_trace (trace s ++ evs) s).
Proof.
  unfold Full.process_one, settled_track, settled_entry. cbn [fst snd].
  destruct p as [r|e].
  - unfold Full.bind.
    destruct (Full.success r && truthy_opt (Full.output r)).
    + rewrite (logger_written _ _ _ _ Hlog). cbn [Full.results Full.blocked Full.blockingResult].
      destruct (Full.blocks r).
      * destruct (truthy_opt (Full.stderr r)).
        -- rewrite (logger_written _ _ _ _ Hlog). unfold Full.ret.
           rewrite with_trace_app. eauto.
        -- unfold Full.ret. eauto.
      * destruct (negb (Full.success r) && truthy_opt (Full.stderr r)).
        -- rewrite (logger_written _ _ _ _ Hlog). unfold Full.ret.
           rewrite with_trace_app. eauto.
        -- unfold Full.ret. eauto.
    + unfold Full.ret at 1. cbn [Full.results Full.blocked Full.blockingResult].
      destruct (Full.blocks r).
      * destruct (truthy_opt (Full.stderr r)).
        -- rewrite (logger_written _ _ _ _ Hlog). unfold Full.ret. eauto.
        -- unfold Full.ret. exists []. now rewrite with_trace_nil.
      * destruct (negb (Full.success r) && truthy_opt (Full.stderr r)).
        -- rewrite (logger_written _ _ _ _ Hlog). unfold Full.ret. eauto.
        -- unfold Full.ret. exists []. now rewrite with_trace_nil.
  - unfold Full.bind. rewrite (logger_written _ _ _ _ Hlog). unfold Full.ret. eauto.
Qed.

Lemma full_process_results_eq entries : forall t s,
  exists evs,
    Full.process_results f entries t s
    = (Full.Settles (Ok (fold_left (fun acc e => settled_track e acc) entries t)),
       with_trace (trace s ++ evs) s).
Proof.
  induction entries as [|[h p] rest IH]; intros t s.
  - exists []. simpl. unfold Full.ret. now rewrite with_trace_nil.
  - simpl. unfold Full.bind at 1. destruct (full_process_one_eq h p t s) as [evs ->].
    destruct (IH (settled_track (h, p) t) (with_trace (trace s ++ evs) s)) as [evs' ->].
    exists (evs ++ evs'). now rewrite with_trace_app.
Qed.

End FullAggregation.

Section FullResponse.

(** The loop, in closed form: one entry per settled execution, in order;
    [blocked] and [blockingResult] depend on the fulfilled values only. *)
Lemma full_tracking_closed_form entries : forall t,
  let t' := fold_left (fun acc e => settled_track e acc) entries t in
  let values := settled_values (map snd entries) in
  Full.results t' = Full.results t ++ map settled_entry entries
  /\ Full.blocked t' = Full.blocked t || existsb Full.blocks values
  /\ Full.blockingResult t' = match last (List.filter Full.blocks values) with
                              | Some r => Some r
                              | None => Full.blockingResult t
                              end.
Proof.
  induction entries as [|[h p] rest IH]; intros t; simpl.
  - now rewrite app_nil_r, orb_false_r.
  - destruct (IH (settled_track (h, p) t)) as (Hr & Hb & Hl).
    cbv zeta in *. rewrite Hr, Hb, Hl. clear Hr Hb Hl IH.
    unfold settled_track, settled_values. cbn [fst snd].
    destruct p as [r|e].
    + destruct (Full.blocks r) eqn:Hbl; simpl; rewrite ?Hbl; rewrite <- app_assoc; simpl;
        (split; [reflexivity|]); split.
      * now rewrite orb_true_r.
      * rewrite last_cons. now destruct (last (List.filter Full.blocks _)).
      * reflexivity.
      * reflexivity.
    + simpl. rewrite <- app_assoc. auto.
Qed.

Lemma successful_outputs_spec rs :
  match Full.successful_outputs rs with
  | inl _ => existsb non_text_output rs = true
  | inr _ => existsb non_text_output rs = false
  end.
Proof.
  induction rs as [|r rest IH]; [reflexivity|].
  cbn [Full.successful_outputs existsb].
  unfold Full.trimmed_output, non_text_output.
  destruct (Full.success r && truthy_opt (Full.output r)); cbn [andb orb].
  - destruct (Full.output r) as [[| | |text| |]|]; cbn [orb]; try reflexivity.
    destruct (Full.successful_outputs rest); exact IH.
  - destruct (Full.successful_outputs rest); exact IH.
Qed.

(** The answer is 500 exactly when some entry has a successful output
    that is not a string; otherwise it is the aggregate, which counts
    every entry and says [blocked] when the loop did. *)
Lemma reply_of_spec t :
  match reply_of t with
  | Full.Status500 => existsb non_text_output (Full.results t) = true
  | Full.Status200 body =>
      existsb non_text_output (Full.results t) = false
      /\ Full.r_handlers body = length (Full.results t)
      /\ Full.r_success body = negb (Full.blocked t)
      /\ (Full.r_blocked body
          = if Full.blocked t && bool_decide (is_Some (Full.blockingResult t))
            then Some true else None)
  end.
Proof.
  unfold reply_of, Full.build_response.
  pose proof (successful_outputs_spec (Full.results t)) as Hs.
  destruct (Full.successful_outputs (Full.results t)) as [e|outs]; [exact Hs|].
  split; [exact Hs|].
  destruct (Full.blocked t); [|repeat split].
  destruct (Full.blockingResult t) as [b|]; [|repeat split].
  destruct (Full.has_object_response b); repeat split.
Qed.

End FullResponse.

Section FullDispatch.
Context (f : Full.Faults) (rt : Runtime).
Hypothesis Hlog : log_is_written f.
Hypothesis Hstats : statistics_are_saved f.
Hypothesis Hback : handlers_come_back f.

Lemma recorded_value_entry handlerName duration success error s n :
  executions (entry_or_fresh (recorded_value rt handlerName duration success error s) n)
  = ((if String.eqb handlerName n then 1 else 0) + executions (entry_or_fresh s n))%nat.
Proof.
  unfold recorded_value, entry_or_fresh, StatsManager.record, bind, get_state,
    Date_now, modify.
  cbn [fst snd stats with_trace with_stats with_ticks].
  destruct (String.eqb_spec handlerName n) as [->|Hne].
  - rewrite lookup_insert_eq. reflexivity.
  - rewrite lookup_insert_ne by exact Hne. reflexivity.
Qed.

(** An execution settles with a result, counts itself once in the
    statistics of its handler, and leaves the configuration and the
    sessions as they are. *)
Lemma full_execute_counts h hookData s :
  exists r s',
    Full.execute f rt h hookData s = (Full.Settles (Ok r), s')
    /\ handlers s' = handlers s /\ sessions s' = sessions s
    /\ projectConfig s' = projectConfig s
    /\ forall n,
         executions (entry_or_fresh s' n)
         = ((if String.eqb (name h) n then 1 else 0)
            + executions (entry_or_fresh s n))%nat.
Proof.
  destruct (full_execute_eq f rt Hlog Hback h hookData s)
    as (o & evs & _ & evs' & s' & Hs' & He).
  cbv zeta in He, Hs'. rewrite Hstats in He.
  eexists. exists s'. split; [exact He|]. rewrite Hs'.
  split; [reflexivity|]. split; [reflexivity|]. split; [reflexivity|].
  intros n. rewrite recorded_value_entry. reflexivity.
Qed.

(** Every execution of the list is followed to its settlement, which is a
    fulfilment; each counts itself once. *)
Lemma full_dispatch hookData hs : forall s,
  exists settled s',
    Full.dispatch f rt hookData hs s = (Full.Settles (Ok settled), s')
    /\ length settled = length hs
    /\ Forall2 (executed_as f rt hookData) hs settled
    /\ (forall n, executions (entry_or_fresh s' n)
                  = (executions (entry_or_fresh s n) + count_named n hs)%nat).
Proof.
  induction hs as [|h rest IH]; intros s.
  - exists [], s. split; [reflexivity|]. split; [reflexivity|]. split; [constructor|].
    intros n. unfold count_named. simpl. lia.
  - cbn [Full.dispatch]. unfold Full.bind at 1. unfold Full.try_catch, Full.bind at 1.
    destruct (full_execute_counts h hookData s) as (r & s1 & He & _ & _ & _ & Hn).
    rewrite He. cbn [Full.ret].
    unfold Full.bind at 1. destruct (IH s1) as (settled & s2 & -> & Hlen & Hall & Hcount).
    eexists. exists s2. split; [reflexivity|].
    split; [simpl; now rewrite Hlen|]. split.
    + constructor; [|exact Hall]. exists s, r. split; [now rewrite He|reflexivity].
    + intros n. rewrite Hcount, Hn. unfold count_named. simpl.
      destruct (String.eqb (name h) n); simpl; lia.
Qed.

End FullDispatch.

Section FullEndpoint.
Context (f : Full.Faults) (rt : Runtime).
Hypothesis Hlog : log_is_written f.
Hypothesis Hhook : hooks_are_logged f.
Hypothesis Hstats : statistics_are_saved f.
Hypothesis Hback : handlers_come_back f.
Hypothesis Hsearch : searches_end f.

Lemma logHook_written hookData s :
  Full.logHook f hookData s
  = (Full.Settles (Ok tt), with_trace (trace s ++ [ELogHook hookData]) s).
Proof.
  unfold Full.logHook, Full.bind, Full.lift, get_state, emit, modify.
  cbn [fst snd]. now rewrite Hhook.
Qed.

(** The endpoint, step by step: the event is resolved, every resolved
    handler is executed, the loop keeps one entry per execution, and the
    answer is built from the entries. *)
Lemma full_post_hooks_unfolds hookData s :
  exists s1 settled s2 t s3,
    ready_for rt hookData s s1
    /\ Full.dispatch f rt hookData (resolved_for rt hookData s) s1
       = (Full.Settles (Ok settled), s2)
    /\ length settled = length (resolved_for rt hookData s)
    /\ Forall2 (executed_as f rt hookData) (resolved_for rt hookData s) settled
    /\ Full.post_hooks f rt hookData s = (Full.Settles (Ok (reply_of t)), s3)
    /\ Full.results t = map settled_entry (combine (resolved_for rt hookData s) settled)
    /\ Full.blocked t = existsb Full.blocks (settled_values settled)
    /\ Full.blockingResult t = last (List.filter Full.blocks (settled_values settled))
    /\ stats s3 = stats s2
    /\ (forall n, executions (entry_or_fresh s2 n)
                  = (executions (entry_or_fresh s n)
                     + count_named n (resolved_for rt hookData s))%nat).
Proof.
  rewrite resolved_for_eq.
  unfold Full.post_hooks, Full.try_catch.
  unfold Full.bind at 1. rewrite logHook_written.
  unfold Full.bind at 1. rewrite (logger_written _ _ _ _ Hlog).
  unfold Full.bind at 1.
  rewrite (il_resolveHandlers f rt Hlog Hsearch hookData). unfold Full.lift.
  match goal with
  | |- context [resolveHandlers rt hookData ?st] =>
      pose proof (resolveHandlers_keeps rt hookData st) as [tr Hkeep];
      destruct (resolveHandlers_spec rt hookData st) as [s1 Hres]
  end.
  unfold state_after in Hkeep. rewrite Hres in *. cbn [fst snd] in *.
  unfold Full.bind at 1. rewrite (logger_written _ _ _ _ Hlog).
  unfold Full.bind at 1.
  match goal with
  | |- context [Full.dispatch f rt hookData ?hs ?st] =>
      destruct (full_dispatch f rt Hlog Hstats Hback hookData hs st)
        as (settled & s2 & Hd & Hlen & Hall & Hcount)
  end.
  rewrite Hd. unfold Full.bind at 1.
  match goal with
  | |- context [Full.process_results f ?entries ?t0 s2] =>
      destruct (full_process_results_eq f Hlog entries t0 s2) as [evs Hp];
      destruct (full_tracking_closed_form entries t0) as (Hr & Hb & Hl)
  end.
  rewrite Hp. cbv zeta in Hr, Hb, Hl.
  rewrite (map_snd_combine_eq _ _ Hlen) in Hb, Hl.
  match type of Hr with
  | Full.results ?t' = _ => set (t := t') in *
  end.
  assert (Hlast : Full.blockingResult t
                  = last (List.filter Full.blocks (settled_values settled)))
    by (rewrite Hl; now destruct (last _)).
  assert (Hcount' : forall n, executions (entry_or_fresh s2 n)
                    = (executions (entry_or_fresh s n)
                       + count_named n
                           (omap (resolve_one s (loaded_config rt hookData s) hookData)
                                 (handlers s)))%nat).
  { intros n. rewrite Hcount. rewrite Hkeep. reflexivity. }
  match type of Hd with
  | Full.dispatch _ _ _ _ ?st = _ =>
      assert (Hready : ready_for rt hookData s st) by (rewrite Hkeep; repeat split);
      set (s1' := st) in *
  end.
  unfold reply_of.
  destruct (Full.build_response t) as [e|body] eqn:Hbr.
  - unfold Full.throw, Full.bind. rewrite (logger_written _ _ _ _ Hlog). unfold Full.ret.
    exists s1', settled, s2, t. eexists.
    split; [exact Hready|]. split; [exact Hd|]. split; [exact Hlen|].
    split; [exact Hall|]. split; [rewrite Hbr; reflexivity|]. split; [exact Hr|].
    split; [exact Hb|]. split; [exact Hlast|]. split; [reflexivity|exact Hcount'].
  - unfold Full.ret.
    exists s1', settled, s2, t. eexists.
    split; [exact Hready|]. split; [exact Hd|]. split; [exact Hlen|].
    split; [exact Hall|]. split; [rewrite Hbr; reflexivity|]. split; [exact Hr|].
    split; [exact Hb|]. split; [exact Hlast|]. split; [reflexivity|exact Hcount'].
Qed.

End FullEndpoint.

(** ** The hook command *)

Section HookCommand.

(** The command from the request on: it never exits with 1. *)
Lemma send_exit_status (c : HandlerCommand.Client) (options : HandlerCommand.Options)
    (err : list JSON) (hookData : JSON) :
  let run := HandlerCommand.send c options err hookData in
  HandlerCommand.exit_status run <> Some 1
  /\ (HandlerCommand.exit_status run = Some 2
      <-> HandlerCommand.opt_server options <> "disabled"
          /\ HandlerCommand.opt_async options = false
          /\ exists status results,
               HandlerCommand.fetch_hooks c (HandlerCommand.opt_server options) hookData
               = HandlerCommand.FetchResolves true status (HandlerCommand.BodyValue results)
               /\ truthy_opt (prop results "blocked") = true)
  /\ (HandlerCommand.exit_status run = None
      <-> HandlerCommand.opt_server options <> "disabled"
          /\ HandlerCommand.opt_async options = false
          /\ exists status,
               HandlerCommand.fetch_hooks c (HandlerCommand.opt_server options) hookData
               = HandlerCommand.FetchResolves true status HandlerCommand.BodyNeverArrives)
  /\ (HandlerCommand.exit_status run = Some 0 \/ HandlerCommand.exit_status run = Some 2
      \/ HandlerCommand.exit_status run = None)
  /\ HandlerCommand.logged run = Some hookData.
Proof.
  cbv zeta. unfold HandlerCommand.send, HandlerCommand.send_failed.
  destruct (String.eqb_spec (HandlerCommand.opt_server options) "disabled") as [Hs|Hs];
    [simpl; crush|].
  simpl negb. cbv iota.
  destruct (HandlerCommand.fetch_hooks c (HandlerCommand.opt_server options) hookData)
    as [e|ok status body] eqn:Hfetch; [simpl; crush|].
  destruct (HandlerCommand.opt_async options) eqn:Ha; [simpl; crush|].
  destruct ok; [|simpl; crush].
  simpl andb. cbv iota.
  destruct body as [e|results|]; [simpl; crush| |simpl; crush; eauto 10].
  destruct (truthy_opt (prop results "blocked")) eqn:Hb.
  - destruct results; try discriminate Hb; simpl; crush; eauto 12.
  - destruct results; simpl; crush.
Qed.

(** X20.  The exit status of the hook command.  It exits with 1 exactly
    when the input is empty or is not JSON, when the hook log cannot be
    written, or when [--debug] is given and the input is the JSON text
    [null].  It exits with 2 exactly when it gets as far as the request,
    waits for the answer, the request resolves with an ok status, and the
    body parses to a value whose [blocked] is truthy.  It never exits
    exactly when, in the same situation, the body never arrives.  In every
    other case, a server that cannot be reached or that answers with an
    error included, it exits with 0.  The hook is logged exactly when the
    input is JSON and the hook log can be written. *)
Theorem hook_command_exit_status (c : HandlerCommand.Client)
    (options : HandlerCommand.Options) (inputData : string) :
  let run := HandlerCommand.action c options inputData in
  let parsed := HandlerCommand.parse_hook_data c inputData in
  (HandlerCommand.exit_status run = Some 1
   <-> trim inputData = "" \/ parsed = None
       \/ exists v, parsed = Some v
                    /\ (HandlerCommand.logHook_fault c v <> None
                        \/ (HandlerCommand.opt_debug options = true /\ v = JNull)))
  /\ (HandlerCommand.exit_status run = Some 2
      <-> exists v status results,
            sends c options inputData v
            /\ HandlerCommand.opt_async options = false
            /\ HandlerCommand.fetch_hooks c (HandlerCommand.opt_server options) v
               = HandlerCommand.FetchResolves true status (HandlerCommand.BodyValue results)
            /\ truthy_opt (prop results "blocked") = true)
  /\ (HandlerCommand.exit_status run = None
      <-> exists v status,
            sends c options inputData v
            /\ HandlerCommand.opt_async options = false
            /\ HandlerCommand.fetch_hooks c (HandlerCommand.opt_server options) v
               = HandlerCommand.FetchResolves true status HandlerCommand.BodyNeverArrives)
  /\ (HandlerCommand.exit_status run = Some 0 \/ HandlerCommand.exit_status run = Some 1
      \/ HandlerCommand.exit_status run = Some 2 \/ HandlerCommand.exit_status run = None)
  /\ (forall v, HandlerCommand.logged run = Some v
                <-> trim inputData <> "" /\ parsed = Some v
                    /\ HandlerCommand.logHook_fault c v = None).
Proof.
  cbv zeta. unfold HandlerCommand.action, sends, HandlerCommand.processing_failed.
  destruct (String.eqb_spec (trim inputData) "") as [He|He]; [simpl; crush|].
  destruct (HandlerCommand.parse_hook_data c inputData) as [hookData|];
    [|simpl; crush].
  destruct (HandlerCommand.logHook_fault c hookData) as [e|] eqn:Hlog.
  { simpl. crush; try (right; right; exists hookData; split; [reflexivity|left; congruence]). }
  assert (Hgo : forall err,
    HandlerCommand.debug_lines c hookData = Some err \/ HandlerCommand.opt_debug options = false ->
    (HandlerCommand.opt_debug options = true -> hookData <> JNull) ->
    let run := HandlerCommand.send c options err hookData in
    (HandlerCommand.exit_status run = Some 1
     <-> trim inputData = "" \/ Some hookData = None
         \/ exists v, Some hookData = Some v
                      /\ (HandlerCommand.logHook_fault c v <> None
                          \/ (HandlerCommand.opt_debug options = true /\ v = JNull)))
    /\ (HandlerCommand.exit_status run = Some 2
        <-> exists v status results,
              (trim inputData <> "" /\ Some hookData = Some v
               /\ HandlerCommand.logHook_fault c v = None
               /\ (HandlerCommand.opt_debug options = true -> v <> JNull)
               /\ HandlerCommand.opt_server options <> "disabled")
              /\ HandlerCommand.opt_async options = false
              /\ HandlerCommand.fetch_hooks c (HandlerCommand.opt_server options) v
                 = HandlerCommand.FetchResolves true status (HandlerCommand.BodyValue results)
              /\ truthy_opt (prop results "blocked") = true)
    /\ (HandlerCommand.exit_status run = None
        <-> exists v status,
              (trim inputData <> "" /\ Some hookData = Some v
               /\ HandlerCommand.logHook_fault c v = None
               /\ (HandlerCommand.opt_debug options = true -> v <> JNull)
               /\ HandlerCommand.opt_server options <> "disabled")
              /\ HandlerCommand.opt_async options = false
              /\ HandlerCommand.fetch_hooks c (HandlerCommand.opt_server options) v
                 = HandlerCommand.FetchResolves true status HandlerCommand.BodyNeverArrives)
    /\ (HandlerCommand.exit_status run = Some 0 \/ HandlerCommand.exit_status run = Some 1
        \/ HandlerCommand.exit_status run = Some 2 \/ HandlerCommand.exit_status run = None)
    /\ (forall v, HandlerCommand.logged run = Some v
                  <-> trim inputData <> "" /\ Some hookData = Some v
                      /\ HandlerCommand.logHook_fault c v = None)).
  { intros err _ Hnull. cbv zeta.
    destruct (send_exit_status c options err hookData) as (H1 & H2 & H3 & H4 & H5).
    cbv zeta in H1, H2, H3, H4, H5.
    split; [|split; [|split; [|split]]].
    - split; [intros H; contradiction|].
      intros [H|[H|(v & [= <-] & [H|[Hd Hv]])]]; try contradiction; try discriminate.
      exfalso. exact (Hnull Hd Hv).
    - rewrite H2. split.
      + intros (Hs & Ha & status & results & Hf & Hb).
        exists hookData, status, results. repeat split; auto.
      + intros (v & status & results & (_ & [= <-] & _ & _ & Hs) & Ha & Hf & Hb).
        repeat split; eauto.
    - rewrite H3. split.
      + intros (Hs & Ha & status & Hf). exists hookData, status. repeat split; auto.
      + intros (v & status & (_ & [= <-] & _ & _ & Hs) & Ha & Hf). repeat split; eauto.
    - destruct H4 as [H|[H|H]]; auto.
    - intros v. rewrite H5. split.
      + intros [= <-]. auto.
      + intros (_ & [= <-] & _). reflexivity. }
  destruct (HandlerCommand.opt_debug options) eqn:Hdebug.
  - destruct (HandlerCommand.debug_lines c hookData) as [err|] eqn:Hlines.
    + apply Hgo; [now left|].
      intros _ ->. discriminate Hlines.
    + assert (hookData = JNull) as -> by (destruct hookData; try discriminate; reflexivity).
      cbn [HandlerCommand.exit_status HandlerCommand.logged].
      split; [|split; [|split; [|split]]].
      * split; [|reflexivity]. intros _. right. right. exists JNull. auto.
      * split; [discriminate|].
        intros (v & status & results & (_ & [= <-] & _ & Hv & _) & _).
        elim (Hv eq_refl). reflexivity.
      * split; [discriminate|].
        intros (v & status & (_ & [= <-] & _ & Hv & _) & _).
        elim (Hv eq_refl). reflexivity.
      * auto.
      * intros v. split.
        -- intros [= <-]. auto.
        -- intros (_ & [= <-] & _). reflexivity.
  - apply Hgo; [now right|discriminate].
Qed.

End HookCommand.

Lemma hook_command_exits_1_without_its_log :
  HandlerCommand.exit_status
    (HandlerCommand.action client_without_log
       (HandlerCommand.mkOptions "http://localhost:3010" "5000" false false) "{}")
  = Some 1.
Proof. reflexivity. Qed.

(** ** The hook command against the dispatcher *)

Section EndToEnd.
Context (f : Full.Faults) (rt : Runtime).

Lemma response_json_blocked r :
  prop (response_json r) "blocked" = JBool <$> Full.r_blocked r.
Proof.
  destruct r as [su n [b|] [bh|] [d|] [re|] [bm|] [o|] [rs|]]; reflexivity.
Qed.

Lemma entries_of_fulfilled hookData hs settled :
  Forall2 (executed_as f rt hookData) hs settled ->
  map settled_entry (combine hs settled) = settled_values settled.
Proof.
  induction 1 as [|h p hs settled (s0 & r & _ & ->) _ IH]; [reflexivity|].
  unfold settled_values. cbn [combine map]. rewrite omap_cons_eq.
  unfold settled_values in IH. now rewrite IH.
Qed.

Lemma entry_of_a_resolved_handler hookData hs settled r :
  Forall2 (executed_as f rt hookData) hs settled ->
  In r (settled_values settled) ->
  exists h s0, In h hs /\ fst (Full.execute f rt h hookData s0) = Full.Settles (Ok r).
Proof.
  induction 1 as [|h p hs settled (s0 & r0 & He & ->) _ IH]; [intros []|].
  unfold settled_values. rewrite omap_cons_eq. intros [<-|Hin].
  - exists h, s0. split; [now left|exact He].
  - destruct (IH Hin) as (h' & s' & Hh & He'). exists h', s'. split; [now right|exact He'].
Qed.

Lemma last_of_nonempty {A} (P : A -> bool) (l : list A) :
  existsb P l = true -> is_Some (last (List.filter P l)).
Proof.
  intros Hex. apply existsb_exists in Hex. destruct Hex as (x & Hin & Hx).
  assert (Hin' : In x (List.filter P l)) by (apply filter_In; auto).
  destruct (List.filter P l) as [|y l'] eqn:Hf; [contradiction|].
  destruct (last (y :: l')) eqn:Hlast; [eauto|].
  apply last_None in Hlast. discriminate.
Qed.



End EndToEnd.



(** The same run, evaluated: the handler of scenario A blocks, and the
    command exits with 2; with the two handlers of which one returns the
    number 42, the endpoint answers 500 and the command exits with 0. *)
Lemma hook_command_end_to_end :
  HandlerCommand.exit_status
    (HandlerCommand.action
       (local_client no_faults scenario_A_runtime
          (Reference.initial_state [scenario_A_handler]) (Reference.tool_event "Bash"))
       default_options "{}")
  = Some 2
  /\ HandlerCommand.exit_status
       (HandlerCommand.action
          (local_client no_faults counting_runtime
             counting_state (Reference.tool_event "Bash"))
          default_options "{}")
     = Some 0.
Proof. split; vm_compute; reflexivity. Qed.
